(** * heavy-duty-group-by: an external-memory group-by-key operator

    Shallow embedding of [groupby.py] and [iterators.py], and the properties
    of the spill-and-merge pipeline proved over it.

    Modelling conventions.
    - A Python [int] is a [Z].  A Python [str] is a [list ascii], one [ascii]
      per code point below 256; text files hold such text, and what is
      written is what is read back (a POSIX host: ["\n"] is the line
      separator on disk).
    - The standard-library pieces the code calls ([str.split], [str.join],
      [int], iteration over an open text file, [heapq]) are modelled from
      their documented behaviour; everything from the repository is
      translated from its source.
    - Exceptions are values of [exn]; code that may raise returns an
      [outcome].  Loops whose termination is not structural carry fuel and
      answer [OutOfFuel] when it runs out; the callers supply enough fuel and
      the theorems show [OutOfFuel] never happens. *)

From Stdlib Require Import ZArith Ascii String Decimal DecimalZ.
From stdpp Require Import gmap list sorting.

Local Open Scope Z_scope.

Abbreviation text := (list ascii) (only parsing).

(** A string literal as text. *)
Notation "'txt' s" := (list_ascii_of_string s) (at level 10, only parsing).

(* ================================================================== *)
(** ** Python text primitives *)
(* ================================================================== *)

Module Py.

(** [str.isspace] on one code point below 256: TAB, LF, VT, FF, CR,
    FS, GS, RS, US, SPACE, NEL and NBSP. *)
Definition is_space (c : ascii) : bool :=
  let n := nat_of_ascii c in
  ((9 <=? n) && (n <=? 13) || (28 <=? n) && (n <=? 32)
   || (n =? 133) || (n =? 160))%nat.

Definition LF : ascii := ascii_of_nat 10.
Definition CR : ascii := ascii_of_nat 13.
Definition SP : ascii := ascii_of_nat 32.

(** [sep.join(l)] *)
Fixpoint join (sep : text) (l : list text) : text :=
  match l with
  | [] => []
  | [x] => x
  | x :: l' => x ++ sep ++ join sep l'
  end.

(** [s.split()]: maximal runs of non-whitespace, [cur] being the word
    under construction. *)
Definition emit (cur : text) : list text :=
  match cur with [] => [] | _ => [cur] end.

Fixpoint split_from (cur : text) (s : text) : list text :=
  match s with
  | [] => emit cur
  | c :: s' =>
      if is_space c then emit cur ++ split_from [] s'
      else split_from (cur ++ [c]) s'
  end.

Definition split (s : text) : list text := split_from [] s.

(** What [int] skips at both ends of a [str]: the characters of C's
    [isspace] (TAB, LF, VT, FF, CR, SPACE) and, from code point 127 on,
    those of [str.isspace] (NEL and NBSP).  FS, GS, RS and US separate
    words for [split] but are not skipped by [int]. *)
Definition is_int_space (c : ascii) : bool :=
  let n := nat_of_ascii c in
  ((9 <=? n) && (n <=? 13) || (n =? 32) || (n =? 133) || (n =? 160))%nat.

Fixpoint skip_int_space (s : text) : text :=
  match s with
  | c :: s' => if is_int_space c then skip_int_space s' else s
  | [] => []
  end.

(** The text between the whitespace [int] skips at either end. *)
Definition trim_int_space (s : text) : text :=
  rev (skip_int_space (rev (skip_int_space s))).

(** Decimal digits. *)
Definition digit_char (d : nat) : ascii := ascii_of_nat (48 + d).

Fixpoint str_uint (u : uint) : text :=
  match u with
  | Nil => []
  | D0 u => digit_char 0 :: str_uint u
  | D1 u => digit_char 1 :: str_uint u
  | D2 u => digit_char 2 :: str_uint u
  | D3 u => digit_char 3 :: str_uint u
  | D4 u => digit_char 4 :: str_uint u
  | D5 u => digit_char 5 :: str_uint u
  | D6 u => digit_char 6 :: str_uint u
  | D7 u => digit_char 7 :: str_uint u
  | D8 u => digit_char 8 :: str_uint u
  | D9 u => digit_char 9 :: str_uint u
  end.

Definition minus_char : ascii := ascii_of_nat 45.
Definition plus_char : ascii := ascii_of_nat 43.
Definition underscore : ascii := ascii_of_nat 95.

(** ["{}".format(k)] and [str(k)] for an [int]. *)
Definition str_int (k : Z) : text :=
  match Z.to_int k with
  | Pos u => str_uint u
  | Neg u => minus_char :: str_uint u
  end.

Definition digit_of (c : ascii) : option (uint -> uint) :=
  match nat_of_ascii c with
  | 48 => Some D0 | 49 => Some D1 | 50 => Some D2 | 51 => Some D3
  | 52 => Some D4 | 53 => Some D5 | 54 => Some D6 | 55 => Some D7
  | 56 => Some D8 | 57 => Some D9 | _ => None
  end%nat.

(** Digits of an integer literal; a single underscore is accepted
    between two digits.  [after_digit] tells whether the previous
    character was a digit. *)
Fixpoint parse_digits (after_digit : bool) (s : text) : option uint :=
  match s with
  | [] => if after_digit then Some Nil else None
  | c :: s' =>
      match digit_of c with
      | Some d => d <$> parse_digits true s'
      | None =>
          if after_digit && bool_decide (c = underscore) then
            match s' with
            | [] => None
            | _ => parse_digits false s'
            end
          else None
      end
  end.

(** [int(s)] for a [str]: [None] stands for [ValueError]. *)
Definition int (s : text) : option Z :=
  match trim_int_space s with
  | c :: s' =>
      if bool_decide (c = minus_char) then
        (fun u => Z.of_int (Neg u)) <$> parse_digits false s'
      else if bool_decide (c = plus_char) then
        (fun u => Z.of_int (Pos u)) <$> parse_digits false s'
      else (fun u => Z.of_int (Pos u)) <$> parse_digits false (c :: s')
  | [] => None
  end.

(** One line of an open text file read in universal-newlines mode:
    the line with its terminator rendered as LF, and the unread rest.
    Called on a non-empty remainder only. *)
Fixpoint readline (s : text) : text * text :=
  match s with
  | [] => ([], [])
  | c :: s' =>
      if bool_decide (c = LF) then ([LF], s')
      else if bool_decide (c = CR) then
        ([LF], match s' with
               | c' :: s'' => if bool_decide (c' = LF) then s'' else s'
               | [] => []
               end)
      else let '(l, r) := readline s' in (c :: l, r)
  end.

End Py.

(** [str(v)]: the protocol by which a value is rendered as text. *)
Class PyStr (V : Type) := py_str : V -> text.
#[global] Instance PyStr_int : PyStr Z := Py.str_int.
#[global] Instance PyStr_str : PyStr (list ascii) := fun s => s.

(** [sys.getsizeof(x)]: a number of bytes that the host interpreter
    decides; the development is parametric in it. *)
Class GetSizeOf (A : Type) := {
  getsizeof : A -> Z;
  getsizeof_pos : forall a, 0 < getsizeof a
}.

(* ================================================================== *)
(** ** Exceptions and the two monads *)
(* ================================================================== *)

Inductive exn : Set :=
  | StopIteration
  | ValueError
  | TypeError
  | FileNotFoundError
  | ZeroDivisionError.

Inductive outcome (A : Type) : Type :=
  | Ok (a : A)
  | Raise (e : exn)
  | OutOfFuel.
Arguments Ok {A} a.
Arguments Raise {A} e.
Arguments OutOfFuel {A}.

#[global] Instance outcome_ret : MRet outcome := fun A a => Ok a.
#[global] Instance outcome_bind : MBind outcome := fun A B f c =>
  match c with
  | Ok a => f a
  | Raise e => Raise e
  | OutOfFuel => OutOfFuel
  end.

(** Names of the files of one request directory:
    [_get_dump_filename(index)] and [_get_merge_filename()]. *)
Inductive fname : Set :=
  | dump_ (index : Z)
  | _merge.

#[global] Instance fname_eq_dec : EqDecision fname.
Proof. solve_decision. Defined.

#[global] Instance fname_countable : Countable fname :=
  inj_countable'
    (fun f => match f with dump_ i => Some i | _merge => None end)
    (fun o => match o with Some i => dump_ i | None => _merge end)
    (fun f => match f with dump_ i => eq_refl | _merge => eq_refl end).

(** The request directory: [None] while it does not exist, otherwise the
    text of each file in it. *)
Abbreviation workspace := (option (gmap fname (list ascii))) (only parsing).

(** The configuration and statistics of [GroupByStatement]. *)
Record GroupByStatement : Type := {
  _num_files : Z;
  _max_num_files : Z;
  _max_hashmap_entries : Z;
  _max_memory : Z;
  spills : Z;
  num_merge_stages : Z;
  total_num_entries : Z
}.

(** What a method call can read and change: the engine object and the
    request directory. *)
Record world : Type := {
  self : GroupByStatement;
  disk : option (gmap fname (list ascii))
}.

Definition M (A : Type) : Type := world -> outcome A * world.

#[global] Instance M_ret : MRet M := fun A a w => (Ok a, w).
#[global] Instance M_bind : MBind M := fun A B f c w =>
  match c w with
  | (Ok a, w') => f a w'
  | (Raise e, w') => (Raise e, w')
  | (OutOfFuel, w') => (OutOfFuel, w')
  end.

Definition raise {A} (e : exn) : M A := fun w => (Raise e, w).
Definition lift {A} (o : outcome A) : M A := fun w => (o, w).
Definition get_self : M GroupByStatement := fun w => (Ok (self w), w).
Definition set_self (g : GroupByStatement) : M unit :=
  fun w => (Ok tt, {| self := g; disk := disk w |}).
Definition get_disk : M (option (gmap fname (list ascii))) :=
  fun w => (Ok (disk w), w).
Definition set_disk (d : option (gmap fname (list ascii))) : M unit :=
  fun w => (Ok tt, {| self := self w; disk := d |}).

(* ================================================================== *)
(** ** File-system primitives *)
(* ================================================================== *)

(** [open(f)] for reading: the handle is the unread text. *)
Definition open_read (d : option (gmap fname (list ascii))) (f : fname)
  : outcome text :=
  match d with
  | Some files =>
      match files !! f with
      | Some t => Ok t
      | None => Raise FileNotFoundError
      end
  | None => Raise FileNotFoundError
  end.

(** [next(f)] on an open text file. *)
Definition file_next (f : text) : outcome (text * text) :=
  match f with
  | [] => Raise StopIteration
  | _ => Ok (Py.readline f)
  end.

Definition int_of_line (line : text) : outcome Z :=
  match Py.int line with
  | Some k => Ok k
  | None => Raise ValueError
  end.

(** [open(f, "w")]: creates or truncates. *)
Definition open_write (f : fname) : M unit :=
  d ← get_disk;
  match d with
  | Some files => set_disk (Some (<[f := []]> files))
  | None => raise FileNotFoundError
  end.

(** [f.write(s)] on the file opened as [f]. *)
Definition file_write (f : fname) (s : text) : M unit :=
  d ← get_disk;
  match d with
  | Some files =>
      set_disk (Some (<[f := default [] (files !! f) ++ s]> files))
  | None => raise FileNotFoundError
  end.

(** [os.remove(f)] *)
Definition os_remove (f : fname) : M unit :=
  d ← get_disk;
  match d with
  | Some files =>
      match files !! f with
      | Some _ => set_disk (Some (delete f files))
      | None => raise FileNotFoundError
      end
  | None => raise FileNotFoundError
  end.

(** [shutil.move(src, dst)] between two file names of the directory. *)
Definition shutil_move (src dst : fname) : M unit :=
  d ← get_disk;
  match d with
  | Some files =>
      match files !! src with
      | Some t => set_disk (Some (<[dst := t]> (delete src files)))
      | None => raise FileNotFoundError
      end
  | None => raise FileNotFoundError
  end.

(** [shutil.rmtree(request_id)] *)
Definition shutil_rmtree : M unit :=
  d ← get_disk;
  match d with
  | Some _ => set_disk None
  | None => raise FileNotFoundError
  end.

(** [os.mkdir(request_id)], on a name [groupBy] has made sure is free. *)
Definition os_mkdir : M unit := set_disk (Some ∅).

(* ================================================================== *)
(** ** iterators.py *)
(* ================================================================== *)

(** The iteration protocol that a [for] loop drives: [iter_next] raises
    [StopIteration] at the end.  [iter_size] bounds the number of items
    still to come. *)
Class PyIterator (I A : Type) := {
  iter_next : I -> outcome (A * I);
  iter_size : I -> nat
}.

#[global] Instance list_iterator {A} : PyIterator (list A) A := {|
  iter_next l := match l with [] => Raise StopIteration | x :: l' => Ok (x, l') end;
  iter_size l := length l
|}.

(** A heap entry [(key, index, f)]: [f] is the open file, that is the
    text it has not delivered yet. *)
Abbreviation entry := (Z * nat * list ascii)%type (only parsing).

(** Python's order on the tuples; two live entries never share their
    [index], so the file objects are never compared. *)
Definition entry_lt (a b : Z * nat * list ascii) : Prop :=
  a.1.1 < b.1.1 \/ (a.1.1 = b.1.1 /\ (a.1.2 < b.1.2)%nat).

#[global] Instance entry_lt_dec a b : Decision (entry_lt a b).
Proof. unfold entry_lt. apply _. Defined.

(** [heapq]: the list is kept in ascending order, so that position 0
    holds the smallest entry, which is all the code observes of a heap. *)
Fixpoint heappush (heap : list (Z * nat * list ascii)) (e : Z * nat * list ascii)
  : list (Z * nat * list ascii) :=
  match heap with
  | [] => [e]
  | x :: heap' =>
      if decide (entry_lt e x) then e :: heap else x :: heappush heap' e
  end.

(** Unread characters over all the open files of a heap. *)
Fixpoint heap_size (heap : list (Z * nat * list ascii)) : nat :=
  match heap with
  | [] => 0
  | (_, _, f) :: heap' => length f + heap_size heap'
  end.

Record MergeFileIterator : Type := { _heap : list (Z * nat * list ascii) }.

(** The constructor's loop [for index, f in enumerate(self._files)]. *)
Fixpoint push_first_keys (index : nat) (files : list text)
    (heap : list (Z * nat * list ascii)) : outcome (list (Z * nat * list ascii)) :=
  match files with
  | [] => Ok heap
  | f :: files' =>
      '(line, f') ← file_next f;
      key ← int_of_line line;
      push_first_keys (S index) files' (heappush heap (key, index, f'))
  end.

Fixpoint open_all (d : option (gmap fname (list ascii))) (filelist : list fname)
  : outcome (list text) :=
  match filelist with
  | [] => Ok []
  | f :: filelist' =>
      t ← open_read d f;
      ts ← open_all d filelist';
      Ok (t :: ts)
  end.

Definition MergeFileIterator_init (filelist : list fname)
    (d : option (gmap fname (list ascii))) : outcome MergeFileIterator :=
  files ← open_all d filelist;
  heap ← push_first_keys 0 files [];
  Ok {| _heap := heap |}.

Definition MergeFileIterator_hasNext (it : MergeFileIterator) : bool :=
  bool_decide (_heap it <> []).

(** The loop [while self._heap and self._heap[0][0] == current_key]. *)
Fixpoint pop_equal_keys (fuel : nat) (current_key : Z)
    (heap : list (Z * nat * list ascii)) (values_list : list text)
  : outcome (list (Z * nat * list ascii) * list text) :=
  match heap with
  | (key, index, f) :: heap' =>
      if bool_decide (key = current_key) then
        match fuel with
        | O => OutOfFuel
        | S fuel' =>
            '(line, f1) ← file_next f;
            let values_list := values_list ++ Py.split line in
            match file_next f1 with
            | Ok (line', f2) =>
                key' ← int_of_line line';
                pop_equal_keys fuel' current_key
                  (heappush heap' (key', index, f2)) values_list
            | Raise StopIteration =>
                pop_equal_keys fuel' current_key heap' values_list
            | Raise e => Raise e
            | OutOfFuel => OutOfFuel
            end
        end
      else Ok (heap, values_list)
  | [] => Ok (heap, values_list)
  end.

Definition MergeFileIterator_next (it : MergeFileIterator)
  : outcome ((Z * list text) * MergeFileIterator) :=
  match _heap it with
  | [] => Raise StopIteration
  | (current_key, _, _) :: _ =>
      '(heap, values_list) ←
        pop_equal_keys (S (heap_size (_heap it))) current_key (_heap it) [];
      Ok ((current_key, values_list), {| _heap := heap |})
  end.

#[global] Instance MergeFileIterator_iterator
  : PyIterator MergeFileIterator (Z * list (list ascii)) := {|
  iter_next := MergeFileIterator_next;
  iter_size it := heap_size (_heap it)
|}.

(** [sorted(hashmap.keys())] *)
Definition sorted_keys {A} (hashmap : gmap Z A) : list Z :=
  merge_sort Z.le (map_to_list hashmap).*1.

Record KeyListIteratorFromMemory : Type := {
  _hashmap : gmap Z (list (list ascii));
  _iter : list Z;
  _remaining_elements : Z
}.

Definition KeyListIteratorFromMemory_init (hashmap : gmap Z (list (list ascii)))
  : KeyListIteratorFromMemory :=
  let sorted_keys := sorted_keys hashmap in
  {| _hashmap := hashmap;
     _iter := sorted_keys;
     _remaining_elements := Z.of_nat (length sorted_keys) |}.

Definition KeyListIteratorFromMemory_hasNext (it : KeyListIteratorFromMemory) : bool :=
  bool_decide (_remaining_elements it > 0).

Definition KeyListIteratorFromMemory_next (it : KeyListIteratorFromMemory)
  : outcome ((Z * list text) * KeyListIteratorFromMemory) :=
  match _iter it with
  | [] => Raise StopIteration
  | key :: rest =>
      Ok ((key, _hashmap it !!! key),
          {| _hashmap := _hashmap it;
             _iter := rest;
             _remaining_elements := _remaining_elements it - 1 |})
  end.

Record KeyListIteratorFromDisk : Type := {
  _merge_file_iterator : MergeFileIterator
}.

Definition KeyListIteratorFromDisk_init (file_list : list fname)
    (d : option (gmap fname (list ascii))) : outcome KeyListIteratorFromDisk :=
  it ← MergeFileIterator_init file_list d;
  Ok {| _merge_file_iterator := it |}.

Definition KeyListIteratorFromDisk_hasNext (it : KeyListIteratorFromDisk) : bool :=
  MergeFileIterator_hasNext (_merge_file_iterator it).

Definition KeyListIteratorFromDisk_next (it : KeyListIteratorFromDisk)
  : M ((Z * list text) * KeyListIteratorFromDisk) :=
  '(result, mit) ← lift (MergeFileIterator_next (_merge_file_iterator it));
  let it' := {| _merge_file_iterator := mit |} in
  (if negb (KeyListIteratorFromDisk_hasNext it') then shutil_rmtree else mret tt);;
  mret (result, it').

(** What [groupBy] hands back. *)
Inductive result_iterator : Type :=
  | FromMemory (it : KeyListIteratorFromMemory)
  | FromDisk (it : KeyListIteratorFromDisk).

Definition hasNext (it : result_iterator) : bool :=
  match it with
  | FromMemory it => KeyListIteratorFromMemory_hasNext it
  | FromDisk it => KeyListIteratorFromDisk_hasNext it
  end.

Definition next (it : result_iterator) : M ((Z * list text) * result_iterator) :=
  match it with
  | FromMemory it =>
      '(r, it') ← lift (KeyListIteratorFromMemory_next it); mret (r, FromMemory it')
  | FromDisk it =>
      '(r, it') ← KeyListIteratorFromDisk_next it; mret (r, FromDisk it')
  end.

Definition result_size (it : result_iterator) : nat :=
  match it with
  | FromMemory it => length (_iter it)
  | FromDisk it => heap_size (_heap (_merge_file_iterator it))
  end.

(** The consumer's loop [while it.hasNext(): out.append(it.next())]. *)
Fixpoint drain_loop (fuel : nat) (it : result_iterator) (out : list (Z * list text))
  : M (list (Z * list text) * result_iterator) :=
  if hasNext it then
    match fuel with
    | O => lift OutOfFuel
    | S fuel' =>
        '(r, it') ← next it;
        drain_loop fuel' it' (out ++ [r])
    end
  else mret (out, it).

Definition drain (it : result_iterator) : M (list (Z * list text) * result_iterator) :=
  drain_loop (S (result_size it)) it [].

(* ================================================================== *)
(** ** groupby.py *)
(* ================================================================== *)

(** [GroupByStatement.__init__], an absent argument taking its default. *)
Definition GroupByStatement_init (max_num_files max_hashmap_entries max_memory : option Z)
  : GroupByStatement :=
  {| _num_files := 0;
     _max_num_files := default 100 max_num_files;
     _max_hashmap_entries := default 1000000 max_hashmap_entries;
     _max_memory := default (-1) max_memory;
     spills := 0;
     num_merge_stages := 0;
     total_num_entries := 0 |}.

Definition set_num_files (n : Z) (g : GroupByStatement) : GroupByStatement :=
  {| _num_files := n;
     _max_num_files := _max_num_files g;
     _max_hashmap_entries := _max_hashmap_entries g;
     _max_memory := _max_memory g;
     spills := spills g;
     num_merge_stages := num_merge_stages g;
     total_num_entries := total_num_entries g |}.

Definition set_limits (max_hashmap_entries max_num_files : Z) (g : GroupByStatement)
  : GroupByStatement :=
  {| _num_files := _num_files g;
     _max_num_files := max_num_files;
     _max_hashmap_entries := max_hashmap_entries;
     _max_memory := _max_memory g;
     spills := spills g;
     num_merge_stages := num_merge_stages g;
     total_num_entries := total_num_entries g |}.

Definition set_spills (n : Z) (g : GroupByStatement) : GroupByStatement :=
  {| _num_files := _num_files g;
     _max_num_files := _max_num_files g;
     _max_hashmap_entries := _max_hashmap_entries g;
     _max_memory := _max_memory g;
     spills := n;
     num_merge_stages := num_merge_stages g;
     total_num_entries := total_num_entries g |}.

Definition set_num_merge_stages (n : Z) (g : GroupByStatement) : GroupByStatement :=
  {| _num_files := _num_files g;
     _max_num_files := _max_num_files g;
     _max_hashmap_entries := _max_hashmap_entries g;
     _max_memory := _max_memory g;
     spills := spills g;
     num_merge_stages := n;
     total_num_entries := total_num_entries g |}.

Definition set_total_num_entries (n : Z) (g : GroupByStatement) : GroupByStatement :=
  {| _num_files := _num_files g;
     _max_num_files := _max_num_files g;
     _max_hashmap_entries := _max_hashmap_entries g;
     _max_memory := _max_memory g;
     spills := spills g;
     num_merge_stages := num_merge_stages g;
     total_num_entries := n |}.

Definition update_self (f : GroupByStatement -> GroupByStatement) : M unit :=
  g ← get_self; set_self (f g).

Definition _get_dump_filename (index : Z) : fname := dump_ index.
Definition _get_merge_filename : fname := _merge.

(** [range(start, stop)] and [range(0, stop, step)] for a positive step,
    the only one the merge loop lets through. *)
Definition py_range (start stop : Z) : list Z := seqZ start (stop - start).

Definition py_range_step (stop step : Z) : list Z :=
  if bool_decide (0 < step)
  then (fun j => j * step) <$> seqZ 0 ((stop + step - 1) `div` step)
  else [].

Section engine.
Context {V : Type} {V_str : PyStr V} {Z_size : GetSizeOf Z} {V_size : GetSizeOf V}.

(** The body of the [for] loop of [write_key_values_to_file]. *)
Fixpoint write_loop {I W} `{PyIterator I (Z * list W)} `{PyStr W}
    (fuel : nat) (key_values_list : I) (f : fname) : M unit :=
  match fuel with
  | O => lift OutOfFuel
  | S fuel' =>
      match iter_next key_values_list with
      | Ok ((key, values), rest) =>
          file_write f (py_str key ++ [Py.LF]);;
          file_write f (Py.join [Py.SP] (py_str <$> values) ++ [Py.LF]);;
          write_loop fuel' rest f
      | Raise StopIteration => mret tt
      | Raise e => raise e
      | OutOfFuel => lift OutOfFuel
      end
  end.

Definition write_key_values_to_file {I W} `{PyIterator I (Z * list W)} `{PyStr W}
    (key_values_list : I) (filename : fname) : M unit :=
  open_write filename;;
  write_loop (S (iter_size key_values_list)) key_values_list filename.

Fixpoint remove_all (filename_list : list fname) : M unit :=
  match filename_list with
  | [] => mret tt
  | filename :: rest => os_remove filename;; remove_all rest
  end.

(** One turn of [for index in range(0, self._num_files, self._max_num_files)]. *)
Definition merge_group (index current_merge_file : Z) : M unit :=
  g ← get_self;
  let filename_list :=
    _get_dump_filename <$>
      py_range index (Z.min (_num_files g) (index + _max_num_files g)) in
  let merge_filename := _get_merge_filename in
  let dump_filename := _get_dump_filename current_merge_file in
  match filename_list with
  | [only] => shutil_move only dump_filename
  | _ =>
      d ← get_disk;
      it ← lift (MergeFileIterator_init filename_list d);
      write_key_values_to_file it merge_filename;;
      remove_all filename_list;;
      shutil_move merge_filename dump_filename
  end.

Fixpoint merge_pass (indices : list Z) (current_merge_file : Z) : M Z :=
  match indices with
  | [] => mret current_merge_file
  | index :: rest =>
      merge_group index current_merge_file;;
      merge_pass rest (current_merge_file + 1)
  end.

Fixpoint _merge_dump_files (fuel : nat) : M unit :=
  g ← get_self;
  if bool_decide (_num_files g > _max_num_files g) then
    match fuel with
    | O => lift OutOfFuel
    | S fuel' =>
        if bool_decide (_max_num_files g < 2) then
          shutil_rmtree;;
          raise TypeError
        else
          current_merge_file ←
            merge_pass (py_range_step (_num_files g) (_max_num_files g)) 0;
          update_self (set_num_files current_merge_file);;
          update_self (fun g => set_num_merge_stages (num_merge_stages g + 1) g);;
          _merge_dump_files fuel'
    end
  else mret tt.

(** Returns the cleared hashmap. *)
Definition _dump_hashmap_to_disk (hashmap : gmap Z (list (list ascii))) (filename : fname)
  : M (gmap Z (list (list ascii))) :=
  write_key_values_to_file
    ((fun key => (key, hashmap !!! key)) <$> sorted_keys hashmap) filename;;
  update_self (fun g => set_num_files (_num_files g + 1) g);;
  update_self (fun g => set_spills (spills g + 1) g);;
  mret ∅.

(** The spill check at the head of the loop body. *)
Definition spill_if_full (current_num_entries : Z)
    (current_hashmap : gmap Z (list (list ascii)))
  : M (Z * gmap Z (list (list ascii))) :=
  g ← get_self;
  if bool_decide (current_num_entries >= _max_hashmap_entries g) then
    cleared ← _dump_hashmap_to_disk current_hashmap
                (_get_dump_filename (_num_files g));
    mret (0, cleared)
  else mret (current_num_entries, current_hashmap).

(** The [max_memory] block of the loop body. *)
Definition auto_tune (key : Z) (value : V) : M unit :=
  g ← get_self;
  if bool_decide (_max_memory g > 0 /\ total_num_entries g = 1) then
    let kv_size := getsizeof key + getsizeof value in
    if bool_decide (kv_size = 0) then raise ZeroDivisionError
    else
      update_self (set_limits (_max_memory g `div` kv_size)
                     (Z.min 1000 (_max_memory g `div` kv_size)))
  else mret tt.

(** The [while input_iterator.hasNext()] loop, on the pairs still to come. *)
Fixpoint chunk_loop (input_iterator : list (Z * V)) (current_num_entries : Z)
    (current_hashmap : gmap Z (list (list ascii)))
  : M (Z * gmap Z (list (list ascii))) :=
  match input_iterator with
  | [] => mret (current_num_entries, current_hashmap)
  | (key, value) :: rest =>
      '(current_num_entries, current_hashmap) ←
        spill_if_full current_num_entries current_hashmap;
      update_self (fun g => set_total_num_entries (total_num_entries g + 1) g);;
      auto_tune key value;;
      chunk_loop rest (current_num_entries + 1)
        (<[key := (current_hashmap !!! key) ++ [py_str value]]> current_hashmap)
  end.

(** [Some hashmap] when the whole input fits in memory, [None] after
    spilling. *)
Definition _chunk_input_into_dump_files (input_iterator : list (Z * V))
  : M (option (gmap Z (list (list ascii)))) :=
  '(current_num_entries, current_hashmap) ← chunk_loop input_iterator 0 ∅;
  g ← get_self;
  if bool_decide (_num_files g = 0) then mret (Some current_hashmap)
  else
    (if bool_decide (current_num_entries <> 0) then
       _dump_hashmap_to_disk current_hashmap (_get_dump_filename (_num_files g));;
       mret tt
     else mret tt);;
    mret None.

Definition reset_statistics (g : GroupByStatement) : GroupByStatement :=
  set_num_merge_stages 0 (set_spills 0 (set_total_num_entries 0 (set_num_files 0 g))).

(** [GroupByStatement.groupBy] *)
Definition GroupByStatement_groupBy (input_iterator : list (Z * V)) : M result_iterator :=
  update_self reset_statistics;;
  match input_iterator with
  | [] => mret (FromMemory (KeyListIteratorFromMemory_init ∅))
  | _ =>
      os_mkdir;;
      result ← _chunk_input_into_dump_files input_iterator;
      match result with
      | Some hashmap =>
          shutil_rmtree;;
          mret (FromMemory (KeyListIteratorFromMemory_init hashmap))
      | None =>
          g ← get_self;
          _merge_dump_files (Z.to_nat (_num_files g));;
          g ← get_self;
          d ← get_disk;
          it ← lift (KeyListIteratorFromDisk_init
                       (_get_dump_filename <$> py_range 0 (_num_files g)) d);
          mret (FromDisk it)
      end
  end.

(** The module-level [groupBy]: builds a statement from its own
    defaults and runs it on a directory that does not exist yet. *)
Definition groupBy (input_iterator : list (Z * V))
    (max_num_files max_hashmap_entries max_memory : option Z)
  : outcome result_iterator * world :=
  let g := GroupByStatement_init
             (Some (default 1000 max_num_files))
             (Some (default 10000000 max_hashmap_entries))
             (Some (default (-1) max_memory)) in
  GroupByStatement_groupBy input_iterator {| self := g; disk := None |}.

End engine.

(* ================================================================== *)
(** ** Reference semantics and representation predicates *)
(* ================================================================== *)

(** A value string without whitespace (section 3 of the specification). *)
Definition no_space (w : text) : Prop := Forall (fun c => Py.is_space c = false) w.

Definition no_newline (l : text) : Prop :=
  Forall (fun c => c <> Py.LF /\ c <> Py.CR) l.

(** What [split] recovers of a joined list: its non-empty words. *)
Definition squeeze (vs : list text) : list text := filter (fun w => w <> []) vs.

Definition sq_run (r : list (Z * list text)) : list (Z * list text) :=
  (fun e => (e.1, squeeze e.2)) <$> r.

(** The two lines of one entry of a run, and the text of a whole run. *)
Definition values_line (vs : list text) : text := Py.join [Py.SP] vs ++ [Py.LF].

Definition entry_text (e : Z * list text) : text :=
  Py.str_int e.1 ++ [Py.LF] ++ values_line e.2.

Definition file_text (r : list (Z * list text)) : text :=
  concat (entry_text <$> r).

(** The list [[(key, hashmap[key]) for key in sorted(hashmap.keys())]]. *)
Definition run_of_map (hashmap : gmap Z (list (list ascii))) : list (Z * list text) :=
  (fun key => (key, hashmap !!! key)) <$> sorted_keys hashmap.

(** [compute_hashmap] of tests.py: the reference group-by. *)
Definition hashmap_of {V} `{PyStr V} (input : list (Z * V)) : gmap Z (list (list ascii)) :=
  foldl (fun hashmap kv => <[kv.1 := (hashmap !!! kv.1) ++ [py_str kv.2]]> hashmap) ∅ input.

Definition compute_hashmap {V} `{PyStr V} (input : list (Z * V)) : list (Z * list text) :=
  run_of_map (hashmap_of input).

(** The values of key [k] in the input, in input order. *)
Definition values_of {V} `{PyStr V} (k : Z) (input : list (Z * V)) : list text :=
  (fun kv => py_str kv.2) <$> filter (fun kv => kv.1 = k) input.

(** The pairs of the input with each value rendered, and the pairs of a
    grouped output, flattened. *)
Definition rendered {V} `{PyStr V} (input : list (Z * V)) : list (Z * list ascii) :=
  (fun kv => (kv.1, py_str kv.2)) <$> input.

Definition flatten (out : list (Z * list text)) : list (Z * list ascii) :=
  out ≫= (fun e => (fun v => (e.1, v)) <$> e.2).

(** Key-wise concatenation of multimaps, in list order. *)
Definition mappend (a b : gmap Z (list (list ascii))) : gmap Z (list (list ascii)) :=
  union_with (fun x y => Some (x ++ y)) a b.

Definition munion (ms : list (gmap Z (list (list ascii)))) : gmap Z (list (list ascii)) :=
  foldr mappend ∅ ms.

Definition values_ok (r : list (Z * list text)) : Prop :=
  Forall (fun e => Forall no_space e.2) r.

(** The text [t] is a run that reads back as the multimap [m]. *)
Definition stored (t : text) (m : gmap Z (list (list ascii))) : Prop :=
  exists r, t = file_text r /\ values_ok r /\ sq_run r = run_of_map (squeeze <$> m).

(** Items that an iterator delivers to a [for] loop before it raises
    [StopIteration]. *)
Inductive yields {I A} `{PyIterator I A} : I -> list A -> Prop :=
  | yields_stop it : iter_next it = Raise StopIteration -> yields it []
  | yields_item it x it' l :
      iter_next it = Ok (x, it') -> yields it' l -> yields it (x :: l).

(** *** The state of a K-way merge

    [rems] lists, per input file, the entries not yet delivered.  The heap
    holds, for each file with entries left, its next key, its index and
    the text that follows that key's line. *)

Definition body_text (vs : list text) (rest : list (Z * list text)) : text :=
  values_line vs ++ file_text rest.

Definition entry_of (i : nat) (r : list (Z * list text)) : list (Z * nat * list ascii) :=
  match r with
  | [] => []
  | (k, vs) :: rest => [(k, i, body_text vs rest)]
  end.

Fixpoint entries_from (i : nat) (rems : list (list (Z * list text)))
  : list (Z * nat * list ascii) :=
  match rems with
  | [] => []
  | r :: rems' => entry_of i r ++ entries_from (S i) rems'
  end.

Definition heap_rep (heap : list (Z * nat * list ascii))
    (rems : list (list (Z * list text))) : Prop :=
  StronglySorted entry_lt heap /\ heap ≡ₚ entries_from 0 rems.

Definition run_ok (r : list (Z * list text)) : Prop :=
  StronglySorted Z.lt r.*1 /\ values_ok r.

Definition keys_ge (k : Z) (r : list (Z * list text)) : Prop :=
  Forall (fun e => k <= e.1) r.

Definition keys_gt (k : Z) (r : list (Z * list text)) : Prop :=
  Forall (fun e => k < e.1) r.

(** What the file contributes to key [k] when [k] is its next key, and
    what is left of it afterwards. *)
Definition head_opt (k : Z) (r : list (Z * list text)) : option (list text) :=
  match r with
  | (k', vs) :: _ => if decide (k' = k) then Some (squeeze vs) else None
  | [] => None
  end.

Definition head_values (k : Z) (r : list (Z * list text)) : list text :=
  default [] (head_opt k r).

Definition drop_head (k : Z) (r : list (Z * list text)) : list (Z * list text) :=
  match r with
  | (k', vs) :: rest => if decide (k' = k) then rest else r
  | [] => []
  end.

(** The multimap a list of runs reads back as. *)
Definition map_of_runs (rems : list (list (Z * list text))) : gmap Z (list (list ascii)) :=
  munion ((fun r => list_to_map (sq_run r)) <$> rems).

(** The items a merge iterator delivers, one [__next__] at a time, until
    its heap is empty. *)
Inductive delivers : MergeFileIterator -> list (Z * list text) -> Prop :=
  | delivers_end : delivers {| _heap := [] |} []
  | delivers_item it x it' l :
      _heap it <> [] ->
      MergeFileIterator_next it = Ok (x, it') ->
      delivers it' l ->
      delivers it (x :: l).

(** *** What the dump files hold *)

Definition map_ok (m : gmap Z (list (list ascii))) : Prop :=
  map_Forall (fun _ vs => Forall no_space vs) m.

(** File [dump_index] is a run that reads back as the non-empty
    multimap [m]. *)
Definition good_file (files : gmap fname (list ascii)) (index : Z)
    (m : gmap Z (list (list ascii))) : Prop :=
  m <> ∅ /\ map_ok m /\ exists t, files !! dump_ index = Some t /\ stored t m.

(** Files [dump_base], [dump_(base+1)], ... hold the multimaps [ms], in
    order. *)
Definition runs_at (files : gmap fname (list ascii)) (base : Z)
    (ms : list (gmap Z (list (list ascii)))) : Prop :=
  forall (i : nat) m, ms !! i = Some m -> good_file files (base + Z.of_nat i) m.

(** *** The accumulator *)

(** An input pair whose value renders without whitespace. *)
Definition value_ok {V} `{PyStr V} (kv : Z * V) : Prop := no_space (py_str kv.2).

(** The number of individual values held in a multimap. *)
Definition entry_count (hashmap : gmap Z (list (list ascii))) : nat :=
  map_fold (fun _ vs n => (length vs + n)%nat) 0%nat hashmap.

(** The fan-in in effect once the first pair has been seen. *)
Definition tuned_max_num_files {V} `{GetSizeOf Z} `{GetSizeOf V}
    (g : GroupByStatement) (input : list (Z * V)) : Z :=
  match input with
  | kv :: _ =>
      if bool_decide (_max_memory g > 0 /\ total_num_entries g = 0)
      then Z.min 1000 (_max_memory g `div` (getsizeof kv.1 + getsizeof kv.2))
      else _max_num_files g
  | [] => _max_num_files g
  end.

(** The spilled chunks are on disk as [dump_0], [dump_1], ... *)
Definition acc_inv {V} `{PyStr V} (g : GroupByStatement)
    (files : gmap fname (list ascii)) (chunks : list (list (Z * V))) : Prop :=
  _num_files g = Z.of_nat (length chunks) /\
  runs_at files 0 (hashmap_of <$> chunks).

(** *** Consuming a disk iterator step by step *)

(** [n] calls of [next()] on the disk iterator. *)
Fixpoint advance (n : nat) (it : KeyListIteratorFromDisk) : M KeyListIteratorFromDisk :=
  match n with
  | O => mret it
  | S n' =>
      '(_, it') ← KeyListIteratorFromDisk_next it;
      advance n' it'
  end.

(** *** A sample host

    Sizes in bytes that one interpreter could report; they only feed the
    [max_memory] heuristic. *)
Definition host_sizeof_int : GetSizeOf Z :=
  {| getsizeof := fun _ => 28; getsizeof_pos := fun _ => eq_refl |}.

Definition host_sizeof_str : GetSizeOf (list ascii) :=
  {| getsizeof := fun _ => 50; getsizeof_pos := fun _ => eq_refl |}.

(** *** Sample runs

    A statement with a budget of one value per chunk and a fan-in of two,
    an input that makes it spill, and three runs of one entry each as
    [groupBy] leaves them on disk before merging. *)
Definition sample_statement : GroupByStatement :=
  GroupByStatement_init (Some 2) (Some 1) None.

Definition sample_input : list (Z * Z) := [(2, 5); (1, 7); (2, 6)].

Definition sample_maps : list (gmap Z (list (list ascii))) :=
  [ {[ 1 := [Py.str_int 0] ]}; {[ 2 := [Py.str_int 0] ]}; {[ 3 := [Py.str_int 0] ]} ].

Definition sample_files : gmap fname (list ascii) :=
  <[dump_ 2 := file_text [(3, [Py.str_int 0])]]>
    (<[dump_ 1 := file_text [(2, [Py.str_int 0])]]>
       (<[dump_ 0 := file_text [(1, [Py.str_int 0])]]> ∅)).

(** *** Observations used in the statements *)

Section observations.
Context {V : Type} {V_str : PyStr V} {Z_size : GetSizeOf Z} {V_size : GetSizeOf V}.

(** What a consumer collects from [groupBy] on a fresh statement [g]:
    [None] when [groupBy] or the consumer's loop raises. *)
Definition emitted (g : GroupByStatement) (input : list (Z * V))
  : option (list (Z * list text)) :=
  match GroupByStatement_groupBy input {| self := g; disk := None |} with
  | (Ok it, w) =>
      match drain it w with
      | (Ok (out, _), _) => Some out
      | _ => None
      end
  | _ => None
  end.

(** The engine object and the request directory as [groupBy] leaves
    them. *)
Definition after_groupBy (g : GroupByStatement) (input : list (Z * V)) : world :=
  (GroupByStatement_groupBy input {| self := g; disk := None |}).2.

(** The state of the engine after the [max_memory] block has seen the
    pair [(key, value)]. *)
Definition tuned (g : GroupByStatement) (key : Z) (value : V) : GroupByStatement :=
  if bool_decide (_max_memory g > 0 /\ total_num_entries g = 1) then
    set_limits (_max_memory g `div` (getsizeof key + getsizeof value))
      (Z.min 1000 (_max_memory g `div` (getsizeof key + getsizeof value))) g
  else g.

(** After the accumulator has consumed [input]: how many values the
    hashmap holds, and the value of [max_hashmap_entries] then. *)
Definition held (g : GroupByStatement) (input : list (Z * V)) : option (nat * Z) :=
  match chunk_loop input 0 ∅ {| self := g; disk := Some ∅ |} with
  | (Ok (_, hashmap), w) => Some (entry_count hashmap, _max_hashmap_entries (self w))
  | _ => None
  end.

End observations.

(** [list(it)] for a merge iterator. *)
Fixpoint collect (fuel : nat) (it : MergeFileIterator) : outcome (list (Z * list text)) :=
  match fuel with
  | O => OutOfFuel
  | S fuel' =>
      match MergeFileIterator_next it with
      | Ok (x, it') => l ← collect fuel' it'; Ok (x :: l)
      | Raise StopIteration => Ok []
      | Raise e => Raise e
      | OutOfFuel => OutOfFuel
      end
  end.

(** A run written with [write_key_values_to_file] and read back through
    a merge iterator over that single file. *)
Definition read_back (key_values_list : list (Z * list text))
  : outcome (list (Z * list text)) :=
  match write_key_values_to_file key_values_list _merge
          {| self := GroupByStatement_init None None None; disk := Some ∅ |} with
  | (Ok _, w) =>
      it ← MergeFileIterator_init [_merge] (disk w);
      collect (S (heap_size (_heap it))) it
  | (Raise e, _) => Raise e
  | (OutOfFuel, _) => OutOfFuel
  end.

(* ================================================================== *)
(** ** test/test_utils.py *)
(* ================================================================== *)

(** [a % b] on two [int]s: the sign of the divisor, [ZeroDivisionError]
    on zero. *)
Definition py_mod (a b : Z) : outcome Z :=
  if bool_decide (b = 0) then Raise ZeroDivisionError else Ok (a `mod` b).

(** What the engine uses of a [JavaIterator]: [hasNext()] and [next()].
    [java_next] also returns the object as the call leaves it, whether it
    returns or raises. *)
Class JavaIterator (I A : Type) := {
  java_hasNext : I -> bool;
  java_next : I -> outcome A * I
}.

Module IncrementalKeyValueIterator.

Record t : Type := {
  nr_pairs : Z;
  key_range : Z;
  value_range : Z;
  current_key : Z;
  current_value : Z;
  key_jump : Z;
  value_jump : Z
}.

(** [__init__], an absent jump taking its default. *)
Definition init (nr_pairs key_range value_range : Z) (key_jump value_jump : option Z) : t :=
  {| nr_pairs := nr_pairs;
     key_range := key_range;
     value_range := value_range;
     current_key := 0;
     current_value := 0;
     key_jump := default 1 key_jump;
     value_jump := default 1 value_jump |}.

Definition hasNext (self : t) : bool := bool_decide (nr_pairs self > 0).

Definition set_current_key (k : Z) (self : t) : t :=
  {| nr_pairs := nr_pairs self;
     key_range := key_range self;
     value_range := value_range self;
     current_key := k;
     current_value := current_value self;
     key_jump := key_jump self;
     value_jump := value_jump self |}.

Definition set_current_value (v : Z) (self : t) : t :=
  {| nr_pairs := nr_pairs self;
     key_range := key_range self;
     value_range := value_range self;
     current_key := current_key self;
     current_value := v;
     key_jump := key_jump self;
     value_jump := value_jump self |}.

Definition set_nr_pairs (n : Z) (self : t) : t :=
  {| nr_pairs := n;
     key_range := key_range self;
     value_range := value_range self;
     current_key := current_key self;
     current_value := current_value self;
     key_jump := key_jump self;
     value_jump := value_jump self |}.

(** [__next__]: the two assignments, then the decrement. *)
Definition next (self : t) : outcome (Z * Z) * t :=
  if hasNext self then
    let key := current_key self in
    let value := current_value self in
    match py_mod (current_key self + key_jump self) (key_range self) with
    | Ok k' =>
        let self1 := set_current_key k' self in
        match py_mod (current_value self1 + value_jump self1) (value_range self1) with
        | Ok v' =>
            let self2 := set_current_value v' self1 in
            (Ok (key, value), set_nr_pairs (nr_pairs self2 - 1) self2)
        | Raise e => (Raise e, self1)
        | OutOfFuel => (OutOfFuel, self1)
        end
    | Raise e => (Raise e, self)
    | OutOfFuel => (OutOfFuel, self)
    end
  else (Raise StopIteration, self).

End IncrementalKeyValueIterator.

#[global] Instance IncrementalKeyValueIterator_java
  : JavaIterator IncrementalKeyValueIterator.t (Z * Z) := {|
  java_hasNext := IncrementalKeyValueIterator.hasNext;
  java_next := IncrementalKeyValueIterator.next
|}.

Module ListIterator.

Record t (A : Type) : Type := {
  nr_pairs : Z;
  _iter : list A
}.
Arguments nr_pairs {A} _.
Arguments _iter {A} _.

Definition init {A} (l : list A) : t A :=
  {| nr_pairs := Z.of_nat (length l); _iter := l |}.

Definition hasNext {A} (self : t A) : bool := bool_decide (nr_pairs self > 0).

(** [__next__]: the decrement comes first, then [next(self._iter)]. *)
Definition next {A} (self : t A) : outcome A * t A :=
  match _iter self with
  | x :: rest => (Ok x, {| nr_pairs := nr_pairs self - 1; _iter := rest |})
  | [] => (Raise StopIteration, {| nr_pairs := nr_pairs self - 1; _iter := [] |})
  end.

End ListIterator.

#[global] Instance ListIterator_java {A} : JavaIterator (ListIterator.t A) A := {|
  java_hasNext := ListIterator.hasNext;
  java_next := ListIterator.next
|}.

(** The items that the loop [while it.hasNext(): ... next(it) ...] is
    handed, and the iterator as the loop leaves it. *)
Fixpoint pull {I A} `{JavaIterator I A} (fuel : nat) (it : I) : outcome (list A) * I :=
  if java_hasNext it then
    match fuel with
    | O => (OutOfFuel, it)
    | S fuel' =>
        match java_next it with
        | (Ok x, it') =>
            match pull fuel' it' with
            | (Ok l, it'') => (Ok (x :: l), it'')
            | (Raise e, it'') => (Raise e, it'')
            | (OutOfFuel, it'') => (OutOfFuel, it'')
            end
        | (Raise e, it') => (Raise e, it')
        | (OutOfFuel, it') => (OutOfFuel, it')
        end
    end
  else (Ok [], it).

(** The pairs of an [IncrementalKeyValueIterator]: the [i]-th is
    [(i * key_jump % key_range, i * value_jump % value_range)]. *)
Definition incremental_pairs (nr_pairs key_range value_range key_jump value_jump : Z)
  : list (Z * Z) :=
  (fun i => ((i * key_jump) `mod` key_range, (i * value_jump) `mod` value_range))
    <$> seqZ 0 nr_pairs.

(** An [IncrementalKeyValueIterator] after [i] calls of [next]. *)
Definition incremental_state (nr_pairs key_range value_range key_jump value_jump i : Z)
  : IncrementalKeyValueIterator.t :=
  {| IncrementalKeyValueIterator.nr_pairs := nr_pairs - i;
     IncrementalKeyValueIterator.key_range := key_range;
     IncrementalKeyValueIterator.value_range := value_range;
     IncrementalKeyValueIterator.current_key := (i * key_jump) `mod` key_range;
     IncrementalKeyValueIterator.current_value := (i * value_jump) `mod` value_range;
     IncrementalKeyValueIterator.key_jump := key_jump;
     IncrementalKeyValueIterator.value_jump := value_jump |}.

(** [k] further calls of [next] on a [ListIterator]; [None] when one of
    them returns instead of raising [StopIteration]. *)
Fixpoint overrun {A} (k : nat) (it : ListIterator.t A) : option (ListIterator.t A) :=
  match k with
  | O => Some it
  | S k' =>
      match ListIterator.next it with
      | (Raise StopIteration, it') => overrun k' it'
      | _ => None
      end
  end.

(* ================================================================== *)
(** ** groupby.py on a [JavaIterator] *)
(* ================================================================== *)

Section engine_on_iterators.
Context {V : Type} {V_str : PyStr V} {Z_size : GetSizeOf Z} {V_size : GetSizeOf V}.
Context {I : Type} {I_java : JavaIterator I (Z * V)}.

(** The loop [while input_iterator.hasNext()] of
    [_chunk_input_into_dump_files], on the iterator itself. *)
Fixpoint chunk_loop_on (fuel : nat) (input_iterator : I) (current_num_entries : Z)
    (current_hashmap : gmap Z (list (list ascii)))
  : M (Z * gmap Z (list (list ascii))) :=
  if java_hasNext input_iterator then
    match fuel with
    | O => lift OutOfFuel
    | S fuel' =>
        '(current_num_entries, current_hashmap) ←
          spill_if_full current_num_entries current_hashmap;
        match java_next input_iterator with
        | (Ok (key, value), input_iterator) =>
            update_self (fun g => set_total_num_entries (total_num_entries g + 1) g);;
            auto_tune key value;;
            chunk_loop_on fuel' input_iterator (current_num_entries + 1)
              (<[key := (current_hashmap !!! key) ++ [py_str value]]> current_hashmap)
        | (Raise e, _) => raise e
        | (OutOfFuel, _) => lift OutOfFuel
        end
    end
  else mret (current_num_entries, current_hashmap).

Definition _chunk_input_into_dump_files_on (fuel : nat) (input_iterator : I)
  : M (option (gmap Z (list (list ascii)))) :=
  '(current_num_entries, current_hashmap) ← chunk_loop_on fuel input_iterator 0 ∅;
  g ← get_self;
  if bool_decide (_num_files g = 0) then mret (Some current_hashmap)
  else
    (if bool_decide (current_num_entries <> 0) then
       _dump_hashmap_to_disk current_hashmap (_get_dump_filename (_num_files g));;
       mret tt
     else mret tt);;
    mret None.

(** [GroupByStatement.groupBy] on the iterator itself. *)
Definition GroupByStatement_groupBy_on (fuel : nat) (input_iterator : I)
  : M result_iterator :=
  update_self reset_statistics;;
  if negb (java_hasNext input_iterator) then
    mret (FromMemory (KeyListIteratorFromMemory_init ∅))
  else
    os_mkdir;;
    result ← _chunk_input_into_dump_files_on fuel input_iterator;
    match result with
    | Some hashmap =>
        shutil_rmtree;;
        mret (FromMemory (KeyListIteratorFromMemory_init hashmap))
    | None =>
        g ← get_self;
        _merge_dump_files (Z.to_nat (_num_files g));;
        g ← get_self;
        d ← get_disk;
        it ← lift (KeyListIteratorFromDisk_init
                     (_get_dump_filename <$> py_range 0 (_num_files g)) d);
        mret (FromDisk it)
    end.

End engine_on_iterators.

(* ================================================================== *)
(** ** test/tests.py and other consumers *)
(* ================================================================== *)

(** The verdict of a test's assertions. *)
Inductive verdict : Set :=
  | Passed
  | AssertionError.

(** The loop of [compare_outputs] and its final assertion. *)
Fixpoint compare_loop (fuel : nat) (result_iterator : result_iterator)
    (expected_output_iterator : list (Z * list text)) (entries_seen : Z)
    (expected_len : Z) : M verdict :=
  if hasNext result_iterator then
    match fuel with
    | O => lift OutOfFuel
    | S fuel' =>
        '(r, result_iterator) ← next result_iterator;
        match expected_output_iterator with
        | [] => raise StopIteration
        | e :: expected_output_iterator =>
            if decide (r = e)
            then compare_loop fuel' result_iterator expected_output_iterator
                   (entries_seen + 1) expected_len
            else mret AssertionError
        end
    end
  else mret (if bool_decide (entries_seen = expected_len) then Passed else AssertionError).

(** [GroupByTests.compare_outputs] *)
Definition compare_outputs {V} `{PyStr V} (data_copy : list (Z * V))
    (result_iterator : result_iterator) : M verdict :=
  let expected_output := compute_hashmap data_copy in
  compare_loop (S (result_size result_iterator)) result_iterator expected_output 0
    (Z.of_nat (length expected_output)).

(** [for item in it: out.append(item)]: [__next__] until it raises
    [StopIteration]. *)
Fixpoint for_each (fuel : nat) (it : result_iterator) : M (list (Z * list text)) :=
  fun w =>
    match fuel with
    | O => (OutOfFuel, w)
    | S fuel' =>
        match next it w with
        | (Ok (r, it'), w') =>
            match for_each fuel' it' w' with
            | (Ok l, w'') => (Ok (r :: l), w'')
            | (Raise e, w'') => (Raise e, w'')
            | (OutOfFuel, w'') => (OutOfFuel, w'')
            end
        | (Raise StopIteration, w') => (Ok [], w')
        | (Raise e, w') => (Raise e, w')
        | (OutOfFuel, w') => (OutOfFuel, w')
        end
    end.

(* ================================================================== *)
(** ** Quantities used in the statements *)
(* ================================================================== *)

(** [ceil(a / b)] for a positive [b]. *)
Definition ceil_div (a b : Z) : Z := (a + b - 1) `div` b.

(** The value of [max_hashmap_entries] in effect once the first pair has
    been seen, and the number of values a chunk then takes. *)
Definition tuned_max_hashmap_entries {V} `{GetSizeOf Z} `{GetSizeOf V}
    (g : GroupByStatement) (input : list (Z * V)) : Z :=
  match input with
  | kv :: _ =>
      if bool_decide (_max_memory g > 0 /\ total_num_entries g = 0)
      then _max_memory g `div` (getsizeof kv.1 + getsizeof kv.2)
      else _max_hashmap_entries g
  | [] => _max_hashmap_entries g
  end.

Definition chunk_size {V} `{GetSizeOf Z} `{GetSizeOf V}
    (g : GroupByStatement) (input : list (Z * V)) : Z :=
  Z.max 1 (tuned_max_hashmap_entries g input).

(** The names [dump_0], ..., [dump_(n-1)]. *)
Definition dump_names (n : Z) : gset fname :=
  list_to_set (dump_ <$> seqZ 0 n).

(** A run of values of any type with each value rendered by [str]. *)
Definition render_run {W} `{PyStr W} (key_values_list : list (Z * list W))
  : list (Z * list text) :=
  (fun e : Z * list W => (e.1, py_str <$> e.2)) <$> key_values_list.

(** The set-up of the merge tests: one run written per file name, in
    order. *)
Fixpoint write_runs (runs : list (list (Z * list text))) (filenames : list fname) : M unit :=
  match runs, filenames with
  | key_values_list :: runs', filename :: filenames' =>
      write_key_values_to_file key_values_list filename;;
      write_runs runs' filenames'
  | _, _ => mret tt
  end.

(** The values a run lists under the key [k]: those of its entry for
    [k], none when [k] is not one of its keys. *)
Definition run_values (k : Z) (r : list (Z * list text)) : list text :=
  concat ((fun e => e.2) <$> filter (fun e => e.1 = k) r).

(** What the first [j] groups of a merge pass over the runs [ms] with
    fan-in [m] produce: group [i] merges the runs [i * m], ...,
    [i * m + m - 1] that exist. *)
Definition merged_groups (m : Z) (ms : list (gmap Z (list (list ascii)))) (j : nat)
  : list (gmap Z (list (list ascii))) :=
  (fun i : nat => munion (take (Z.to_nat m) (drop (i * Z.to_nat m) ms))) <$> seq 0 j.

(* ================================================================== *)
(** * Properties *)
(* ================================================================== *)

(** ** Text *)

Section text_facts.

Lemma not_space_LF_CR c :
  Py.is_space c = false -> c <> Py.LF /\ c <> Py.CR.
Proof. intros Hc; split; intros ->; discriminate Hc. Qed.

Lemma is_space_SP : Py.is_space Py.SP = true.
Proof. reflexivity. Qed.

Lemma is_space_LF : Py.is_space Py.LF = true.
Proof. reflexivity. Qed.

Lemma digit_of_space c d : Py.digit_of c = Some d -> Py.is_space c = false.
Proof.
  unfold Py.digit_of, Py.is_space.
  destruct c as [[] [] [] [] [] [] [] []]; simpl; intros; congruence.
Qed.

Lemma digit_of_not_sign c d :
  Py.digit_of c = Some d -> c <> Py.minus_char /\ c <> Py.plus_char.
Proof. intros Hd; split; intros ->; discriminate Hd. Qed.

(** The digits of a numeral: never whitespace, and they parse back. *)
Lemma str_uint_digits u :
  Forall (fun c => exists d, Py.digit_of c = Some d) (Py.str_uint u).
Proof. induction u; simpl; constructor; eauto. Qed.

Lemma parse_digits_str_uint u b :
  Py.parse_digits b (Py.str_uint u) =
    match u with Nil => if b then Some Nil else None | _ => Some u end.
Proof.
  revert b; induction u; intros b; simpl; try reflexivity;
    rewrite IHu; destruct u; reflexivity.
Qed.

Lemma str_int_cases k :
  exists c s u, Py.str_uint u = c :: s /\
    ((Py.str_int k = Py.str_uint u /\ Z.to_int k = Pos u) \/
     (Py.str_int k = Py.minus_char :: Py.str_uint u /\ Z.to_int k = Neg u)).
Proof.
  unfold Py.str_int.
  assert (Hnn : forall p, exists c s, Py.str_uint (Pos.to_uint p) = c :: s).
  { intros p. pose proof (DecimalPos.Unsigned.to_uint_nonnil p) as Hp.
    destruct (Pos.to_uint p); try congruence; simpl; eauto. }
  destruct k as [|p|p]; simpl.
  - exists (Py.digit_char 0), [], (D0 Nil). split; [reflexivity | left; split; reflexivity].
  - destruct (Hnn p) as (c & s & Hcs). exists c, s, (Pos.to_uint p). eauto.
  - destruct (Hnn p) as (c & s & Hcs). exists c, s, (Pos.to_uint p). eauto.
Qed.

Lemma str_int_no_space k : no_space (Py.str_int k).
Proof.
  destruct (str_int_cases k) as (c & s & u & _ & [[-> _] | [-> _]]).
  - eapply Forall_impl; [apply str_uint_digits |].
    intros x [d Hd]. eapply digit_of_space, Hd.
  - constructor; [reflexivity |].
    eapply Forall_impl; [apply str_uint_digits |].
    intros x [d Hd]. eapply digit_of_space, Hd.
Qed.

Lemma str_int_nonempty k : Py.str_int k <> [].
Proof.
  destruct (str_int_cases k) as (c & s & u & Hu & [[-> _] | [-> _]]);
    [rewrite Hu |]; discriminate.
Qed.

Lemma is_int_space_is_space c : Py.is_int_space c = true -> Py.is_space c = true.
Proof. destruct c as [[] [] [] [] [] [] [] []]; vm_compute; congruence. Qed.

Lemma lstrip_no_space c s : Py.is_space c = false -> Py.skip_int_space (c :: s) = c :: s.
Proof.
  intros Hc; simpl. destruct (Py.is_int_space c) eqn:Hi; [| reflexivity].
  apply is_int_space_is_space in Hi. congruence.
Qed.

Lemma lstrip_id s : no_space s -> s <> [] -> forall t, Py.skip_int_space (s ++ t) = s ++ t.
Proof.
  intros Hs Hne t. destruct s as [|c s]; [done |].
  inversion Hs; subst. apply lstrip_no_space. done.
Qed.

Lemma strip_line s : no_space s -> Py.trim_int_space (s ++ [Py.LF]) = s.
Proof.
  intros Hs. unfold Py.trim_int_space.
  destruct (decide (s = [])) as [-> | Hne]; [reflexivity |].
  rewrite lstrip_id by done. rewrite rev_unit.
  change (Py.skip_int_space (Py.LF :: rev s)) with (Py.skip_int_space (rev s)).
  assert (Hr : no_space (rev s)).
  { apply Forall_rev. exact Hs. }
  assert (Hrne : rev s <> []).
  { intros E. apply (f_equal (@length _)) in E. rewrite length_rev in E.
    destruct s; [done | discriminate]. }
  rewrite <- (app_nil_r (rev s)), lstrip_id, app_nil_r by done.
  apply rev_involutive.
Qed.

(** [int] reads back the key line the writer produced. *)
Lemma parse_digits_nonnil u c s :
  Py.str_uint u = c :: s -> Py.parse_digits false (Py.str_uint u) = Some u.
Proof. intros Hu. rewrite parse_digits_str_uint. destruct u; [discriminate Hu | done ..]. Qed.

Lemma int_str_int k : Py.int (Py.str_int k ++ [Py.LF]) = Some k.
Proof.
  unfold Py.int. rewrite strip_line by apply str_int_no_space.
  destruct (str_int_cases k) as (c & s & u & Hu & [[Hk Hi] | [Hk Hi]]); rewrite Hk.
  - assert (Hz : Z.of_int (Pos u) = k) by (rewrite <- Hi; apply DecimalZ.of_to).
    pose proof (parse_digits_nonnil u c s Hu) as Hp.
    pose proof (str_uint_digits u) as Hd. rewrite Hu in Hd, Hp |- *.
    inversion Hd as [|? ? [d Hc] _]; subst.
    destruct (digit_of_not_sign _ _ Hc) as [Hm Hpl].
    rewrite !bool_decide_eq_false_2 by done.
    rewrite Hp. reflexivity.
  - assert (Hz : Z.of_int (Neg u) = k) by (rewrite <- Hi; apply DecimalZ.of_to).
    rewrite bool_decide_eq_true_2 by done.
    rewrite (parse_digits_nonnil u c s Hu). simpl. rewrite <- Hz. reflexivity.
Qed.

(** [int] skips a space or a line feed around the digits, but not a
    file separator (code point 28), which only [split] counts as
    whitespace. *)
Lemma int_skips_c_space_only :
  Py.int [Py.SP; Py.digit_char 5; Py.LF] = Some 5 /\
  Py.int [ascii_of_nat 28; Py.digit_char 5; Py.LF] = None /\
  Py.split [ascii_of_nat 28; Py.digit_char 5; Py.LF] = [[Py.digit_char 5]].
Proof. repeat split; reflexivity. Qed.

Lemma int_of_line_str_int k : int_of_line (Py.str_int k ++ [Py.LF]) = Ok k.
Proof. unfold int_of_line. rewrite int_str_int. reflexivity. Qed.

(** Reading one line. *)
Lemma no_space_no_newline l : no_space l -> no_newline l.
Proof. intros Hl. eapply Forall_impl; [exact Hl |]. intros c Hc. by apply not_space_LF_CR. Qed.

Lemma readline_line l rest :
  no_newline l -> Py.readline (l ++ Py.LF :: rest) = (l ++ [Py.LF], rest).
Proof.
  induction 1 as [|c l [H1 H2] Hl IH]; simpl.
  - reflexivity.
  - rewrite !bool_decide_eq_false_2 by done. rewrite IH. reflexivity.
Qed.

Lemma readline_le s : (length (Py.readline s).2 <= length s)%nat.
Proof.
  induction s as [|c s IH]; simpl; [lia |].
  case_bool_decide; [simpl; lia |].
  case_bool_decide.
  - destruct s as [|c' s']; simpl; [lia |]. case_bool_decide; simpl; lia.
  - destruct (Py.readline s) as [l r]. simpl in *. lia.
Qed.

Lemma readline_shorter c s :
  (length (Py.readline (c :: s)).2 < length (c :: s))%nat.
Proof.
  simpl. case_bool_decide; [simpl; lia |].
  case_bool_decide.
  - destruct s as [|c' s']; simpl; [lia |]. case_bool_decide; simpl; lia.
  - pose proof (readline_le s). destruct (Py.readline s) as [l r]. simpl in *. lia.
Qed.

Lemma file_next_shorter f line f' :
  file_next f = Ok (line, f') -> (length f' < length f)%nat.
Proof.
  destruct f as [|c s]; [discriminate |].
  unfold file_next. intros E.
  pose proof (readline_shorter c s) as Hs.
  destruct (Py.readline (c :: s)) as [l r]. simplify_eq. exact Hs.
Qed.

Lemma file_next_line l rest :
  no_newline l -> file_next (l ++ Py.LF :: rest) = Ok (l ++ [Py.LF], rest).
Proof.
  intros Hl. unfold file_next. rewrite readline_line by done.
  destruct l; reflexivity.
Qed.

(** Splitting a joined line. *)
Lemma no_space_app a b : no_space a -> no_space b -> no_space (a ++ b).
Proof. apply Forall_app_2. Qed.

Lemma split_from_word cur w rest :
  no_space w -> Py.split_from cur (w ++ rest) = Py.split_from (cur ++ w) rest.
Proof.
  intros Hw; revert cur; induction Hw as [|c w Hc Hw IH]; intros cur; simpl.
  - rewrite app_nil_r. reflexivity.
  - rewrite Hc, IH, <- app_assoc. reflexivity.
Qed.

Lemma emit_squeeze w : Py.emit w = squeeze [w].
Proof. destruct w; reflexivity. Qed.

Lemma squeeze_cons w ws : squeeze (w :: ws) = Py.emit w ++ squeeze ws.
Proof. destruct w; reflexivity. Qed.

Lemma split_values_line vs :
  Forall no_space vs -> Py.split (values_line vs) = squeeze vs.
Proof.
  unfold Py.split, values_line.
  induction 1 as [|w vs Hw Hvs IH].
  - reflexivity.
  - rewrite squeeze_cons. destruct vs as [|w' vs'].
    + simpl Py.join. rewrite split_from_word by done. reflexivity.
    + change (Py.join [Py.SP] (w :: w' :: vs'))
        with (w ++ [Py.SP] ++ Py.join [Py.SP] (w' :: vs')).
      rewrite <- !app_assoc, split_from_word by done.
      change ([Py.SP] ++ ?x) with (Py.SP :: x).
      change ([] ++ w) with w.
      cbn [Py.split_from]. rewrite is_space_SP, IH. reflexivity.
Qed.

Lemma join_no_newline vs : Forall no_space vs -> no_newline (Py.join [Py.SP] vs).
Proof.
  intros Hvs. induction Hvs as [|w vs Hw Hvs IH]; [constructor |].
  apply no_space_no_newline in Hw.
  destruct vs as [|w' vs']; [exact Hw |].
  change (Py.join [Py.SP] (w :: w' :: vs'))
    with (w ++ [Py.SP] ++ Py.join [Py.SP] (w' :: vs')).
  apply Forall_app_2; [exact Hw |]. apply Forall_app_2; [| exact IH].
  constructor; [| constructor]. split; discriminate.
Qed.

(** The reader's two steps on an entry the writer produced. *)
Lemma file_next_values vs rest :
  Forall no_space vs ->
  file_next (values_line vs ++ rest) = Ok (values_line vs, rest).
Proof.
  intros Hvs. unfold values_line. rewrite <- app_assoc.
  apply file_next_line, join_no_newline, Hvs.
Qed.

Lemma file_next_key k rest :
  file_next (Py.str_int k ++ [Py.LF] ++ rest) = Ok (Py.str_int k ++ [Py.LF], rest).
Proof. apply file_next_line, no_space_no_newline, str_int_no_space. Qed.

End text_facts.

(** ** Writing a run *)

Ltac unfold_M :=
  unfold mbind, M_bind, mret, M_ret, raise, lift, get_self, set_self,
    get_disk, set_disk, update_self in *.

Section write_facts.

Lemma bind_ok {A B} (c : M A) (f : A -> M B) w a w' :
  c w = (Ok a, w') -> (c ≫= f) w = f a w'.
Proof. intros Hc. unfold mbind, M_bind. by rewrite Hc. Qed.

Lemma bind_raise {A B} (c : M A) (f : A -> M B) w e w' :
  c w = (Raise e, w') -> (c ≫= f) w = (Raise e, w').
Proof. intros Hc. unfold mbind, M_bind. by rewrite Hc. Qed.

Lemma world_eta w : {| self := self w; disk := disk w |} = w.
Proof. destruct w; reflexivity. Qed.

Lemma file_text_cons e r : file_text (e :: r) = entry_text e ++ file_text r.
Proof. reflexivity. Qed.

Lemma file_text_app r1 r2 : file_text (r1 ++ r2) = file_text r1 ++ file_text r2.
Proof. unfold file_text. rewrite fmap_app, concat_app. reflexivity. Qed.

Lemma open_write_ok f g files :
  open_write f {| self := g; disk := Some files |}
  = (Ok tt, {| self := g; disk := Some (<[f := []]> files) |}).
Proof. reflexivity. Qed.

Lemma file_write_ok f s g files t :
  files !! f = Some t ->
  file_write f s {| self := g; disk := Some files |}
  = (Ok tt, {| self := g; disk := Some (<[f := t ++ s]> files) |}).
Proof. intros Hf. unfold file_write. unfold_M. simpl. rewrite Hf. reflexivity. Qed.

Lemma yields_length_le {I A} `{PyIterator I A} (it : I) (l : list A) :
  (forall it x it', iter_next it = Ok (x, it') -> (iter_size it' < iter_size it)%nat) ->
  yields it l -> (length l <= iter_size it)%nat.
Proof.
  intros Hdec. induction 1 as [| it x it' l Hn Hy IH]; simpl; [lia |].
  specialize (Hdec _ _ _ Hn). lia.
Qed.

(** A [for] loop over an iterator that delivers [l] appends the text
    of [l] to the file. *)
Lemma write_loop_yields {I} `{PyIterator I (Z * list (list ascii))}
    (it : I) l fuel f g files t :
  yields it l -> (length l < fuel)%nat -> files !! f = Some t ->
  write_loop fuel it f {| self := g; disk := Some files |}
  = (Ok tt, {| self := g; disk := Some (<[f := t ++ file_text l]> files) |}).
Proof.
  intros Hy. revert fuel files t.
  induction Hy as [it Hn | it [k vs] it' l Hn Hy IH]; intros fuel files t Hfuel Hf.
  - destruct fuel as [|fuel]; [simpl in Hfuel; lia |].
    simpl. rewrite Hn. unfold_M. rewrite app_nil_r, insert_id by done. reflexivity.
  - destruct fuel as [|fuel]; [simpl in Hfuel; lia |].
    simpl in Hfuel. cbn [write_loop]. rewrite Hn.
    unfold mbind at 1, M_bind at 1.
    rewrite (file_write_ok _ _ _ _ t) by done.
    unfold mbind at 1, M_bind at 1.
    rewrite (file_write_ok _ _ _ _ (t ++ py_str k ++ [Py.LF])) by apply lookup_insert_eq.
    rewrite insert_insert_eq.
    erewrite IH; [| lia | apply lookup_insert_eq].
    rewrite insert_insert_eq.
    rewrite file_text_cons. unfold entry_text, values_line, py_str, PyStr_str, PyStr_int.
    cbn [fst snd]. rewrite list_fmap_id, <- !app_assoc. reflexivity.
Qed.

Lemma write_key_values_to_file_yields {I} `{PyIterator I (Z * list (list ascii))}
    (it : I) l f g files :
  yields it l -> (length l <= iter_size it)%nat ->
  write_key_values_to_file it f {| self := g; disk := Some files |}
  = (Ok tt, {| self := g; disk := Some (<[f := file_text l]> files) |}).
Proof.
  intros Hy Hlen. unfold write_key_values_to_file.
  unfold mbind at 1, M_bind at 1. rewrite open_write_ok.
  erewrite write_loop_yields; [| exact Hy | lia | apply lookup_insert_eq].
  rewrite insert_insert_eq. reflexivity.
Qed.

Lemma yields_list {A} (l : list A) : yields l l.
Proof.
  induction l as [|x l IH]; [by apply yields_stop |].
  by eapply yields_item.
Qed.

Lemma write_list f g files (l : list (Z * list (list ascii))) :
  write_key_values_to_file l f {| self := g; disk := Some files |}
  = (Ok tt, {| self := g; disk := Some (<[f := file_text l]> files) |}).
Proof. apply write_key_values_to_file_yields; [apply yields_list | done]. Qed.

End write_facts.

(** ** Sorted keys and runs of a multimap *)

Section map_facts.
Context {A : Type}.
Implicit Types m : gmap Z A.

Lemma StronglySorted_le_lt (l : list Z) :
  StronglySorted Z.le l -> NoDup l -> StronglySorted Z.lt l.
Proof.
  induction 1 as [|x l Hs IH Hx]; intros Hnd; [constructor |].
  apply NoDup_cons in Hnd as [Hnx Hnd].
  constructor; [by apply IH |].
  rewrite Forall_forall in Hx |- *. intros y Hy.
  assert (x <> y) by (intros ->; done).
  specialize (Hx y Hy). lia.
Qed.

Lemma StronglySorted_lt_NoDup (l : list Z) : StronglySorted Z.lt l -> NoDup l.
Proof.
  induction 1 as [|x l Hs IH Hx]; [constructor |].
  apply NoDup_cons; split; [| done].
  intros Hin. rewrite Forall_forall in Hx. specialize (Hx x Hin). lia.
Qed.

(** A strictly ascending list is determined by its elements. *)
Lemma StronglySorted_lt_ext (l1 l2 : list Z) :
  StronglySorted Z.lt l1 -> StronglySorted Z.lt l2 ->
  (forall x, x ∈ l1 <-> x ∈ l2) -> l1 = l2.
Proof.
  intros H1 H2 Hel.
  assert (AntiSymm (=) Z.lt) by (intros x y ? ?; lia).
  apply (StronglySorted_unique Z.lt); [done | done |].
  apply NoDup_Permutation; auto using StronglySorted_lt_NoDup.
Qed.

Lemma sorted_keys_perm m : sorted_keys m ≡ₚ (map_to_list m).*1.
Proof. apply merge_sort_Permutation. Qed.

Lemma elem_of_sorted_keys m k : k ∈ sorted_keys m <-> is_Some (m !! k).
Proof.
  rewrite sorted_keys_perm, list_elem_of_fmap. split.
  - intros [[k' v] [-> Hin]]. apply elem_of_map_to_list in Hin. eauto.
  - intros [v Hv]. exists (k, v). split; [done |]. by apply elem_of_map_to_list.
Qed.

Lemma sorted_keys_sorted m : StronglySorted Z.lt (sorted_keys m).
Proof.
  apply StronglySorted_le_lt.
  - apply (StronglySorted_merge_sort Z.le).
  - rewrite sorted_keys_perm. apply NoDup_fst_map_to_list.
Qed.

Lemma sorted_keys_unique m (l : list Z) :
  StronglySorted Z.lt l -> (forall k, k ∈ l <-> is_Some (m !! k)) ->
  l = sorted_keys m.
Proof.
  intros Hl Hel. apply StronglySorted_lt_ext; [done | apply sorted_keys_sorted |].
  intros x. rewrite Hel, elem_of_sorted_keys. done.
Qed.

Lemma sorted_keys_empty : sorted_keys (∅ : gmap Z A) = [].
Proof.
  symmetry. apply sorted_keys_unique; [constructor |].
  intros k. rewrite lookup_empty. split; [by intros ?%elem_of_nil | by intros [? ?]].
Qed.

(** The smallest key comes first. *)
Lemma sorted_keys_min m k :
  is_Some (m !! k) -> (forall k', is_Some (m !! k') -> k <= k') ->
  sorted_keys m = k :: sorted_keys (delete k m).
Proof.
  intros Hk Hmin. symmetry. apply sorted_keys_unique.
  - constructor; [apply sorted_keys_sorted |].
    rewrite Forall_forall. intros k' Hk'.
    apply elem_of_sorted_keys in Hk'. rewrite lookup_delete_is_Some in Hk'.
    destruct Hk' as [Hne Hk']. specialize (Hmin k' Hk'). lia.
  - intros k'. rewrite elem_of_cons, elem_of_sorted_keys, lookup_delete_is_Some.
    destruct (decide (k' = k)) as [-> | Hne]; [by split; auto |].
    split; [intros [? | [_ ?]]; done | intros ?; right; done].
Qed.

End map_facts.

Lemma sorted_keys_fmap {A B} (f : A -> B) (m : gmap Z A) :
  sorted_keys (f <$> m) = sorted_keys m.
Proof.
  apply sorted_keys_unique; [apply sorted_keys_sorted |].
  intros k. rewrite elem_of_sorted_keys, lookup_fmap, fmap_is_Some. done.
Qed.

Section run_facts.
Implicit Types m : gmap Z (list (list ascii)).

Lemma run_of_map_keys m : (run_of_map m).*1 = sorted_keys m.
Proof.
  unfold run_of_map. rewrite <- list_fmap_compose.
  rewrite <- (list_fmap_id (sorted_keys m)) at 2. by apply list_fmap_ext.
Qed.

Lemma run_of_map_empty : run_of_map ∅ = [].
Proof. unfold run_of_map. by rewrite sorted_keys_empty. Qed.

Lemma elem_of_run_of_map m k vs :
  (k, vs) ∈ run_of_map m <-> m !! k = Some vs.
Proof.
  unfold run_of_map. rewrite list_elem_of_fmap. split.
  - intros [k' [[= -> ->] Hin]]. apply elem_of_sorted_keys in Hin as [v Hv].
    by rewrite lookup_total_alt, Hv.
  - intros Hk. exists k. split.
    + by rewrite lookup_total_alt, Hk.
    + apply elem_of_sorted_keys. eauto.
Qed.

Lemma run_of_map_fmap (f : list (list ascii) -> list (list ascii)) m :
  run_of_map (f <$> m) = (fun e => (e.1, f e.2)) <$> run_of_map m.
Proof.
  unfold run_of_map. rewrite sorted_keys_fmap, <- list_fmap_compose.
  apply Forall_fmap_ext, Forall_forall. intros k Hk.
  apply elem_of_sorted_keys in Hk as [v Hv]. simpl.
  by rewrite !lookup_total_alt, lookup_fmap, Hv.
Qed.

Lemma run_of_map_perm m : run_of_map m ≡ₚ map_to_list m.
Proof.
  apply NoDup_Permutation.
  - apply (NoDup_fmap_1 fst). rewrite run_of_map_keys.
    apply StronglySorted_lt_NoDup, sorted_keys_sorted.
  - apply NoDup_map_to_list.
  - intros [k vs]. by rewrite elem_of_run_of_map, elem_of_map_to_list.
Qed.

Lemma list_to_map_run_of_map m : list_to_map (run_of_map m) = m.
Proof.
  apply map_eq. intros k. destruct (m !! k) as [vs|] eqn:Hk.
  - apply elem_of_list_to_map_1.
    + rewrite run_of_map_keys. apply StronglySorted_lt_NoDup, sorted_keys_sorted.
    + by apply elem_of_run_of_map.
  - apply not_elem_of_list_to_map_1. rewrite run_of_map_keys, elem_of_sorted_keys, Hk.
    by intros [? ?].
Qed.

(** The entry of the smallest key comes first. *)
Lemma run_of_map_min m k vs :
  m !! k = Some vs -> (forall k', is_Some (m !! k') -> k <= k') ->
  run_of_map m = (k, vs) :: run_of_map (delete k m).
Proof.
  intros Hk Hmin. unfold run_of_map.
  rewrite (sorted_keys_min m k) by eauto. cbn [fmap list_fmap].
  rewrite lookup_total_alt, Hk. f_equal.
  apply Forall_fmap_ext, Forall_forall. intros k' Hk'.
  apply elem_of_sorted_keys in Hk'. rewrite lookup_delete_is_Some in Hk'.
  destruct Hk' as [Hne _]. by rewrite lookup_total_delete_ne.
Qed.

(** A run is determined by its entries when its keys ascend strictly. *)
Lemma run_of_map_unique m (r : list (Z * list (list ascii))) :
  StronglySorted Z.lt r.*1 ->
  (forall k vs, (k, vs) ∈ r <-> m !! k = Some vs) ->
  r = run_of_map m.
Proof.
  intros Hs Hel.
  assert (Hkeys : r.*1 = sorted_keys m).
  { apply sorted_keys_unique; [done |]. intros k. rewrite list_elem_of_fmap. split.
    - intros [[k' vs] [-> Hin]]. apply Hel in Hin. eauto.
    - intros [vs Hvs]. exists (k, vs). split; [done |]. by apply Hel. }
  unfold run_of_map. rewrite <- Hkeys, <- list_fmap_compose.
  rewrite <- (list_fmap_id r) at 1.
  apply Forall_fmap_ext, Forall_forall. intros [k vs] Hin. simpl.
  apply Hel in Hin. by rewrite lookup_total_alt, Hin.
Qed.

(** Key-wise concatenation. *)
Lemma lookup_mappend a b k :
  mappend a b !! k = union_with (fun x y => Some (x ++ y)) (a !! k) (b !! k).
Proof. apply lookup_union_with. Qed.

Lemma mappend_empty_l m : mappend ∅ m = m.
Proof. apply map_eq; intros k. rewrite lookup_mappend, lookup_empty. by destruct (m !! k). Qed.

Lemma mappend_empty_r m : mappend m ∅ = m.
Proof. apply map_eq; intros k. rewrite lookup_mappend, lookup_empty. by destruct (m !! k). Qed.

Lemma mappend_assoc a b c : mappend a (mappend b c) = mappend (mappend a b) c.
Proof.
  apply map_eq; intros k. rewrite !lookup_mappend.
  destruct (a !! k), (b !! k), (c !! k); simpl; try done.
  by rewrite app_assoc.
Qed.

Lemma munion_app ms1 ms2 : munion (ms1 ++ ms2) = mappend (munion ms1) (munion ms2).
Proof.
  induction ms1 as [|m ms1 IH]; simpl.
  - by rewrite mappend_empty_l.
  - by rewrite IH, mappend_assoc.
Qed.

Lemma squeeze_app a b : squeeze (a ++ b) = squeeze a ++ squeeze b.
Proof. apply filter_app. Qed.

Lemma squeeze_idemp a : squeeze (squeeze a) = squeeze a.
Proof.
  unfold squeeze. induction a as [|w a IH]; [done |].
  rewrite filter_cons. case_decide; [| done].
  rewrite filter_cons. case_decide; [| done]. by rewrite IH.
Qed.

Lemma fmap_squeeze_mappend a b :
  squeeze <$> mappend a b = mappend (squeeze <$> a) (squeeze <$> b).
Proof.
  apply map_eq; intros k. rewrite lookup_fmap, !lookup_mappend, !lookup_fmap.
  destruct (a !! k), (b !! k); simpl; try done. by rewrite squeeze_app.
Qed.

Lemma fmap_squeeze_munion ms :
  squeeze <$> munion ms = munion ((fun m : gmap Z (list (list ascii)) => squeeze <$> m) <$> ms).
Proof.
  induction ms as [|m ms IH]; simpl; [apply fmap_empty |].
  by rewrite fmap_squeeze_mappend, IH.
Qed.

End run_facts.

(** ** The heap of the K-way merge *)

Section heap_facts.
Implicit Types heap : list (Z * nat * list ascii).
Implicit Types e : Z * nat * list ascii.

Lemma entry_lt_irrefl e : ~ entry_lt e e.
Proof. unfold entry_lt. lia. Qed.

Lemma entry_lt_trans a b c : entry_lt a b -> entry_lt b c -> entry_lt a c.
Proof. unfold entry_lt. lia. Qed.

Lemma entry_lt_total a b : a.1.2 <> b.1.2 -> ~ entry_lt a b -> entry_lt b a.
Proof. unfold entry_lt. lia. Qed.

Lemma heappush_perm heap e : heappush heap e ≡ₚ e :: heap.
Proof.
  induction heap as [|x heap IH]; simpl; [done |].
  case_decide; [done |]. rewrite IH. apply Permutation_swap.
Qed.

Lemma heappush_sorted heap e :
  StronglySorted entry_lt heap -> Forall (fun x => x.1.2 <> e.1.2) heap ->
  StronglySorted entry_lt (heappush heap e).
Proof.
  induction 1 as [|x heap Hs IH Hx]; intros Hidx; simpl.
  - repeat constructor.
  - apply Forall_cons in Hidx as [Hxe Hidx]. case_decide as Hlt.
    + constructor; [by constructor |]. constructor; [done |].
      eapply Forall_impl; [exact Hx |]. intros y Hy. by eapply entry_lt_trans.
    + constructor; [by apply IH |].
      rewrite heappush_perm. constructor; [| done].
      apply entry_lt_total; [by apply not_eq_sym | done].
Qed.

Lemma heap_size_heappush heap e :
  heap_size (heappush heap e) = (length e.2 + heap_size heap)%nat.
Proof.
  induction heap as [|[[k i] f] heap IH]; destruct e as [[k' i'] f']; simpl.
  - done.
  - case_decide; simpl; [done |]. rewrite IH. simpl. lia.
Qed.

Lemma entries_from_app i (a b : list (list (Z * list (list ascii)))) :
  entries_from i (a ++ b) = entries_from i a ++ entries_from (i + length a) b.
Proof.
  revert i; induction a as [|r a IH]; intros i; simpl.
  - by rewrite Nat.add_0_r.
  - rewrite IH, <- app_assoc. do 3 f_equal. lia.
Qed.

Lemma entries_from_index i (rems : list (list (Z * list (list ascii)))) e :
  e ∈ entries_from i rems -> (i <= e.1.2 < i + length rems)%nat.
Proof.
  revert i; induction rems as [|r rems IH]; intros i; simpl.
  - by intros ?%elem_of_nil.
  - rewrite elem_of_app. intros [Hin | Hin].
    + destruct r as [|[k vs] rest]; simpl in Hin; [by apply elem_of_nil in Hin |].
      apply list_elem_of_singleton in Hin as ->. simpl. lia.
    + apply IH in Hin. lia.
Qed.

Lemma entries_from_key (P : Z -> Prop) i (rems : list (list (Z * list (list ascii)))) e :
  Forall (Forall (fun x => P x.1)) rems -> e ∈ entries_from i rems -> P e.1.1.
Proof.
  intros HP; revert i; induction HP as [|r rems Hr HP IH]; intros i; simpl.
  - by intros ?%elem_of_nil.
  - rewrite elem_of_app. intros [Hin | Hin]; [| by eapply IH].
    destruct r as [|[k vs] rest]; simpl in Hin; [by apply elem_of_nil in Hin |].
    apply list_elem_of_singleton in Hin as ->. by inversion Hr.
Qed.

Lemma entries_from_nil i (rems : list (list (Z * list (list ascii)))) :
  entries_from i rems = [] <-> Forall (fun r => r = []) rems.
Proof.
  revert i; induction rems as [|r rems IH]; intros i; simpl; [done |].
  rewrite Forall_cons, <- (IH (S i)). destruct r as [|[k vs] rest]; simpl.
  - tauto.
  - split; [discriminate | intros [? _]; discriminate].
Qed.

End heap_facts.

Section merge_state.
Implicit Types heap : list (Z * nat * list ascii).
Implicit Types r rest : list (Z * list (list ascii)).
Implicit Types rems done todo : list (list (Z * list (list ascii))).

Lemma run_ok_cons k vs rest :
  run_ok ((k, vs) :: rest) -> Forall no_space vs /\ keys_gt k rest /\ run_ok rest.
Proof.
  intros [Hs Hv]. simpl in Hs. apply StronglySorted_cons in Hs as [Hk Hs].
  apply Forall_cons in Hv as [Hvs Hv]. repeat split; try done.
  unfold keys_gt. by rewrite Forall_fmap in Hk.
Qed.

Lemma keys_gt_ge k r : keys_gt k r -> keys_ge k r.
Proof. intros Hr. eapply Forall_impl; [exact Hr |]. simpl. intros; lia. Qed.

Lemma keys_ge_head_ne k k' vs rest :
  run_ok ((k', vs) :: rest) -> keys_ge k ((k', vs) :: rest) -> k' <> k ->
  keys_gt k ((k', vs) :: rest).
Proof.
  intros (_ & Hgt & _)%run_ok_cons Hge Hne.
  apply Forall_cons in Hge as [Hk' _]. simpl in Hk'.
  constructor; [simpl; lia |].
  eapply Forall_impl; [exact Hgt |]. simpl. intros; lia.
Qed.

Lemma heap_rep_done_todo heap done r todo :
  heap_rep heap (done ++ r :: todo) ->
  heap ≡ₚ entry_of (length done) r ++
           (entries_from 0 done ++ entries_from (S (length done)) todo).
Proof.
  intros [_ Hp]. rewrite Hp, entries_from_app. cbn [entries_from].
  rewrite Nat.add_0_l. apply Permutation_app_swap_app.
Qed.

Lemma others_index done todo (x : Z * nat * list ascii) :
  x ∈ entries_from 0 done ++ entries_from (S (length done)) todo ->
  x.1.2 <> length done.
Proof.
  rewrite elem_of_app. intros [Hin | Hin]; apply entries_from_index in Hin; lia.
Qed.

(** The entry on top of the heap is that of the first file, in list
    order, whose next key is the smallest. *)
Lemma heap_top heap k done vs rest todo :
  heap_rep heap (done ++ ((k, vs) :: rest) :: todo) ->
  Forall (keys_gt k) done -> Forall (keys_ge k) todo ->
  exists heap_tail,
    heap = (k, length done, body_text vs rest) :: heap_tail /\
    StronglySorted entry_lt heap_tail /\
    heap_tail ≡ₚ entries_from 0 done ++ entries_from (S (length done)) todo.
Proof.
  intros Hrep Hdone Htodo.
  pose proof (heap_rep_done_todo _ _ _ _ Hrep) as Hp. simpl in Hp.
  destruct Hrep as [Hs _].
  destruct heap as [|e heap_tail].
  { apply Permutation_nil_cons in Hp. done. }
  apply StronglySorted_cons in Hs as [Hmin Hs].
  set (er := (k, length done, body_text vs rest)) in *.
  assert (He : e = er).
  { assert (Her : er ∈ e :: heap_tail) by (rewrite Hp; left).
    apply elem_of_cons in Her as [-> | Her]; [done |].
    rewrite Forall_forall in Hmin. specialize (Hmin _ Her).
    assert (Hin : e ∈ er :: (entries_from 0 done ++ entries_from (S (length done)) todo))
      by (rewrite <- Hp; left).
    apply elem_of_cons in Hin as [-> | Hin]; [done |]. exfalso.
    apply elem_of_app in Hin as [Hin | Hin].
    - eapply (entries_from_key (fun x => k < x)) in Hin; [| exact Hdone].
      unfold entry_lt in Hmin. subst er. simpl in Hmin. lia.
    - pose proof (entries_from_index _ _ _ Hin) as Hi.
      eapply (entries_from_key (fun x => k <= x)) in Hin; [| exact Htodo].
      unfold entry_lt in Hmin. subst er. simpl in Hmin. lia. }
  subst e. exists heap_tail. repeat split; [done |].
  by apply Permutation_cons_inv in Hp.
Qed.

Lemma heap_rep_replace heap_tail done todo rest :
  StronglySorted entry_lt heap_tail ->
  heap_tail ≡ₚ entries_from 0 done ++ entries_from (S (length done)) todo ->
  heap_rep (match rest with
            | [] => heap_tail
            | (k, vs) :: rest' => heappush heap_tail (k, length done, body_text vs rest')
            end) (done ++ rest :: todo).
Proof.
  intros Hs Hp. unfold heap_rep. rewrite entries_from_app. cbn [entries_from].
  rewrite Nat.add_0_l. destruct rest as [|[k vs] rest']; simpl.
  - done.
  - split.
    + apply heappush_sorted; [done |]. simpl.
      rewrite Forall_forall. intros x Hx. rewrite Hp in Hx.
      by apply others_index in Hx.
    + rewrite heappush_perm, Hp. apply Permutation_middle.
Qed.

Lemma length_values_line vs : (0 < length (values_line vs))%nat.
Proof. unfold values_line. rewrite length_app. simpl. lia. Qed.

Lemma length_body_text vs rest :
  (length (file_text rest) < length (body_text vs rest))%nat.
Proof. unfold body_text. rewrite length_app. pose proof (length_values_line vs). lia. Qed.

Lemma file_text_body k vs rest :
  file_text ((k, vs) :: rest) = Py.str_int k ++ [Py.LF] ++ body_text vs rest.
Proof.
  rewrite file_text_cons. unfold entry_text, body_text. simpl.
  by rewrite <- !app_assoc.
Qed.

(** The inner loop of [__next__] takes the values of key [k] from every
    file whose next key is [k], in list order, and advances those
    files.  [done] are the files already seen to be past [k]. *)
Lemma pop_equal_keys_spec k todo : forall done heap out fuel,
  Forall run_ok (done ++ todo) ->
  Forall (keys_gt k) done -> Forall (keys_ge k) todo ->
  heap_rep heap (done ++ todo) -> (heap_size heap < fuel)%nat ->
  exists heap',
    pop_equal_keys fuel k heap out
      = Ok (heap', out ++ concat (head_values k <$> todo)) /\
    heap_rep heap' (done ++ (drop_head k <$> todo)).
Proof.
  induction todo as [|r todo IH]; intros done heap out fuel Hok Hdone Htodo Hrep Hfuel.
  - exists heap. simpl. rewrite !app_nil_r in *. split; [| done].
    destruct heap as [|[[k' i] f] heap_tail]; [by destruct fuel |].
    assert (k' <> k); [| destruct fuel; simpl; by rewrite bool_decide_eq_false_2].
    destruct Hrep as [_ Hp].
    assert (Hin : (k', i, f) ∈ entries_from 0 done) by (rewrite <- Hp; left).
    eapply (entries_from_key (fun x => k < x)) in Hin; [| exact Hdone].
    simpl in Hin. lia.
  - apply Forall_cons in Htodo as [Hr Htodo].
    assert (Hokr : run_ok r).
    { rewrite Forall_app, Forall_cons in Hok. tauto. }
    assert (Hskip : keys_gt k r -> head_values k r = [] /\ drop_head k r = r).
    { intros Hgt. destruct r as [|[k' vs] rest]; [done |].
      apply Forall_cons in Hgt as [Hk' _]. simpl in Hk'.
      unfold head_values, head_opt, drop_head.
      rewrite !decide_False by lia. done. }
    assert (Hnext : keys_gt k r ->
      exists heap',
        pop_equal_keys fuel k heap out
          = Ok (heap', out ++ concat (head_values k <$> r :: todo)) /\
        heap_rep heap' (done ++ (drop_head k <$> r :: todo))).
    { intros Hgt. destruct (Hskip Hgt) as [Hhv Hdh].
      rewrite !fmap_cons, Hhv, Hdh. simpl concat.
      rewrite (cons_middle r done), app_assoc.
      apply IH; try done.
      - by rewrite <- app_assoc.
      - apply Forall_app; split; [done | by constructor].
      - by rewrite <- app_assoc. }
    destruct r as [|[k' vs] rest].
    { apply Hnext. constructor. }
    destruct (decide (k' = k)) as [-> | Hne].
    2: { apply Hnext. by apply keys_ge_head_ne. }
    clear Hnext Hskip.
    destruct (run_ok_cons _ _ _ Hokr) as (Hvs & Hgt & Hokrest).
    destruct (heap_top _ _ _ _ _ _ Hrep Hdone Htodo) as (heap_tail & -> & Hs & Hp).
    destruct fuel as [|fuel]; [simpl in Hfuel; lia |].
    cbn [pop_equal_keys]. rewrite bool_decide_eq_true_2 by done.
    unfold body_text at 1. rewrite file_next_values by done.
    cbn [mbind outcome_bind]. rewrite split_values_line by done.
    pose proof (heap_rep_replace heap_tail done todo rest Hs Hp) as Hrep'.
    assert (Hok' : Forall run_ok ((done ++ [rest]) ++ todo)).
    { rewrite <- app_assoc. simpl. rewrite Forall_app, Forall_cons in Hok |- *. tauto. }
    assert (Hdone' : Forall (keys_gt k) (done ++ [rest])).
    { apply Forall_app; split; [done | by constructor]. }
    assert (Hfin : forall heap1,
      heap_rep heap1 (done ++ rest :: todo) -> (heap_size heap1 < fuel)%nat ->
      exists heap',
        pop_equal_keys fuel k heap1 (out ++ squeeze vs)
          = Ok (heap', out ++ concat (head_values k <$> ((k, vs) :: rest) :: todo)) /\
        heap_rep heap' (done ++ (drop_head k <$> ((k, vs) :: rest) :: todo))).
    { intros heap1 Hrep1 Hfuel1.
      rewrite !fmap_cons. unfold head_values at 1, drop_head at 1. simpl.
      rewrite !decide_True by done. simpl.
      rewrite (cons_middle rest done), !app_assoc.
      apply IH; try done. by rewrite <- app_assoc. }
    simpl in Hfuel. pose proof (length_body_text vs rest) as Hlen.
    destruct rest as [|[k2 vs2] rest2].
    + change (file_next (file_text [])) with (@Raise (list ascii * list ascii) StopIteration).
      cbn iota. apply Hfin; [exact Hrep' |]. lia.
    + rewrite file_text_body, file_next_key.
      cbn iota. rewrite int_of_line_str_int. cbn [mbind outcome_bind].
      apply Hfin; [exact Hrep' |].
      rewrite heap_size_heappush. simpl.
      rewrite file_text_body, !length_app in Hlen. simpl in Hlen. lia.
Qed.

End merge_state.

Section merge_next.
Implicit Types heap : list (Z * nat * list ascii).
Implicit Types r rest : list (Z * list (list ascii)).
Implicit Types rems : list (list (Z * list (list ascii))).

Lemma sq_run_keys r : (sq_run r).*1 = r.*1.
Proof. unfold sq_run. rewrite <- list_fmap_compose. by apply list_fmap_ext. Qed.

Lemma lookup_run_gt k r :
  keys_gt k r -> (list_to_map (sq_run r) : gmap Z (list (list ascii))) !! k = None.
Proof.
  intros Hgt. apply not_elem_of_list_to_map_1. rewrite sq_run_keys.
  intros Hin. apply list_elem_of_fmap in Hin as [e [-> Hin]].
  unfold keys_gt in Hgt. rewrite Forall_forall in Hgt. specialize (Hgt _ Hin). lia.
Qed.

Lemma head_opt_gt k r : keys_gt k r -> head_opt k r = None.
Proof.
  destruct r as [|[k' vs] rest]; [done |]. intros [Hk _]%Forall_cons.
  simpl in *. by rewrite decide_False by lia.
Qed.

Lemma lookup_run_head k r :
  run_ok r -> keys_ge k r ->
  (list_to_map (sq_run r) : gmap Z (list (list ascii))) !! k = head_opt k r.
Proof.
  intros Hok Hge. destruct r as [|[k' vs] rest]; [done |].
  destruct (decide (k' = k)) as [-> | Hne].
  - simpl. rewrite decide_True by done. apply lookup_insert_eq.
  - pose proof (keys_ge_head_ne _ _ _ _ Hok Hge Hne) as Hgt.
    by rewrite lookup_run_gt, head_opt_gt.
Qed.

Lemma delete_run_head k r :
  run_ok r -> keys_ge k r ->
  (list_to_map (sq_run (drop_head k r)) : gmap Z (list (list ascii)))
  = delete k (list_to_map (sq_run r)).
Proof.
  intros Hok Hge. destruct r as [|[k' vs] rest]; [simpl; by rewrite delete_empty |].
  destruct (decide (k' = k)) as [-> | Hne].
  - destruct (run_ok_cons _ _ _ Hok) as (_ & Hgt & _).
    simpl. rewrite decide_True by done.
    rewrite delete_insert_eq. symmetry. apply delete_id, lookup_run_gt, Hgt.
  - pose proof (keys_ge_head_ne _ _ _ _ Hok Hge Hne) as Hgt.
    unfold drop_head. rewrite decide_False by done.
    symmetry. apply delete_id, lookup_run_gt, Hgt.
Qed.

Lemma map_of_runs_cons r rems :
  map_of_runs (r :: rems) = mappend (list_to_map (sq_run r)) (map_of_runs rems).
Proof. reflexivity. Qed.

Lemma lookup_map_of_runs k rems :
  Forall run_ok rems -> Forall (keys_ge k) rems ->
  (Exists (fun r => is_Some (head_opt k r)) rems /\
   map_of_runs rems !! k = Some (concat (head_values k <$> rems))) \/
  (~ Exists (fun r => is_Some (head_opt k r)) rems /\
   map_of_runs rems !! k = None /\ concat (head_values k <$> rems) = []).
Proof.
  induction rems as [|r rems IH]; intros Hok Hge.
  - right. repeat split; [by intros ?%Exists_nil | done ..].
  - apply Forall_cons in Hok as [Hr Hok]. apply Forall_cons in Hge as [Hgr Hge].
    rewrite map_of_runs_cons, lookup_mappend, lookup_run_head by done.
    rewrite fmap_cons. cbn [concat]. unfold head_values at 1 3.
    destruct (IH Hok Hge) as [(Hex & -> ) | (Hnex & -> & ->)];
      destruct (head_opt k r) as [v|] eqn:Hv; simpl.
    + left. split; [by right | done].
    + left. split; [by right | done].
    + left. split; [left; by rewrite Hv | by rewrite app_nil_r].
    + right. repeat split; try done.
      intros [Hh | Hh]%Exists_cons; [| done]. rewrite Hv in Hh. by destruct Hh.
Qed.

Lemma delete_mappend k (a b : gmap Z (list (list ascii))) :
  delete k (mappend a b) = mappend (delete k a) (delete k b).
Proof.
  apply map_eq; intros k'. rewrite lookup_mappend.
  destruct (decide (k' = k)) as [-> | Hne].
  - by rewrite !lookup_delete_eq.
  - by rewrite !lookup_delete_ne, lookup_mappend.
Qed.

Lemma map_of_runs_drop k rems :
  Forall run_ok rems -> Forall (keys_ge k) rems ->
  map_of_runs (drop_head k <$> rems) = delete k (map_of_runs rems).
Proof.
  induction rems as [|r rems IH]; intros Hok Hge.
  - unfold map_of_runs. simpl. by rewrite delete_empty.
  - apply Forall_cons in Hok as [Hr Hok]. apply Forall_cons in Hge as [Hgr Hge].
    rewrite fmap_cons, !map_of_runs_cons, delete_mappend, IH, delete_run_head by done.
    done.
Qed.

Lemma map_of_runs_ge k rems k' :
  Forall (keys_ge k) rems -> is_Some (map_of_runs rems !! k') -> k <= k'.
Proof.
  induction rems as [|r rems IH]; intros Hge Hk'.
  - unfold map_of_runs in Hk'. simpl in Hk'. rewrite lookup_empty in Hk'. by destruct Hk'.
  - apply Forall_cons in Hge as [Hgr Hge].
    rewrite map_of_runs_cons, lookup_mappend in Hk'.
    destruct (list_to_map (sq_run r) !! k') as [v|] eqn:Hv.
    + apply elem_of_list_to_map_2, (list_elem_of_fmap_2 fst) in Hv.
      rewrite sq_run_keys in Hv. simpl in Hv.
      apply list_elem_of_fmap in Hv as [e [-> Hin]].
      unfold keys_ge in Hgr. rewrite Forall_forall in Hgr. by apply Hgr.
    + apply IH; [done |]. destruct (map_of_runs rems !! k'); [eauto | by destruct Hk'].
Qed.

Lemma entries_ge k i rems :
  Forall run_ok rems ->
  (forall e, e ∈ entries_from i rems -> k <= e.1.1) ->
  Forall (keys_ge k) rems.
Proof.
  revert i; induction rems as [|r rems IH]; intros i Hok He; [constructor |].
  apply Forall_cons in Hok as [Hr Hok]. constructor.
  - destruct r as [|[k' vs] rest]; [constructor |].
    assert (Hk : k <= k').
    { apply (He (k', i, body_text vs rest)). simpl. left. }
    destruct (run_ok_cons _ _ _ Hr) as (_ & Hgt & _).
    constructor; [done |]. eapply Forall_impl; [exact Hgt |]. simpl. intros; lia.
  - apply (IH (S i)); [done |]. intros e Hin. apply He. simpl.
    apply elem_of_app. by right.
Qed.

Lemma entries_head i rems (e : Z * nat * list ascii) :
  e ∈ entries_from i rems -> Exists (fun r => is_Some (head_opt e.1.1 r)) rems.
Proof.
  revert i; induction rems as [|r rems IH]; intros i; simpl.
  - by intros ?%elem_of_nil.
  - rewrite elem_of_app. intros [Hin | Hin]; [| right; by eapply IH].
    left. destruct r as [|[k vs] rest]; simpl in Hin; [by apply elem_of_nil in Hin |].
    apply list_elem_of_singleton in Hin as ->. simpl. rewrite decide_True by done. eauto.
Qed.

(** One [__next__]: the smallest pending key with the values of every
    file that has it, concatenated in file-list order. *)
Lemma MergeFileIterator_next_spec heap rems :
  Forall run_ok rems -> heap_rep heap rems -> heap <> [] ->
  exists k heap',
    MergeFileIterator_next {| _heap := heap |}
      = Ok ((k, concat (head_values k <$> rems)), {| _heap := heap' |}) /\
    heap_rep heap' (drop_head k <$> rems) /\
    Forall (keys_ge k) rems /\
    Exists (fun r => is_Some (head_opt k r)) rems.
Proof.
  intros Hok Hrep Hne. destruct heap as [|[[k i] f] heap_tail]; [done |].
  assert (Hge : Forall (keys_ge k) rems).
  { apply (entries_ge k 0); [done |]. intros e Hin.
    destruct Hrep as [Hs Hp]. rewrite <- Hp in Hin.
    apply StronglySorted_cons in Hs as [Hmin _].
    apply elem_of_cons in Hin as [-> | Hin]; [simpl; lia |].
    rewrite Forall_forall in Hmin. specialize (Hmin _ Hin).
    unfold entry_lt in Hmin. simpl in Hmin. lia. }
  destruct (pop_equal_keys_spec k rems [] ((k, i, f) :: heap_tail) []
              (S (heap_size ((k, i, f) :: heap_tail))))
    as (heap' & Hpop & Hrep'); try done; [lia |].
  exists k, heap'. split; [| split; [exact Hrep' | split; [exact Hge |]]].
  - unfold MergeFileIterator_next. cbn [_heap]. rewrite Hpop. done.
  - destruct Hrep as [_ Hp].
    assert (Hin : (k, i, f) ∈ entries_from 0 rems) by (rewrite <- Hp; left).
    apply entries_head in Hin. exact Hin.
Qed.

End merge_next.

Section merge_all.
Implicit Types heap : list (Z * nat * list ascii).
Implicit Types rems : list (list (Z * list (list ascii))).

(** Every [__next__] that returns has read at least one character. *)
Lemma pop_equal_keys_size fuel : forall k heap out heap' out',
  pop_equal_keys fuel k heap out = Ok (heap', out') ->
  (heap_size heap' <= heap_size heap)%nat /\
  (forall i f t, heap = (k, i, f) :: t -> (heap_size heap' < heap_size heap)%nat).
Proof.
  induction fuel as [|fuel IH]; intros k heap out heap' out' Hpop.
  - destruct heap as [|[[k' i'] f'] t]; simpl in Hpop; [by simplify_eq |].
    case_bool_decide; [done |]. simplify_eq. split; [done |]. intros; simplify_eq.
  - destruct heap as [|[[k' i'] f'] t]; simpl in Hpop; [by simplify_eq |].
    case_bool_decide as Hk; [| simplify_eq; split; [done | intros; simplify_eq]].
    subst k'. destruct (file_next f') as [[line f1] | |] eqn:Hf1; simpl in Hpop; try done.
    apply file_next_shorter in Hf1.
    assert (Hlt : (heap_size heap' < heap_size ((k, i', f') :: t))%nat).
    { destruct (file_next f1) as [[line' f2] | [] |] eqn:Hf2; try done.
      - apply file_next_shorter in Hf2.
        destruct (int_of_line line') as [key' | |]; simpl in Hpop; try done.
        apply IH in Hpop as [Hle _]. rewrite heap_size_heappush in Hle. simpl in *. lia.
      - apply IH in Hpop as [Hle _]. simpl. lia. }
    split; [lia | intros; done].
Qed.

Lemma MergeFileIterator_next_size it x it' :
  MergeFileIterator_next it = Ok (x, it') ->
  (heap_size (_heap it') < heap_size (_heap it))%nat.
Proof.
  unfold MergeFileIterator_next. destruct it as [heap]. cbn [_heap].
  destruct heap as [|[[k i] f] t]; [done |].
  destruct (pop_equal_keys (S (heap_size ((k, i, f) :: t))) k ((k, i, f) :: t) [])
    as [[heap' vs] | |] eqn:Hpop; cbn [mbind outcome_bind]; try done.
  intros [= <- <-]. cbn [_heap].
  apply pop_equal_keys_size in Hpop as [_ Hlt]. by eapply Hlt.
Qed.

Lemma delivers_yields it l : delivers it l -> yields it l.
Proof.
  induction 1 as [| it x it' l Hne Hn Hd IH].
  - by apply yields_stop.
  - by eapply yields_item.
Qed.

Lemma delivers_length it l :
  delivers it l -> (length l <= heap_size (_heap it))%nat.
Proof.
  induction 1 as [| it x it' l Hne Hn Hd IH]; simpl; [lia |].
  apply MergeFileIterator_next_size in Hn. lia.
Qed.

Lemma map_of_runs_nil rems : Forall (fun r => r = []) rems -> map_of_runs rems = ∅.
Proof.
  induction 1 as [|r rems -> _ IH]; [done |].
  rewrite map_of_runs_cons, IH. simpl. apply mappend_empty_l.
Qed.

Lemma drop_head_length k rems :
  Exists (fun r => is_Some (head_opt k r)) rems ->
  (length (concat (drop_head k <$> rems)) < length (concat rems))%nat.
Proof.
  assert (Hle : forall r, (length (drop_head k r) <= length r)%nat).
  { intros [|[k' vs] rest]; simpl; [done |]. case_decide; simpl; lia. }
  assert (Hles : forall l : list (list (Z * list (list ascii))),
             (length (concat (drop_head k <$> l)) <= length (concat l))%nat).
  { induction l as [|r l IH]; [done |]. rewrite fmap_cons. cbn [concat].
    rewrite !length_app. specialize (Hle r). lia. }
  induction 1 as [r rems Hr | r rems Hex IH]; rewrite fmap_cons; cbn [concat];
    rewrite !length_app.
  - specialize (Hles rems). destruct r as [|[k' vs] rest]; simpl in *.
    + by destruct Hr.
    + case_decide; [simpl; lia | by destruct Hr].
  - specialize (Hle r). lia.
Qed.

(** A merge iterator over runs delivers the run of their key-wise
    concatenation. *)
Lemma merge_delivers n : forall rems heap,
  (length (concat rems) <= n)%nat ->
  Forall run_ok rems -> heap_rep heap rems ->
  delivers {| _heap := heap |} (run_of_map (map_of_runs rems)).
Proof.
  induction n as [|n IH]; intros rems heap Hn Hok Hrep;
    (destruct (decide (heap = [])) as [-> | Hne];
     [ destruct Hrep as [_ Hp]; symmetry in Hp; apply Permutation_nil_r in Hp;
       apply entries_from_nil in Hp;
       rewrite map_of_runs_nil, run_of_map_empty by done; constructor
     | destruct (MergeFileIterator_next_spec heap rems Hok Hrep Hne)
         as (k & heap' & Hnext & Hrep' & Hge & Hex);
       pose proof (drop_head_length k rems Hex) as Hlen ]).
  - lia.
  - destruct (lookup_map_of_runs k rems Hok Hge) as [[_ Hlk] | [Hnex _]]; [| done].
    rewrite (run_of_map_min _ k _ Hlk).
    2: { intros k' Hk'. by eapply map_of_runs_ge. }
    rewrite <- map_of_runs_drop by done.
    eapply delivers_item; [done | exact Hnext |].
    apply IH; [lia | | done].
    rewrite Forall_fmap. eapply Forall_impl; [exact Hok |].
    intros [|[k' vs] rest]; simpl; [done |]. intros Hr.
    case_decide; [| done]. by apply run_ok_cons in Hr as (_ & _ & ?).
Qed.

End merge_all.

(** ** Runs on disk *)

Section stored_facts.
Implicit Types m : gmap Z (list (list ascii)).
Implicit Types r : list (Z * list (list ascii)).

Lemma squeeze_no_space vs : Forall no_space vs -> Forall no_space (squeeze vs).
Proof.
  intros Hvs. rewrite Forall_forall in Hvs |- *. intros w Hw.
  apply list_elem_of_filter in Hw as [_ Hw]. by apply Hvs.
Qed.

Lemma values_ok_run_of_map m : map_ok m -> values_ok (run_of_map m).
Proof.
  intros Hm. unfold values_ok. rewrite Forall_forall. intros [k vs] Hin.
  apply elem_of_run_of_map in Hin. by apply (Hm k vs).
Qed.

Lemma map_ok_squeeze m : map_ok m -> map_ok (squeeze <$> m).
Proof.
  intros Hm k vs. rewrite lookup_fmap. destruct (m !! k) as [vs'|] eqn:Hk; [| done].
  intros [= <-]. apply squeeze_no_space. by apply (Hm k).
Qed.

Lemma map_ok_mappend a b : map_ok a -> map_ok b -> map_ok (mappend a b).
Proof.
  intros Ha Hb k vs. rewrite lookup_mappend.
  destruct (a !! k) as [x|] eqn:Hx, (b !! k) as [y|] eqn:Hy; simpl; intros [= <-].
  - apply Forall_app; split; [by apply (Ha k) | by apply (Hb k)].
  - by apply (Ha k).
  - by apply (Hb k).
Qed.

Lemma map_ok_munion ms : Forall map_ok ms -> map_ok (munion ms).
Proof.
  induction 1 as [|m ms Hm Hms IH]; simpl.
  - intros k vs. by rewrite lookup_empty.
  - by apply map_ok_mappend.
Qed.

Lemma mappend_nonempty_l a b : a <> ∅ -> mappend a b <> ∅.
Proof.
  intros Ha Hab. apply map_choose in Ha as (k & x & Hk).
  apply (f_equal (fun m => m !! k)) in Hab.
  rewrite lookup_mappend, Hk, lookup_empty in Hab. by destruct (b !! k).
Qed.

(** What a spill writes is a run of the hashmap. *)
Lemma stored_dump m : map_ok m -> stored (file_text (run_of_map m)) m.
Proof.
  intros Hm. exists (run_of_map m). repeat split.
  - by apply values_ok_run_of_map.
  - by rewrite run_of_map_fmap.
Qed.

(** What a merge writes is a run of the merged multimap. *)
Lemma stored_merged m :
  map_ok m -> stored (file_text (run_of_map (squeeze <$> m))) m.
Proof.
  intros Hm. exists (run_of_map (squeeze <$> m)). repeat split.
  - by apply values_ok_run_of_map, map_ok_squeeze.
  - unfold sq_run. rewrite <- run_of_map_fmap. f_equal.
    apply map_eq; intros k. rewrite !lookup_fmap.
    destruct (m !! k); simpl; [| done]. by rewrite squeeze_idemp.
Qed.

Lemma stored_run t m :
  stored t m ->
  exists r, t = file_text r /\ run_ok r /\
            list_to_map (sq_run r) = squeeze <$> m /\ (m <> ∅ -> r <> []).
Proof.
  intros (r & -> & Hv & Hsq). exists r.
  assert (Hkeys : r.*1 = sorted_keys m).
  { by rewrite <- sq_run_keys, Hsq, run_of_map_keys, sorted_keys_fmap. }
  repeat split; try done.
  - rewrite Hkeys. apply sorted_keys_sorted.
  - rewrite Hsq. apply list_to_map_run_of_map.
  - intros Hne ->. apply map_choose in Hne as (k & x & Hk).
    assert (Hin : k ∈ sorted_keys m) by (apply elem_of_sorted_keys; eauto).
    rewrite <- Hkeys in Hin. by apply elem_of_nil in Hin.
Qed.

Lemma good_file_insert_ne files f t index m :
  f <> dump_ index -> good_file files index m -> good_file (<[f := t]> files) index m.
Proof.
  intros Hne (Hm & Hok & t' & Ht' & Hst). repeat split; try done.
  exists t'. by rewrite lookup_insert_ne.
Qed.

Lemma good_file_delete_ne files f index m :
  f <> dump_ index -> good_file files index m -> good_file (delete f files) index m.
Proof.
  intros Hne (Hm & Hok & t' & Ht' & Hst). repeat split; try done.
  exists t'. by rewrite lookup_delete_ne.
Qed.

End stored_facts.

(** ** Opening a merge over runs on disk *)

Section merge_init.
Implicit Types heap : list (Z * nat * list ascii).
Implicit Types rems done todo : list (list (Z * list (list ascii))).

Lemma heap_rep_nil : heap_rep [] [].
Proof. split; [constructor | done]. Qed.

Lemma push_first_keys_spec todo : forall done heap,
  Forall run_ok todo -> Forall (fun r => r <> []) todo ->
  heap_rep heap done ->
  exists heap',
    push_first_keys (length done) (file_text <$> todo) heap = Ok heap' /\
    heap_rep heap' (done ++ todo).
Proof.
  induction todo as [|r todo IH]; intros done heap Hok Hne Hrep.
  - exists heap. by rewrite app_nil_r.
  - apply Forall_cons in Hok as [Hr Hok]. apply Forall_cons in Hne as [Hrne Hne].
    destruct r as [|[k vs] rest]; [done |].
    rewrite fmap_cons. cbn [push_first_keys].
    rewrite file_text_body, file_next_key. cbn [mbind outcome_bind].
    rewrite int_of_line_str_int. cbn [mbind outcome_bind].
    destruct Hrep as [Hs Hp].
    destruct (IH (done ++ [(k, vs) :: rest])
                (heappush heap (k, length done, body_text vs rest))) as (heap' & Hpush & Hrep');
      try done.
    + split.
      * apply heappush_sorted; [done |]. rewrite Forall_forall. intros x Hx.
        rewrite Hp in Hx. apply entries_from_index in Hx. simpl. lia.
      * rewrite heappush_perm, Hp, entries_from_app. simpl.
        apply Permutation_cons_append.
    + exists heap'. rewrite length_app, Nat.add_1_r in Hpush.
      split; [done |]. by rewrite <- app_assoc in Hrep'.
Qed.

Lemma open_all_spec files filelist ts :
  Forall2 (fun f t => files !! f = Some t) filelist ts ->
  open_all (Some files) filelist = Ok ts.
Proof.
  induction 1 as [|f t filelist ts Hf _ IH]; [done |].
  simpl. rewrite Hf. simpl. rewrite IH. done.
Qed.

(** A merge iterator opened on runs that read back as [ms] delivers
    the run of their key-wise concatenation. *)
Lemma MergeFileIterator_init_spec files filelist ms :
  Forall2 (fun f m => m <> ∅ /\ exists t, files !! f = Some t /\ stored t m) filelist ms ->
  exists it,
    MergeFileIterator_init filelist (Some files) = Ok it /\
    delivers it (run_of_map (squeeze <$> munion ms)) /\
    (filelist <> [] -> _heap it <> []).
Proof.
  intros Hall.
  assert (exists rs,
    Forall2 (fun f t => files !! f = Some t) filelist (file_text <$> rs) /\
    Forall run_ok rs /\ Forall (fun r => r <> []) rs /\
    map_of_runs rs = squeeze <$> munion ms /\ length rs = length filelist)
    as (rs & Hopen & Hok & Hne & Hmap & Hlen).
  { induction Hall as [|f m filelist ms (Hm & t & Hf & Hst) _ IH].
    - exists []. repeat split; constructor.
    - destruct IH as (rs & Hopen & Hok & Hne & Hmap & Hlen).
      destruct (stored_run _ _ Hst) as (r & -> & Hr & Hrm & Hrne).
      exists (r :: rs). repeat split; try (constructor; auto).
      + rewrite map_of_runs_cons, Hmap, Hrm. simpl.
        by rewrite fmap_squeeze_mappend.
      + simpl. by rewrite Hlen. }
  destruct (push_first_keys_spec rs [] [] Hok Hne heap_rep_nil) as (heap & Hpush & Hrep).
  exists {| _heap := heap |}. repeat split.
  - unfold MergeFileIterator_init. rewrite (open_all_spec _ _ _ Hopen).
    cbn [mbind outcome_bind]. simpl in Hpush. rewrite Hpush. done.
  - rewrite <- Hmap. apply (merge_delivers (length (concat rs))); try done.
  - intros Hfl. simpl. intros ->. destruct Hrep as [_ Hp]. symmetry in Hp.
    apply Permutation_nil_r in Hp. simpl in Hp. apply entries_from_nil in Hp.
    destruct rs as [|r rs]; [by destruct filelist |].
    apply Forall_cons in Hp as [-> _]. by apply Forall_cons in Hne as [? _].
Qed.

End merge_init.

(** ** The reference group-by *)

Section hashmap_facts.
Context {V : Type} {V_str : PyStr V}.
Implicit Types C S : list (Z * V).

Lemma hashmap_of_snoc C kv :
  hashmap_of (C ++ [kv])
  = <[kv.1 := (hashmap_of C !!! kv.1) ++ [py_str kv.2]]> (hashmap_of C).
Proof. unfold hashmap_of. by rewrite foldl_app. Qed.

Lemma values_of_app k C1 C2 : values_of k (C1 ++ C2) = values_of k C1 ++ values_of k C2.
Proof. unfold values_of. by rewrite filter_app, fmap_app. Qed.

Lemma lookup_hashmap_of C k :
  hashmap_of C !! k = match values_of k C with [] => None | vs => Some vs end.
Proof.
  induction C as [|kv C IH] using rev_ind; [done |].
  rewrite hashmap_of_snoc, values_of_app, lookup_total_alt, lookup_insert.
  destruct kv as [k' v]. simpl.
  assert (Hone : values_of k [(k', v)] = if decide (k' = k) then [py_str v] else []).
  { unfold values_of. rewrite filter_cons, filter_nil. simpl. by case_decide. }
  rewrite Hone. case_decide as Hk.
  - subst k'. rewrite IH. destruct (values_of k C); done.
  - rewrite app_nil_r, IH. done.
Qed.

Lemma lookup_total_hashmap_of C k : hashmap_of C !!! k = values_of k C.
Proof. rewrite lookup_total_alt, lookup_hashmap_of. by destruct (values_of k C). Qed.

Lemma hashmap_of_app C1 C2 :
  hashmap_of (C1 ++ C2) = mappend (hashmap_of C1) (hashmap_of C2).
Proof.
  apply map_eq; intros k. rewrite lookup_mappend, !lookup_hashmap_of, values_of_app.
  destruct (values_of k C1), (values_of k C2); simpl; try done.
  by rewrite app_nil_r.
Qed.

Lemma hashmap_of_concat (chunks : list (list (Z * V))) :
  munion (hashmap_of <$> chunks) = hashmap_of (concat chunks).
Proof.
  induction chunks as [|C chunks IH]; [done |].
  rewrite fmap_cons. cbn [munion foldr concat].
  change (foldr mappend ∅ (hashmap_of <$> chunks)) with (munion (hashmap_of <$> chunks)).
  by rewrite IH, hashmap_of_app.
Qed.

Lemma hashmap_of_nonempty C : C <> [] -> hashmap_of C <> ∅.
Proof.
  destruct C as [|[k v] C]; [done |]. intros _ He.
  apply (f_equal (fun m => m !! k)) in He.
  rewrite lookup_hashmap_of, lookup_empty in He.
  unfold values_of in He. rewrite filter_cons_True in He by done. done.
Qed.

Lemma map_ok_hashmap_of C : Forall value_ok C -> map_ok (hashmap_of C).
Proof.
  intros HC k vs. rewrite lookup_hashmap_of. intros Hvs.
  assert (Hall : Forall no_space (values_of k C)).
  { unfold values_of. rewrite Forall_fmap. rewrite Forall_forall in HC |- *.
    intros kv [_ Hin]%list_elem_of_filter. by apply HC. }
  destruct (values_of k C); simplify_eq. done.
Qed.

(** The groups of the reference in terms of the input. *)
Lemma elem_of_compute_hashmap S k vs :
  (k, vs) ∈ compute_hashmap S <-> vs = values_of k S /\ vs <> [].
Proof.
  unfold compute_hashmap. rewrite elem_of_run_of_map, lookup_hashmap_of.
  destruct (values_of k S) eqn:E.
  - split; [done | intros [-> ?]; done].
  - split; [intros [= <-]; done | intros [-> _]; done].
Qed.

Lemma compute_hashmap_sorted S : StronglySorted Z.lt (compute_hashmap S).*1.
Proof. unfold compute_hashmap. rewrite run_of_map_keys. apply sorted_keys_sorted. Qed.

End hashmap_facts.

(** ** The accumulator *)

Section accumulator.
Context {V : Type} {V_str : PyStr V} {Z_size : GetSizeOf Z} {V_size : GetSizeOf V}.
Implicit Types input Cur : list (Z * V).
Implicit Types chunks : list (list (Z * V)).

Lemma dump_spec h f g files :
  _dump_hashmap_to_disk h f {| self := g; disk := Some files |}
  = (Ok ∅, {| self := set_spills (spills g + 1) (set_num_files (_num_files g + 1) g);
              disk := Some (<[f := file_text (run_of_map h)]> files) |}).
Proof.
  unfold _dump_hashmap_to_disk. unfold mbind at 1, M_bind at 1.
  rewrite write_list. reflexivity.
Qed.

Lemma acc_inv_spill g files chunks Cur :
  Forall value_ok Cur -> Cur <> [] -> acc_inv g files chunks ->
  acc_inv (set_spills (spills g + 1) (set_num_files (_num_files g + 1) g))
    (<[dump_ (_num_files g) := file_text (run_of_map (hashmap_of Cur))]> files)
    (chunks ++ [Cur]).
Proof.
  intros Hok Hne [Hn Hruns]. split.
  - simpl. rewrite length_app, Hn. simpl. lia.
  - intros i m Hi. rewrite fmap_app in Hi. simpl in Hi.
    destruct (decide (i < length chunks)%nat) as [Hlt | Hge].
    + rewrite lookup_app_l in Hi by (by rewrite length_fmap).
      apply good_file_insert_ne; [intros [= E]; lia | by apply Hruns].
    + rewrite lookup_app_r in Hi by (rewrite length_fmap; lia).
      rewrite length_fmap in Hi.
      destruct (i - length chunks)%nat as [|j] eqn:Hj; simpl in Hi; [| done].
      simplify_eq. assert (i = length chunks) as -> by lia.
      repeat split.
      * by apply hashmap_of_nonempty.
      * by apply map_ok_hashmap_of.
      * exists (file_text (run_of_map (hashmap_of Cur))). split.
        -- rewrite Hn, Z.add_0_l. apply lookup_insert_eq.
        -- by apply stored_dump, map_ok_hashmap_of.
Qed.

Lemma spill_if_full_spec g files chunks Cur :
  Forall value_ok Cur -> acc_inv g files chunks ->
  (Cur <> [] \/ 1 <= _max_hashmap_entries g) ->
  exists g' files' chunks' Cur',
    spill_if_full (Z.of_nat (length Cur)) (hashmap_of Cur)
      {| self := g; disk := Some files |}
    = (Ok (Z.of_nat (length Cur'), hashmap_of Cur'),
       {| self := g'; disk := Some files' |}) /\
    acc_inv g' files' chunks' /\
    concat chunks' ++ Cur' = concat chunks ++ Cur /\
    (length chunks <= length chunks')%nat /\
    Forall value_ok Cur' /\
    _max_num_files g' = _max_num_files g /\
    _max_memory g' = _max_memory g /\
    total_num_entries g' = total_num_entries g.
Proof.
  intros Hok Hinv Hsafe. unfold spill_if_full.
  unfold mbind at 1, M_bind at 1, get_self at 1. cbn [self].
  case_bool_decide as Hfull.
  - assert (Hne : Cur <> []).
    { destruct Hsafe as [? | HM]; [done |]. intros ->. simpl in Hfull. lia. }
    exists (set_spills (spills g + 1) (set_num_files (_num_files g + 1) g)),
      (<[dump_ (_num_files g) := file_text (run_of_map (hashmap_of Cur))]> files),
      (chunks ++ [Cur]), [].
    split; [| split; [| split; [| split]]].
    + unfold mbind at 1, M_bind at 1. unfold _get_dump_filename. rewrite dump_spec. reflexivity.
    + by apply acc_inv_spill.
    + rewrite concat_app. simpl. by rewrite !app_nil_r.
    + rewrite length_app. lia.
    + repeat split; done.
  - exists g, files, chunks, Cur.
    split; [reflexivity |]. split; [exact Hinv |]. repeat split; try done.
Qed.

Lemma auto_tune_spec key value g files :
  exists g',
    auto_tune key value {| self := g; disk := Some files |}
    = (Ok tt, {| self := g'; disk := Some files |}) /\
    _num_files g' = _num_files g /\
    total_num_entries g' = total_num_entries g /\
    _max_memory g' = _max_memory g /\
    _max_num_files g' =
      (if bool_decide (_max_memory g > 0 /\ total_num_entries g = 1)
       then Z.min 1000 (_max_memory g `div` (getsizeof key + getsizeof value))
       else _max_num_files g) /\
    _max_hashmap_entries g' =
      (if bool_decide (_max_memory g > 0 /\ total_num_entries g = 1)
       then _max_memory g `div` (getsizeof key + getsizeof value)
       else _max_hashmap_entries g).
Proof.
  unfold auto_tune. unfold mbind at 1, M_bind at 1, get_self at 1. cbn [self].
  case_bool_decide as Ht.
  - pose proof (getsizeof_pos key). pose proof (getsizeof_pos value).
    rewrite bool_decide_eq_false_2 by lia.
    eexists. split; [reflexivity |]. repeat split; reflexivity.
  - exists g. repeat split; reflexivity.
Qed.

Lemma tuned_later g input :
  1 <= total_num_entries g -> tuned_max_num_files g input = _max_num_files g.
Proof.
  intros Ht. unfold tuned_max_num_files. destruct input; [done |].
  rewrite bool_decide_eq_false_2 by lia. done.
Qed.

(** The accumulator loop: the pairs consumed so far are the spilled
    chunks, in order, followed by the pairs held in memory. *)
Lemma chunk_loop_spec input : forall g files chunks Cur,
  Forall value_ok (Cur ++ input) ->
  acc_inv g files chunks ->
  (Cur <> [] \/ 1 <= _max_hashmap_entries g) ->
  0 <= total_num_entries g ->
  exists g' files' chunks' Cur',
    chunk_loop input (Z.of_nat (length Cur)) (hashmap_of Cur)
      {| self := g; disk := Some files |}
    = (Ok (Z.of_nat (length Cur'), hashmap_of Cur'),
       {| self := g'; disk := Some files' |}) /\
    acc_inv g' files' chunks' /\
    concat chunks' ++ Cur' = concat chunks ++ Cur ++ input /\
    (Cur ++ input <> [] -> Cur' <> []) /\
    (length chunks <= length chunks')%nat /\
    _max_num_files g' = tuned_max_num_files g input.
Proof.
  induction input as [|[key value] rest IH]; intros g files chunks Cur Hok Hinv Hsafe Htot.
  - exists g, files, chunks, Cur. rewrite app_nil_r.
    split; [reflexivity |]. split; [exact Hinv |].
    split; [done |]. split; [done |]. split; [lia | done].
  - cbn [chunk_loop].
    assert (HokCur : Forall value_ok Cur) by (apply Forall_app in Hok; tauto).
    destruct (spill_if_full_spec g files chunks Cur HokCur Hinv Hsafe)
      as (g1 & files1 & chunks1 & Cur1 & Hspill & Hinv1 & Hcat1 & Hlen1 & Hok1 & HF1 & HM1 & HT1).
    unfold mbind at 1, M_bind at 1. rewrite Hspill.
    unfold mbind at 1, M_bind at 1. unfold update_self at 1.
    unfold mbind at 1, M_bind at 1, get_self at 1, set_self at 1. cbn [self disk].
    set (g2 := set_total_num_entries (total_num_entries g1 + 1) g1).
    destruct (auto_tune_spec key value g2 files1)
      as (g3 & Htune & Hn3 & Ht3 & Hm3 & HF3 & _).
    unfold mbind at 1, M_bind at 1. rewrite Htune.
    assert (Hsnoc : hashmap_of (Cur1 ++ [(key, value)])
                    = <[key := (hashmap_of Cur1 !!! key) ++ [py_str value]]> (hashmap_of Cur1))
      by apply hashmap_of_snoc.
    rewrite <- Hsnoc.
    replace (Z.of_nat (length Cur1) + 1) with (Z.of_nat (length (Cur1 ++ [(key, value)])))
      by (rewrite length_app; simpl; lia).
    destruct (IH g3 files1 chunks1 (Cur1 ++ [(key, value)]))
      as (g' & files' & chunks' & Cur' & Hloop & Hinv' & Hcat' & Hne' & Hlen' & HF').
    + rewrite <- app_assoc. apply Forall_app. split; [done |].
      apply Forall_app in Hok. tauto.
    + destruct Hinv1 as [Hn1 Hr1]. split; [by rewrite Hn3 | done].
    + left. by destruct Cur1.
    + rewrite Ht3. subst g2. simpl. lia.
    + exists g', files', chunks', Cur'. split; [exact Hloop |].
      split; [exact Hinv' |]. split; [| split; [| split]].
      * rewrite Hcat', <- app_assoc, app_assoc, Hcat1. by rewrite <- !app_assoc.
      * intros _. apply Hne'. by destruct Cur1.
      * lia.
      * rewrite HF', tuned_later by (rewrite Ht3; subst g2; simpl; lia).
        rewrite HF3. unfold tuned_max_num_files. subst g2. simpl.
        rewrite HM1, HT1, HF1.
        destruct (bool_decide (_max_memory g > 0 /\ total_num_entries g + 1 = 1)) eqn:E1;
          [apply bool_decide_eq_true in E1 | apply bool_decide_eq_false in E1].
        -- rewrite bool_decide_eq_true_2 by lia. done.
        -- rewrite bool_decide_eq_false_2 by lia. done.
Qed.

End accumulator.

(** ** One merge pass *)

Section merge_pass_facts.
Implicit Types files : gmap fname (list ascii).
Implicit Types ms new old : list (gmap Z (list (list ascii))).

Lemma os_remove_ok f g files :
  is_Some (files !! f) ->
  os_remove f {| self := g; disk := Some files |}
  = (Ok tt, {| self := g; disk := Some (delete f files) |}).
Proof. intros [t Ht]. unfold os_remove. unfold_M. simpl. by rewrite Ht. Qed.

Lemma shutil_move_ok src dst g files t :
  files !! src = Some t ->
  shutil_move src dst {| self := g; disk := Some files |}
  = (Ok tt, {| self := g; disk := Some (<[dst := t]> (delete src files)) |}).
Proof. intros Ht. unfold shutil_move. unfold_M. simpl. by rewrite Ht. Qed.

Lemma remove_all_ok filename_list : forall g files,
  NoDup filename_list ->
  (forall f, f ∈ filename_list -> is_Some (files !! f)) ->
  remove_all filename_list {| self := g; disk := Some files |}
  = (Ok tt, {| self := g; disk := Some (foldr delete files filename_list) |}).
Proof.
  induction filename_list as [|f fl IH]; intros g files Hnd Hall; [done |].
  apply NoDup_cons in Hnd as [Hf Hnd].
  cbn [remove_all]. unfold mbind at 1, M_bind at 1.
  rewrite os_remove_ok by (apply Hall; left).
  rewrite IH; [| done |].
  - simpl. by rewrite delete_foldr_delete.
  - intros f' Hf'. rewrite lookup_delete_ne; [apply Hall; by right |].
    intros ->. done.
Qed.

Lemma runs_at_cons files base m ms :
  runs_at files base (m :: ms) <-> good_file files base m /\ runs_at files (base + 1) ms.
Proof.
  unfold runs_at. split.
  - intros Hall. split.
    + specialize (Hall 0%nat m eq_refl). by rewrite Z.add_0_r in Hall.
    + intros i m' Hi. specialize (Hall (S i) m' Hi).
      by replace (base + 1 + Z.of_nat i) with (base + Z.of_nat (S i)) by lia.
  - intros [H0 Hall] [|i] m' Hi; simpl in Hi.
    + simplify_eq. by rewrite Z.add_0_r.
    + specialize (Hall i m' Hi).
      by replace (base + Z.of_nat (S i)) with (base + 1 + Z.of_nat i) by lia.
Qed.

Lemma runs_at_nil files base : runs_at files base [].
Proof. intros i m Hi. done. Qed.

Lemma runs_at_app files base ms1 ms2 :
  runs_at files base (ms1 ++ ms2) <->
  runs_at files base ms1 /\ runs_at files (base + Z.of_nat (length ms1)) ms2.
Proof.
  revert base; induction ms1 as [|m ms1 IH]; intros base; simpl.
  - rewrite Z.add_0_r. split; [intros ?; split; [apply runs_at_nil | done] | tauto].
  - rewrite !runs_at_cons, IH.
    replace (base + 1 + Z.of_nat (length ms1)) with (base + Z.pos (Pos.of_succ_nat (length ms1)))
      by lia. tauto.
Qed.

(** Files outside a range do not matter to the runs in it. *)
Lemma runs_at_ext files files' base ms :
  (forall i, base <= i < base + Z.of_nat (length ms) ->
             files' !! dump_ i = files !! dump_ i) ->
  runs_at files base ms -> runs_at files' base ms.
Proof.
  intros Heq Hruns i m Hi. destruct (Hruns i m Hi) as (Hm & Hok & t & Ht & Hst).
  repeat split; try done. exists t. split; [| done].
  rewrite Heq; [done |]. apply lookup_lt_Some in Hi. lia.
Qed.

Lemma runs_at_Forall2 files ms : forall base,
  runs_at files base ms ->
  Forall2 (fun f m => m <> ∅ /\ exists t, files !! f = Some t /\ stored t m)
    (dump_ <$> seqZ base (Z.of_nat (length ms))) ms.
Proof.
  induction ms as [|m ms IH]; intros base Hruns; [constructor |].
  apply runs_at_cons in Hruns as [(Hm & _ & Hfile) Hruns].
  replace (Z.of_nat (length (m :: ms))) with (Z.succ (Z.of_nat (length ms)))
    by (simpl; lia).
  rewrite seqZ_cons by lia. rewrite Z.pred_succ. rewrite fmap_cons.
  constructor; [done |]. replace (Z.succ base) with (base + 1) by lia. by apply IH.
Qed.

Lemma runs_at_ok files base ms : runs_at files base ms -> Forall map_ok ms.
Proof.
  intros Hruns. rewrite Forall_forall. intros m Hm.
  apply list_elem_of_lookup in Hm as [i Hi]. by destruct (Hruns i m Hi) as (_ & ? & _).
Qed.

Lemma runs_at_nonempty files base ms m : runs_at files base ms -> m ∈ ms -> m <> ∅.
Proof.
  intros Hruns Hm. apply list_elem_of_lookup in Hm as [i Hi].
  by destruct (Hruns i m Hi) as (? & _).
Qed.

Lemma elem_of_dump_seqZ i base len :
  dump_ i ∈ dump_ <$> seqZ base len <-> base <= i < base + len.
Proof.
  rewrite list_elem_of_fmap. split.
  - intros [i' [[= ->] Hin]]. apply elem_of_seqZ in Hin. lia.
  - intros Hi. exists i. split; [done |]. apply elem_of_seqZ. lia.
Qed.

Lemma NoDup_dump_seqZ base len : NoDup (dump_ <$> seqZ base len).
Proof. apply NoDup_fmap_2; [by intros ? ? [= ?] | apply NoDup_seqZ]. Qed.

Lemma munion_singleton (m : gmap Z (list (list ascii))) : munion [m] = m.
Proof. simpl. apply mappend_empty_r. Qed.

Lemma munion_nonempty ms : ms <> [] -> (forall m, m ∈ ms -> m <> ∅) -> munion ms <> ∅.
Proof.
  destruct ms as [|m ms]; [done |]. intros _ Hall. simpl.
  apply mappend_nonempty_l, Hall. left.
Qed.

(** One group of a pass: the runs [base .. base + max_num_files) that
    are left become the single run [dump_j]; earlier output and later
    input stay as they are. *)
Lemma merge_group_spec g files j base new old :
  2 <= _max_num_files g -> old <> [] ->
  _num_files g = base + Z.of_nat (length old) ->
  0 <= j <= base -> Z.of_nat (length new) = j ->
  runs_at files 0 new -> runs_at files base old ->
  exists files',
    merge_group base j {| self := g; disk := Some files |}
    = (Ok tt, {| self := g; disk := Some files' |}) /\
    runs_at files' 0 (new ++ [munion (take (Z.to_nat (_max_num_files g)) old)]) /\
    runs_at files' (base + _max_num_files g) (drop (Z.to_nat (_max_num_files g)) old) /\
    (forall i, i <> j ->
       ~ (base <= i < Z.min (_num_files g) (base + _max_num_files g)) ->
       files' !! dump_ i = files !! dump_ i) /\
    (forall i, i <> j ->
       base <= i < Z.min (_num_files g) (base + _max_num_files g) ->
       files' !! dump_ i = None).
Proof.
  intros Hm Hne Hn Hj Hlen Hnew Hold.
  set (m := _max_num_files g) in *.
  remember (take (Z.to_nat m) old) as grp eqn:Etake.
  assert (Hsplit : old = grp ++ drop (Z.to_nat m) old) by (rewrite Etake; symmetry; apply take_drop).
  assert (Hglen : (1 <= length grp <= Z.to_nat m)%nat).
  { rewrite Etake, length_take. destruct old; [done | simpl; lia]. }
  assert (Hrange : py_range base (Z.min (_num_files g) (base + m))
                   = seqZ base (Z.of_nat (length grp))).
  { unfold py_range. f_equal. rewrite Etake, length_take. lia. }
  assert (Hlast : Z.min (_num_files g) (base + m) = base + Z.of_nat (length grp)).
  { rewrite Etake, length_take. lia. }
  rewrite Hsplit in Hold. apply runs_at_app in Hold as [Hgrp Hrest].
  assert (Hgok : map_ok (munion grp)) by (eapply map_ok_munion, runs_at_ok, Hgrp).
  assert (Hgne : munion grp <> ∅).
  { apply munion_nonempty; [by destruct grp; simpl in *; [lia |] |].
    intros m' Hm'. eapply runs_at_nonempty; [exact Hgrp | done]. }
  (* what remains true of the files that the group does not touch *)
  assert (Hout : forall files' t,
    (forall i, i <> j -> ~ (base <= i < base + Z.of_nat (length grp)) ->
               files' !! dump_ i = files !! dump_ i) ->
    files' !! dump_ j = Some t -> stored t (munion grp) ->
    runs_at files' 0 (new ++ [munion grp]) /\
    runs_at files' (base + m) (drop (Z.to_nat m) old)).
  { intros files' t Hsame Hj' Hst. split.
    - apply runs_at_app. split.
      + eapply runs_at_ext; [| exact Hnew]. intros i Hi. apply Hsame; lia.
      + apply runs_at_cons. split; [| apply runs_at_nil].
        rewrite Z.add_0_l, Hlen. repeat split; try done. by exists t.
    - destruct (decide (length grp = Z.to_nat m)) as [Hfull | Hshort].
      + eapply runs_at_ext; [| by rewrite Hfull, Z2Nat.id in Hrest by lia].
        intros i Hi. apply Hsame; lia.
      + assert (Hd : drop (Z.to_nat m) old = []).
        { apply drop_ge. rewrite Etake, length_take in Hshort, Hglen. lia. }
        rewrite Hd. apply runs_at_nil. }
  unfold merge_group. unfold mbind at 1, M_bind at 1, get_self at 1. cbn [self].
  fold m. rewrite Hrange.
  change (_get_dump_filename <$> seqZ base (Z.of_nat (length grp)))
    with (dump_ <$> seqZ base (Z.of_nat (length grp))).
  pose proof (runs_at_Forall2 _ _ _ Hgrp) as Hall.
  clear Etake. destruct grp as [|m0 [|m1 grp']]; [simpl in Hglen; lia | |].
  - (* a single run: renamed *)
    replace (seqZ base (Z.of_nat (length [m0]))) with [base] by reflexivity.
    cbn [fmap list_fmap]. unfold _get_dump_filename.
    apply runs_at_cons in Hgrp as [(Hm0 & Hok0 & t & Ht & Hst) _].
    rewrite (shutil_move_ok _ _ _ _ t) by done.
    eexists. split; [reflexivity |].
    assert (Hsame : forall i, i <> j -> ~ (base <= i < base + Z.of_nat (length [m0])) ->
              <[dump_ j := t]> (delete (dump_ base) files) !! dump_ i = files !! dump_ i).
    { intros i Hij Hi. rewrite lookup_insert_ne by (intros [= ?]; lia).
      rewrite lookup_delete_ne; [done |]. intros [= ?]. simpl in Hi. lia. }
    destruct (Hout _ t Hsame) as [Hr1 Hr2];
      [apply lookup_insert_eq | by rewrite munion_singleton |].
    split; [done |]. split; [done |]. rewrite Hlast. split; [exact Hsame |].
    intros i Hij Hi. rewrite lookup_insert_ne by (intros [= ?]; lia).
    replace i with base by (simpl in Hi; lia). apply lookup_delete_eq.
  - (* several runs: merged into [_merge], removed, then renamed *)
    remember (m0 :: m1 :: grp') as grp eqn:Egrp.
    set (filename_list := dump_ <$> seqZ base (Z.of_nat (length grp))) in *.
    assert (Hfl : exists f1 f2 fl, filename_list = f1 :: f2 :: fl).
    { apply Forall2_length in Hall.
      destruct filename_list as [|f1 [|f2 fl]];
        rewrite Egrp in Hall; simpl in Hall; try done. eauto. }
    destruct Hfl as (f1 & f2 & fl & Hfl). rewrite Hfl. rewrite <- Hfl.
    unfold mbind at 1, M_bind at 1, get_disk at 1. cbn [disk].
    destruct (MergeFileIterator_init_spec files filename_list grp Hall)
      as (it & Hinit & Hdel & _).
    unfold mbind at 1, M_bind at 1, lift at 1. rewrite Hinit.
    unfold mbind at 1, M_bind at 1.
    rewrite (write_key_values_to_file_yields it _ _ _ _ (delivers_yields _ _ Hdel)
               (delivers_length _ _ Hdel)).
    unfold mbind at 1, M_bind at 1.
    rewrite remove_all_ok.
    2: { apply NoDup_dump_seqZ. }
    2: { intros f Hf. rewrite lookup_insert_ne.
         - apply list_elem_of_lookup in Hf as [i Hi].
           destruct (Forall2_lookup_l _ _ _ _ _ Hall Hi) as (m' & _ & _ & t & -> & _). eauto.
         - intros <-. apply list_elem_of_fmap in Hf as [? [? _]]. done. }
    cbn [_get_merge_filename _get_dump_filename].
    erewrite shutil_move_ok.
    2: { rewrite lookup_foldr_delete_not_elem_of; [apply lookup_insert_eq |].
         intros Hf. apply list_elem_of_fmap in Hf as [? [? _]]. done. }
    eexists. split; [reflexivity |].
    match goal with |- runs_at ?fs _ _ /\ _ => set (files' := fs) end.
    assert (Hsame : forall i, i <> j -> ~ (base <= i < base + Z.of_nat (length grp)) ->
              files' !! dump_ i = files !! dump_ i).
    { intros i Hij Hi. subst files'. rewrite lookup_insert_ne by (intros [= ?]; lia).
      rewrite lookup_delete_ne by done.
      rewrite lookup_foldr_delete_not_elem_of.
      - by rewrite lookup_insert_ne.
      - subst filename_list. rewrite elem_of_dump_seqZ. lia. }
    edestruct (fun t => Hout files' t Hsame) as [Hr1 Hr2];
      [unfold files'; apply lookup_insert_eq | by apply stored_merged |].
    split; [done |]. split; [done |]. rewrite Hlast. split; [exact Hsame |].
    intros i Hij Hi. subst files'. rewrite lookup_insert_ne by (intros [= ?]; lia).
    rewrite lookup_delete_ne by done.
    apply lookup_foldr_delete. subst filename_list. rewrite elem_of_dump_seqZ. lia.
Qed.

End merge_pass_facts.

Section merge_loop_facts.
Implicit Types files : gmap fname (list ascii).
Implicit Types ms new old : list (gmap Z (list (list ascii))).

Lemma groups_step (L m : Z) :
  2 <= m -> 1 <= L ->
  (L + m - 1) `div` m = 1 + (Z.max 0 (L - m) + m - 1) `div` m.
Proof.
  intros Hm HL. destruct (decide (m <= L)) as [Hle | Hgt].
  - rewrite Z.max_r by lia.
    replace (L + m - 1) with ((L - m + m - 1) + 1 * m) by lia.
    rewrite Z.div_add by lia. lia.
  - rewrite Z.max_l by lia. rewrite (Z.div_small (0 + m - 1)) by lia.
    replace (L + m - 1) with ((L - 1) + 1 * m) by lia.
    rewrite Z.div_add by lia. rewrite Z.div_small by lia. lia.
Qed.

Lemma groups_pos (L m : Z) : 2 <= m -> 1 <= L -> 1 <= (L + m - 1) `div` m.
Proof.
  intros Hm HL. rewrite groups_step by done.
  assert (0 <= (Z.max 0 (L - m) + m - 1) `div` m) by (apply Z.div_pos; lia). lia.
Qed.

Lemma groups_lt (L m : Z) : 2 <= m -> m < L -> (L + m - 1) `div` m < L.
Proof.
  intros Hm HL. apply Z.div_lt_upper_bound; [lia |]. nia.
Qed.

(** A whole pass turns the runs left into [ceil(n / max_num_files)]
    runs that read back as the same multimap. *)
Lemma merge_pass_spec (cnt : nat) : forall j new old g files,
  2 <= _max_num_files g ->
  (old <> [] -> _num_files g = j * _max_num_files g + Z.of_nat (length old)) ->
  0 <= j -> Z.of_nat (length new) = j ->
  runs_at files 0 new -> runs_at files (j * _max_num_files g) old ->
  Z.of_nat cnt = (Z.of_nat (length old) + _max_num_files g - 1) `div` _max_num_files g ->
  exists files' new',
    merge_pass ((fun j' => j' * _max_num_files g) <$> seqZ j (Z.of_nat cnt)) j
      {| self := g; disk := Some files |}
    = (Ok (j + Z.of_nat cnt), {| self := g; disk := Some files' |}) /\
    runs_at files' 0 new' /\
    Z.of_nat (length new') = j + Z.of_nat cnt /\
    munion new' = mappend (munion new) (munion old).
Proof.
  induction cnt as [|cnt IH]; intros j new old g files Hm Hn Hj Hlen Hnew Hold Hcnt.
  - assert (old = []) as ->.
    { destruct old as [|x old]; [done |]. exfalso.
      pose proof (groups_pos (Z.of_nat (length (x :: old))) (_max_num_files g) Hm).
      simpl length in *. lia. }
    exists files, new. simpl. rewrite Z.add_0_r, mappend_empty_r. done.
  - assert (Hne : old <> []).
    { intros ->. simpl in Hcnt. rewrite Z.div_small in Hcnt by lia. lia. }
    specialize (Hn Hne).
    replace (Z.of_nat (S cnt)) with (Z.succ (Z.of_nat cnt)) in * by lia.
    rewrite seqZ_cons by lia. rewrite Z.pred_succ, fmap_cons. cbn [merge_pass].
    destruct (merge_group_spec g files j (j * _max_num_files g) new old)
      as (files1 & Hgroup & Hnew1 & Hold1 & _); try done; [nia |].
    unfold mbind at 1, M_bind at 1. rewrite Hgroup.
    set (m := _max_num_files g) in *.
    destruct (IH (j + 1) (new ++ [munion (take (Z.to_nat m) old)])
                (drop (Z.to_nat m) old) g files1) as (files' & new' & Hpass & Hnew' & Hlen' & Hun);
      try done; try lia.
    + intros Hd. rewrite length_drop.
      assert (Z.to_nat m < length old)%nat.
      { destruct (decide (Z.to_nat m < length old)%nat); [done |].
        exfalso. apply Hd, drop_ge. lia. }
      fold m. lia.
    + rewrite length_app. simpl. lia.
    + fold m. by replace ((j + 1) * m) with (j * m + m) by lia.
    + fold m. rewrite length_drop.
      pose proof (groups_step (Z.of_nat (length old)) m Hm) as Hstep.
      destruct old; [done |]. simpl length in *.
      replace (Z.of_nat (S (length old) - Z.to_nat m))
        with (Z.max 0 (Z.of_nat (S (length old)) - m)) by lia. lia.
    + exists files', new'. replace (Z.succ j) with (j + 1) by lia.
      fold m in Hpass. rewrite Hpass. split; [f_equal; f_equal; lia |].
      split; [done |]. split; [lia |].
      rewrite Hun, munion_app, munion_singleton, <- mappend_assoc, <- munion_app.
      by rewrite take_drop.
Qed.

(** The merge loop when a pass is possible or not needed. *)
Lemma merge_dump_files_spec fuel : forall g files ms,
  _num_files g = Z.of_nat (length ms) -> ms <> [] ->
  runs_at files 0 ms -> (length ms <= fuel)%nat ->
  2 <= _max_num_files g \/ _num_files g <= _max_num_files g ->
  exists g' files' ms',
    _merge_dump_files fuel {| self := g; disk := Some files |}
    = (Ok tt, {| self := g'; disk := Some files' |}) /\
    _num_files g' = Z.of_nat (length ms') /\ ms' <> [] /\
    runs_at files' 0 ms' /\ munion ms' = munion ms /\
    _num_files g' <= _max_num_files g' /\
    _max_num_files g' = _max_num_files g.
Proof.
  induction fuel as [|fuel IH]; intros g files ms Hn Hne Hruns Hfuel Hm.
  { destruct ms; [done | simpl in Hfuel; lia]. }
  cbn [_merge_dump_files]. unfold mbind at 1, M_bind at 1, get_self at 1. cbn [self].
  case_bool_decide as Hgt.
  2: { exists g, files, ms. split; [reflexivity |].
       split; [done |]. split; [done |]. split; [done |]. split; [done |].
       split; [lia | done]. }
  destruct Hm as [Hm | Hm]; [| lia].
  rewrite bool_decide_eq_false_2 by lia.
  unfold py_range_step. rewrite bool_decide_eq_true_2 by lia.
  set (m := _max_num_files g) in *.
  assert (Hcnt : exists cnt : nat,
    Z.of_nat cnt = (Z.of_nat (length ms) + m - 1) `div` m).
  { exists (Z.to_nat ((Z.of_nat (length ms) + m - 1) `div` m)).
    rewrite Z2Nat.id; [done |]. apply Z.div_pos; lia. }
  destruct Hcnt as [cnt Hcnt].
  destruct (merge_pass_spec cnt 0 [] ms g files) as (files1 & ms1 & Hpass & Hruns1 & Hlen1 & Hun1);
    try done; try lia.
  rewrite Hn, <- Hcnt. fold m in Hpass.
  unfold mbind at 1, M_bind at 1. rewrite Hpass.
  unfold mbind at 1, M_bind at 1, update_self at 1.
  unfold mbind at 1, M_bind at 1, get_self at 1, set_self at 1. cbn [self disk].
  unfold mbind at 1, M_bind at 1, update_self at 1.
  unfold mbind at 1, M_bind at 1, get_self at 1, set_self at 1. cbn [self disk].
  set (g1 := set_num_merge_stages _ _).
  assert (Hpos : 1 <= Z.of_nat cnt).
  { rewrite Hcnt. apply groups_pos; [done |]. destruct ms; [done | simpl; lia]. }
  assert (Hlt : Z.of_nat cnt < Z.of_nat (length ms)).
  { rewrite Hcnt. apply groups_lt; [done | lia]. }
  assert (H1 : _num_files g1 = Z.of_nat (length ms1)) by (subst g1; simpl; lia).
  assert (H2 : ms1 <> []) by (intros ->; simpl in Hlen1; lia).
  assert (H3 : (length ms1 <= fuel)%nat) by lia.
  assert (H4 : 2 <= _max_num_files g1 \/ _num_files g1 <= _max_num_files g1)
    by (left; subst g1; simpl; done).
  destruct (IH g1 files1 ms1 H1 H2 Hruns1 H3 H4)
    as (g' & files' & ms' & Hloop & Hn' & Hne' & Hruns' & Hun' & Hle' & HF').
  exists g', files', ms'. split; [exact Hloop |].
  split; [done |]. split; [done |]. split; [done |].
  split; [| split; [done |]].
  + rewrite Hun', Hun1. simpl. apply mappend_empty_l.
  + rewrite HF'. subst g1. reflexivity.
Qed.

(** The merge loop when a pass is needed and [max_num_files < 2]. *)
Lemma merge_dump_files_fail fuel g files :
  _num_files g > _max_num_files g -> _max_num_files g < 2 ->
  _merge_dump_files (S fuel) {| self := g; disk := Some files |}
  = (Raise TypeError, {| self := g; disk := None |}).
Proof.
  intros Hgt Hlt. cbn [_merge_dump_files].
  unfold mbind at 1, M_bind at 1, get_self at 1. cbn [self].
  rewrite !bool_decide_eq_true_2 by done. reflexivity.
Qed.

End merge_loop_facts.

(** ** Consuming the result iterators *)

Section drain_facts.

Lemma drain_loop_memory keys : forall hashmap fuel out w,
  (length keys < fuel)%nat ->
  drain_loop fuel
    (FromMemory {| _hashmap := hashmap; _iter := keys;
                   _remaining_elements := Z.of_nat (length keys) |}) out w
  = (Ok (out ++ ((fun key => (key, hashmap !!! key)) <$> keys),
         FromMemory {| _hashmap := hashmap; _iter := [];
                       _remaining_elements := 0 |}), w).
Proof.
  induction keys as [|key keys IH]; intros hashmap fuel out w Hfuel.
  - destruct fuel; simpl; by rewrite app_nil_r.
  - destruct fuel as [|fuel]; [simpl in Hfuel; lia |].
    cbn [drain_loop hasNext]. unfold KeyListIteratorFromMemory_hasNext.
    cbn [_remaining_elements].
    rewrite bool_decide_eq_true_2 by (simpl; lia).
    unfold next, KeyListIteratorFromMemory_next. cbn [_iter _hashmap _remaining_elements].
    unfold mbind at 1, M_bind at 1. unfold mbind at 1, M_bind at 1, lift at 1.
    unfold mret at 1, M_ret at 1.
    replace (Z.of_nat (length (key :: keys)) - 1) with (Z.of_nat (length keys))
      by (simpl; lia).
    rewrite IH by (simpl in Hfuel; lia).
    rewrite <- app_assoc. reflexivity.
Qed.

Lemma drain_memory hashmap w :
  exists it',
    drain (FromMemory (KeyListIteratorFromMemory_init hashmap)) w
    = (Ok (run_of_map hashmap, it'), w) /\ hasNext it' = false.
Proof.
  eexists. unfold drain, KeyListIteratorFromMemory_init. cbn [result_size _iter].
  rewrite drain_loop_memory by lia. split; reflexivity.
Qed.

Lemma delivers_nil_heap l : delivers {| _heap := [] |} l -> l = [].
Proof. inversion 1; simplify_eq; done. Qed.

Lemma drain_loop_disk it l :
  delivers it l -> forall fuel out g files,
  _heap it <> [] -> (heap_size (_heap it) < fuel)%nat ->
  drain_loop fuel (FromDisk {| _merge_file_iterator := it |}) out
    {| self := g; disk := Some files |}
  = (Ok (out ++ l, FromDisk {| _merge_file_iterator := {| _heap := [] |} |}),
     {| self := g; disk := None |}).
Proof.
  induction 1 as [| it x it' l Hne Hnext Hdel IH]; intros fuel out g files Hne' Hfuel;
    [done |].
  destruct fuel as [|fuel]; [lia |].
  cbn [drain_loop hasNext].
  unfold KeyListIteratorFromDisk_hasNext at 1, MergeFileIterator_hasNext at 1.
  cbn [_merge_file_iterator].
  rewrite bool_decide_eq_true_2 by done.
  unfold next, KeyListIteratorFromDisk_next. cbn [_merge_file_iterator].
  unfold mbind at 1, M_bind at 1. unfold mbind at 1, M_bind at 1.
  unfold mbind at 1, M_bind at 1, lift at 1. rewrite Hnext.
  unfold KeyListIteratorFromDisk_hasNext, MergeFileIterator_hasNext.
  cbn [_merge_file_iterator].
  pose proof (MergeFileIterator_next_size _ _ _ Hnext) as Hsize.
  destruct it' as [heap']. cbn [_heap] in *.
  destruct heap' as [|e heap'].
  - apply delivers_nil_heap in Hdel as ->.
    rewrite bool_decide_eq_false_2 by (intros Hx; by apply Hx).
    cbn [negb]. unfold mbind at 1, M_bind at 1.
    destruct fuel; reflexivity.
  - rewrite bool_decide_eq_true_2 by done. cbn [negb].
    unfold mbind at 1, M_bind at 1, mret at 1, M_ret at 1.
    unfold mret, M_ret. cbn beta iota.
    rewrite IH by (done || lia). by rewrite <- app_assoc.
Qed.

Lemma drain_disk it l g files :
  delivers it l -> _heap it <> [] ->
  drain (FromDisk {| _merge_file_iterator := it |}) {| self := g; disk := Some files |}
  = (Ok (l, FromDisk {| _merge_file_iterator := {| _heap := [] |} |}),
     {| self := g; disk := None |}).
Proof.
  intros Hdel Hne. unfold drain. cbn [result_size _merge_file_iterator].
  by rewrite (drain_loop_disk it l Hdel) by (done || lia).
Qed.

End drain_facts.

(** ** The engine *)

Section engine_facts.
Context {V : Type} {V_str : PyStr V} {Z_size : GetSizeOf Z} {V_size : GetSizeOf V}.
Implicit Types input : list (Z * V).

Lemma chunk_input_spec input g files :
  Forall value_ok input -> _num_files g = 0 -> 0 <= total_num_entries g ->
  1 <= _max_hashmap_entries g ->
  exists g' files',
    _max_num_files g' = tuned_max_num_files g input /\
    ((_chunk_input_into_dump_files input {| self := g; disk := Some files |}
      = (Ok (Some (hashmap_of input)), {| self := g'; disk := Some files' |}) /\
      _num_files g' = 0) \/
     (exists chunks,
        _chunk_input_into_dump_files input {| self := g; disk := Some files |}
        = (Ok None, {| self := g'; disk := Some files' |}) /\
        acc_inv g' files' chunks /\ concat chunks = input /\ chunks <> [])).
Proof.
  intros Hok Hn Htot HM.
  assert (Hinv0 : acc_inv g files ([] : list (list (Z * V))))
    by (split; [done | apply runs_at_nil]).
  destruct (chunk_loop_spec input g files [] [] Hok Hinv0 (or_intror HM) Htot) as
    (g1 & files1 & chunks1 & Cur1 & Hloop & Hinv1 & Hcat1 & Hne1 & _ & HF1).
  change (Z.of_nat (length (@nil (Z * V)))) with 0 in Hloop.
  change (hashmap_of (@nil (Z * V))) with (∅ : gmap Z (list (list ascii))) in Hloop.
  simpl in Hcat1. pose proof Hinv1 as [Hn1 Hr1].
  assert (HokCur : Forall value_ok Cur1).
  { rewrite <- Hcat1 in Hok. apply Forall_app in Hok. tauto. }
  destruct (decide (_num_files g1 = 0)) as [Hz | Hz];
    [| destruct (decide (Z.of_nat (length Cur1) <> 0)) as [Hc | Hc]].
  - exists g1, files1. split; [done |]. left.
    assert (chunks1 = []) as -> by (destruct chunks1; [done | simpl in Hn1; lia]).
    simpl in Hcat1. subst Cur1. split; [| done].
    unfold _chunk_input_into_dump_files.
    unfold mbind at 1, M_bind at 1. rewrite Hloop.
    unfold mbind at 1, M_bind at 1, get_self at 1. cbn [self].
    by rewrite bool_decide_eq_true_2.
  - assert (HCne : Cur1 <> []) by (intros ->; done).
    exists (set_spills (spills g1 + 1) (set_num_files (_num_files g1 + 1) g1)),
      (<[dump_ (_num_files g1) := file_text (run_of_map (hashmap_of Cur1))]> files1).
    split; [| right; exists (chunks1 ++ [Cur1]); split].
    + simpl. exact HF1.
    + unfold _chunk_input_into_dump_files.
      unfold mbind at 1, M_bind at 1. rewrite Hloop.
      unfold mbind at 1, M_bind at 1, get_self at 1. cbn [self].
      rewrite bool_decide_eq_false_2, bool_decide_eq_true_2 by done.
      unfold mbind at 1, M_bind at 1. unfold mbind at 1, M_bind at 1.
      unfold _get_dump_filename. rewrite dump_spec. reflexivity.
    + split; [by apply acc_inv_spill |]. split.
      * rewrite concat_app. simpl. by rewrite app_nil_r.
      * by destruct chunks1.
  - assert (Cur1 = []) as -> by (destruct Cur1; [done | simpl in Hc; lia]).
    exists g1, files1. split; [done |]. right. exists chunks1.
    split; [| split; [done |]].
    + unfold _chunk_input_into_dump_files.
      unfold mbind at 1, M_bind at 1. rewrite Hloop.
      unfold mbind at 1, M_bind at 1, get_self at 1. cbn [self].
      rewrite !bool_decide_eq_false_2 by done. reflexivity.
    + rewrite app_nil_r in Hcat1.
      split; [done |]. intros ->. simpl in Hn1. done.
Qed.

(** What [groupBy] returns: the in-memory iterator over the reference
    hashmap; or a disk iterator that delivers the reference run; or,
    when a pass is needed and the fan-in is below 2, [TypeError] after
    removing the request directory. *)
Lemma groupBy_spec g d input :
  Forall value_ok input -> 1 <= _max_hashmap_entries g ->
  (exists w',
     GroupByStatement_groupBy input {| self := g; disk := d |}
     = (Ok (FromMemory (KeyListIteratorFromMemory_init (hashmap_of input))), w') /\
     (input <> [] -> disk w' = None)) \/
  (exists it g' files',
     GroupByStatement_groupBy input {| self := g; disk := d |}
     = (Ok (FromDisk {| _merge_file_iterator := it |}),
        {| self := g'; disk := Some files' |}) /\
     delivers it (run_of_map (squeeze <$> hashmap_of input)) /\ _heap it <> [] /\
     1 <= _num_files g' <= _max_num_files g' /\
     _max_num_files g' = tuned_max_num_files (reset_statistics g) input) \/
  (exists g',
     GroupByStatement_groupBy input {| self := g; disk := d |}
     = (Raise TypeError, {| self := g'; disk := None |}) /\
     tuned_max_num_files (reset_statistics g) input < 2 /\
     _num_files g' > tuned_max_num_files (reset_statistics g) input).
Proof.
  intros Hok HM.
  destruct input as [|kv input'] eqn:Einput.
  { left. eexists. split; [reflexivity | done]. }
  rewrite <- Einput in *.
  assert (Hunfold :
    GroupByStatement_groupBy input {| self := g; disk := d |}
    = (_chunk_input_into_dump_files input ≫= fun result =>
       match result with
       | Some hashmap =>
           shutil_rmtree;;
           mret (FromMemory (KeyListIteratorFromMemory_init hashmap))
       | None =>
           g ← get_self;
           _merge_dump_files (Z.to_nat (_num_files g));;
           g ← get_self;
           d ← get_disk;
           it ← lift (KeyListIteratorFromDisk_init
                        (_get_dump_filename <$> py_range 0 (_num_files g)) d);
           mret (FromDisk it)
       end) {| self := reset_statistics g; disk := Some ∅ |}).
  { rewrite Einput. reflexivity. }
  rewrite Hunfold. clear Hunfold Einput kv input'.
  destruct (chunk_input_spec input (reset_statistics g) ∅ Hok)
    as (g1 & files1 & HF1 & [[Hchunk Hn1] | (chunks & Hchunk & Hinv & Hcat & Hne)]);
    try done; rewrite (bind_ok _ _ _ _ _ Hchunk).
  - (* the whole input fits in memory *)
    left. eexists. split; [reflexivity | done].
  - (* spilled *)
    destruct Hinv as [Hn Hruns].
    assert (Hms : hashmap_of <$> chunks <> []) by (by destruct chunks).
    assert (Hlen : _num_files g1 = Z.of_nat (length (hashmap_of <$> chunks)))
      by (by rewrite length_fmap).
    rewrite (bind_ok get_self _ _ g1 {| self := g1; disk := Some files1 |}) by reflexivity.
    destruct (decide (2 <= _max_num_files g1 \/ _num_files g1 <= _max_num_files g1))
      as [Hcan | Hcannot].
    + right; left.
      destruct (merge_dump_files_spec (Z.to_nat (_num_files g1)) g1 files1
                  (hashmap_of <$> chunks) Hlen Hms Hruns) as
        (g2 & files2 & ms2 & Hloop & Hn2 & Hne2 & Hruns2 & Hun2 & Hle2 & HF2);
        [lia | done |].
      rewrite (bind_ok _ _ _ _ _ Hloop).
      rewrite (bind_ok get_self _ _ g2 {| self := g2; disk := Some files2 |}) by reflexivity.
      rewrite (bind_ok get_disk _ _ (Some files2) {| self := g2; disk := Some files2 |})
        by reflexivity.
      pose proof (runs_at_Forall2 _ _ _ Hruns2) as Hall.
      destruct (MergeFileIterator_init_spec files2 _ ms2 Hall) as (it & Hinit & Hdel & Hheap).
      exists it, g2, files2. split; [| split; [| split; [| split]]].
      * erewrite bind_ok; [reflexivity |].
        unfold lift, KeyListIteratorFromDisk_init, py_range, _get_dump_filename.
        rewrite Hn2, Z.sub_0_r.
        change ((fun index : Z => dump_ index) <$> seqZ 0 (Z.of_nat (length ms2)))
          with (dump_ <$> seqZ 0 (Z.of_nat (length ms2))).
        rewrite Hinit. reflexivity.
      * by rewrite Hun2, hashmap_of_concat, Hcat in Hdel.
      * apply Hheap. destruct ms2; [done |].
        rewrite seqZ_cons by (simpl; lia). done.
      * split; [| done]. destruct ms2; [done | simpl in Hn2; lia].
      * by rewrite HF2.
    + right; right. exists g1.
      assert (Hpos : (0 < Z.to_nat (_num_files g1))%nat).
      { destruct chunks; [done | simpl in Hn; lia]. }
      destruct (Z.to_nat (_num_files g1)) as [|fuel] eqn:Efuel; [lia |].
      split; [| rewrite <- HF1; lia].
      erewrite bind_raise; [reflexivity |].
      apply merge_dump_files_fail; lia.
Qed.

End engine_facts.

(** ** The grouped output as a multiset *)

Section multiset_facts.
Context {V : Type} {V_str : PyStr V}.
Implicit Types S : list (Z * V).

Lemma flatten_cons e out :
  flatten (e :: out) = ((fun v => (e.1, v)) <$> e.2) ++ flatten out.
Proof. reflexivity. Qed.

Lemma flatten_perm (out out' : list (Z * list (list ascii))) :
  out ≡ₚ out' -> flatten out ≡ₚ flatten out'.
Proof.
  induction 1 as [| e l l' _ IH | e1 e2 l | l1 l2 l3 _ IH1 _ IH2].
  - done.
  - rewrite !flatten_cons. by rewrite IH.
  - rewrite !flatten_cons, !app_assoc. f_equiv. apply Permutation_app_comm.
  - by rewrite IH1.
Qed.

Lemma flatten_map_insert (m : gmap Z (list (list ascii))) k v :
  flatten (map_to_list (<[k := (m !!! k) ++ [v]]> m))
  ≡ₚ flatten (map_to_list m) ++ [(k, v)].
Proof.
  rewrite lookup_total_alt. destruct (m !! k) as [l|] eqn:Hk; simpl.
  - rewrite <- insert_delete_eq.
    rewrite (flatten_perm _ _ (map_to_list_insert _ _ _ (lookup_delete_eq m k))).
    rewrite <- (flatten_perm _ _ (map_to_list_delete _ _ _ Hk)).
    rewrite !flatten_cons. simpl. rewrite fmap_app. simpl.
    rewrite <- !app_assoc. f_equiv. apply Permutation_app_comm.
  - rewrite (flatten_perm _ _ (map_to_list_insert _ _ _ Hk)).
    rewrite flatten_cons. simpl. apply Permutation_cons_append.
Qed.

(** The reference output holds exactly the pairs of the input. *)
Lemma flatten_compute_hashmap S : flatten (compute_hashmap S) ≡ₚ rendered S.
Proof.
  unfold compute_hashmap. rewrite (flatten_perm _ _ (run_of_map_perm _)).
  induction S as [|[k v] S IH] using rev_ind; [done |].
  rewrite hashmap_of_snoc. simpl. rewrite flatten_map_insert, IH.
  unfold rendered. by rewrite fmap_app.
Qed.

Lemma squeeze_id vs : Forall (fun w => w <> []) vs -> squeeze vs = vs.
Proof.
  unfold squeeze. induction 1 as [|w vs Hw _ IH]; [done |].
  by rewrite filter_cons_True, IH.
Qed.

Lemma fmap_squeeze_hashmap_of S :
  Forall (fun kv => py_str kv.2 <> []) S -> squeeze <$> hashmap_of S = hashmap_of S.
Proof.
  intros HS. apply map_eq; intros k. rewrite lookup_fmap, lookup_hashmap_of.
  destruct (values_of k S) as [|w ws] eqn:E; [done |]. simpl. f_equal.
  apply squeeze_id. rewrite <- E. unfold values_of. rewrite Forall_fmap.
  rewrite Forall_forall in HS |- *. intros kv [_ Hin]%list_elem_of_filter.
  by apply HS.
Qed.

Lemma elem_of_rendered_group S k v :
  (k, v) ∈ rendered S -> exists vs, (k, vs) ∈ compute_hashmap S /\ v ∈ vs.
Proof.
  intros Hin. exists (values_of k S).
  assert (Hv : v ∈ values_of k S).
  { unfold rendered in Hin. apply list_elem_of_fmap in Hin as [[k' v'] [[= -> ->] Hin]].
    unfold values_of. apply list_elem_of_fmap. exists (k', v'). split; [done |].
    apply list_elem_of_filter. done. }
  split; [| done]. apply elem_of_compute_hashmap. split; [done |].
  intros E. rewrite E in Hv. by apply elem_of_nil in Hv.
Qed.

Lemma lookup_total_munion (ms : list (gmap Z (list (list ascii)))) k :
  munion ms !!! k = concat ((fun m => m !!! k) <$> ms).
Proof.
  induction ms as [|m ms IH]; [simpl; by rewrite lookup_total_empty |].
  rewrite fmap_cons. cbn [concat munion foldr]. rewrite <- IH.
  rewrite !lookup_total_alt, lookup_mappend.
  change (foldr mappend ∅ ms) with (munion ms).
  destruct (m !! k), (munion ms !! k); simpl; by rewrite ?app_nil_r.
Qed.

End multiset_facts.

(** ** What the result iterator emits *)

Section result_facts.
Context {V : Type} {V_str : PyStr V} {Z_size : GetSizeOf Z} {V_size : GetSizeOf V}.
Implicit Types input : list (Z * V).

(** Consuming the iterator [groupBy] returned: the in-memory variant
    emits the reference output, the disk variant emits it with the
    empty strings gone, and removes the request directory. *)
Lemma groupBy_drain g d input it w :
  Forall value_ok input -> 1 <= _max_hashmap_entries g ->
  GroupByStatement_groupBy input {| self := g; disk := d |} = (Ok it, w) ->
  exists out it' w',
    drain it w = (Ok (out, it'), w') /\ hasNext it' = false /\
    match it with
    | FromMemory _ => out = compute_hashmap input /\ w' = w
    | FromDisk _ =>
        out = sq_run (compute_hashmap input) /\
        is_Some (disk w) /\ w' = {| self := self w; disk := None |}
    end.
Proof.
  intros Hok HM Hrun.
  destruct (groupBy_spec g d input Hok HM)
    as [(w1 & Heq & _) | [(mit & g' & files' & Heq & Hdel & Hheap & _) | (g' & Heq & _)]];
    rewrite Heq in Hrun; simplify_eq.
  - destruct (drain_memory (hashmap_of input) w) as (it' & Hdrain & Hend).
    exists (run_of_map (hashmap_of input)), it', w. done.
  - eexists _, _, _. split; [by apply drain_disk |]. split; [done |].
    split; [| split; [by eexists | done]].
    unfold compute_hashmap, sq_run. by rewrite run_of_map_fmap.
Qed.

Lemma groupBy_returns g d input :
  Forall value_ok input -> 1 <= _max_hashmap_entries g ->
  2 <= tuned_max_num_files (reset_statistics g) input ->
  exists it w, GroupByStatement_groupBy input {| self := g; disk := d |} = (Ok it, w).
Proof.
  intros Hok HM HF.
  destruct (groupBy_spec g d input Hok HM)
    as [(w1 & Heq & _) | [(mit & g' & files' & Heq & _) | (g' & Heq & Hlt & _)]];
    [eauto | eauto | lia].
Qed.

Lemma sq_run_id (r : list (Z * list (list ascii))) :
  Forall (fun e => Forall (fun w => w <> []) e.2) r -> sq_run r = r.
Proof.
  unfold sq_run. induction 1 as [|[k vs] r Hvs _ IH]; [done |].
  rewrite fmap_cons, IH. simpl. by rewrite squeeze_id.
Qed.

Lemma compute_hashmap_nonempty_values input :
  Forall (fun kv => py_str kv.2 <> []) input ->
  Forall (fun e : Z * list (list ascii) => Forall (fun w => w <> []) e.2)
    (compute_hashmap input).
Proof.
  intros Hne. rewrite Forall_forall. intros [k vs] Hin.
  apply elem_of_compute_hashmap in Hin as [-> _]. simpl.
  unfold values_of. rewrite Forall_fmap. rewrite Forall_forall in Hne |- *.
  intros kv [_ Hin]%list_elem_of_filter. by apply Hne.
Qed.

Lemma elem_of_sq_run (r : list (Z * list (list ascii))) k vs :
  (k, vs) ∈ sq_run r <-> exists vs', (k, vs') ∈ r /\ vs = squeeze vs'.
Proof.
  unfold sq_run. rewrite list_elem_of_fmap. split.
  - intros [[k' vs'] [[= -> ->] Hin]]. eauto.
  - intros (vs' & Hin & ->). by exists (k, vs').
Qed.

End result_facts.

(** ** The disk iterator and the request directory *)

Section cleanup_facts.

Lemma disk_next_end it w :
  KeyListIteratorFromDisk_hasNext it = false ->
  KeyListIteratorFromDisk_next it w = (Raise StopIteration, w).
Proof.
  destruct it as [[heap]]. unfold KeyListIteratorFromDisk_hasNext, MergeFileIterator_hasNext.
  simpl. intros Hh. apply bool_decide_eq_false in Hh.
  destruct heap; [reflexivity | by destruct Hh].
Qed.

Lemma disk_next_ok it w r it' w' :
  KeyListIteratorFromDisk_next it w = (Ok (r, it'), w') ->
  if KeyListIteratorFromDisk_hasNext it' then w' = w
  else is_Some (disk w) /\ w' = {| self := self w; disk := None |}.
Proof.
  unfold KeyListIteratorFromDisk_next. unfold_M.
  destruct (MergeFileIterator_next (_merge_file_iterator it)) as [[x mit] | e |]; try done.
  destruct (KeyListIteratorFromDisk_hasNext {| _merge_file_iterator := mit |}) eqn:Hn; simpl.
  - intros [= <- <- <-]. by rewrite Hn.
  - unfold shutil_rmtree. unfold_M. destruct w as [g [files|]]; simpl; [| done].
    intros [= <- <- <-]. rewrite Hn. split; [by eexists | done].
Qed.

(** While values remain the directory is untouched; the call that
    takes the last one removes it; no later call returns. *)
Lemma advance_disk n : forall it w it_n w_n,
  KeyListIteratorFromDisk_hasNext it = true ->
  advance n it w = (Ok it_n, w_n) ->
  if KeyListIteratorFromDisk_hasNext it_n then w_n = w
  else w_n = {| self := self w; disk := None |}.
Proof.
  induction n as [|n IH]; intros it w it_n w_n Hhas Hadv.
  - simpl in Hadv. unfold_M. simplify_eq. by rewrite Hhas.
  - cbn [advance] in Hadv. unfold mbind, M_bind in Hadv.
    destruct (KeyListIteratorFromDisk_next it w) as [[[r it1] | e |] w1] eqn:Hnext; try done.
    apply disk_next_ok in Hnext.
    destruct (KeyListIteratorFromDisk_hasNext it1) eqn:Hhas1.
    + subst w1. by eapply IH.
    + destruct Hnext as [_ ->]. destruct n as [|n].
      * simpl in Hadv. unfold_M. simplify_eq. by rewrite Hhas1.
      * cbn [advance] in Hadv. unfold mbind, M_bind in Hadv.
        by rewrite disk_next_end in Hadv.
Qed.

End cleanup_facts.

(** ** Counting the values held in memory *)

Section entry_count_facts.
Implicit Types h : gmap Z (list (list ascii)).

Lemma entry_count_empty : entry_count ∅ = 0%nat.
Proof. unfold entry_count. apply map_fold_empty. Qed.

Lemma entry_count_insert_new h k vs :
  h !! k = None -> entry_count (<[k := vs]> h) = (length vs + entry_count h)%nat.
Proof.
  intros Hk. unfold entry_count.
  rewrite map_fold_insert_L; [done | intros; lia | done].
Qed.

Lemma entry_count_append h k v :
  entry_count (<[k := (h !!! k) ++ [v]]> h) = S (entry_count h).
Proof.
  rewrite lookup_total_alt. destruct (h !! k) as [l|] eqn:Hk; simpl.
  - rewrite <- insert_delete_eq.
    rewrite entry_count_insert_new by apply lookup_delete_eq.
    rewrite <- (insert_delete_id h k l Hk) at 2.
    rewrite entry_count_insert_new by apply lookup_delete_eq.
    rewrite length_app. simpl. lia.
  - by rewrite entry_count_insert_new.
Qed.

Lemma entry_count_pos h : (0 < entry_count h)%nat -> h <> ∅.
Proof. intros Hpos ->. rewrite entry_count_empty in Hpos. lia. Qed.

Lemma run_of_map_nonempty h :
  h <> ∅ -> exists e r, run_of_map h = e :: r.
Proof.
  intros Hne. destruct (run_of_map h) as [|e r] eqn:E; [| eauto].
  exfalso. apply map_choose in Hne as (k & vs & Hk).
  apply elem_of_run_of_map in Hk. rewrite E in Hk. by apply elem_of_nil in Hk.
Qed.

End entry_count_facts.

(** ** The accumulator, whatever the values and the budget *)

Section accumulator_run.
Context {V : Type} {V_str : PyStr V} {Z_size : GetSizeOf Z} {V_size : GetSizeOf V}.
Implicit Types input : list (Z * V).

Lemma spill_if_full_eq n h g files :
  spill_if_full n h {| self := g; disk := Some files |}
  = if bool_decide (n >= _max_hashmap_entries g) then
      (Ok (0, ∅),
       {| self := set_spills (spills g + 1) (set_num_files (_num_files g + 1) g);
          disk := Some (<[dump_ (_num_files g) := file_text (run_of_map h)]> files) |})
    else (Ok (n, h), {| self := g; disk := Some files |}).
Proof.
  unfold spill_if_full. unfold mbind at 1, M_bind at 1, get_self at 1. cbn [self].
  case_bool_decide; [| reflexivity].
  unfold mbind at 1, M_bind at 1. unfold _get_dump_filename. rewrite dump_spec. reflexivity.
Qed.

Lemma auto_tune_eq key value g files :
  auto_tune key value {| self := g; disk := Some files |}
  = (Ok tt, {| self := tuned g key value; disk := Some files |}).
Proof.
  unfold auto_tune, tuned. unfold mbind at 1, M_bind at 1, get_self at 1. cbn [self].
  case_bool_decide; [| reflexivity].
  pose proof (getsizeof_pos key). pose proof (getsizeof_pos value).
  rewrite bool_decide_eq_false_2 by lia. reflexivity.
Qed.

Lemma chunk_loop_cons key value rest n h g files :
  chunk_loop ((key, value) :: rest) n h {| self := g; disk := Some files |}
  = let '(o, w) := spill_if_full n h {| self := g; disk := Some files |} in
    match o with
    | Ok (n1, h1) =>
        chunk_loop rest (n1 + 1) (<[key := (h1 !!! key) ++ [py_str value]]> h1)
          {| self := tuned (set_total_num_entries (total_num_entries (self w) + 1) (self w))
                       key value;
             disk := disk w |}
    | Raise e => (Raise e, w)
    | OutOfFuel => (OutOfFuel, w)
    end.
Proof.
  cbn [chunk_loop]. unfold mbind at 1, M_bind at 1.
  rewrite spill_if_full_eq. case_bool_decide; cbn beta iota.
  - unfold mbind at 1, M_bind at 1, update_self at 1.
    unfold mbind at 1, M_bind at 1, get_self at 1, set_self at 1. cbn [self disk].
    unfold mbind at 1, M_bind at 1. rewrite auto_tune_eq. reflexivity.
  - unfold mbind at 1, M_bind at 1, update_self at 1.
    unfold mbind at 1, M_bind at 1, get_self at 1, set_self at 1. cbn [self disk].
    unfold mbind at 1, M_bind at 1. rewrite auto_tune_eq. reflexivity.
Qed.

(** The loop on a prefix, then on the rest. *)
Lemma chunk_loop_app P Q : forall n h w,
  chunk_loop (P ++ Q) n h w
  = let '(o, w') := chunk_loop P n h w in
    match o with
    | Ok (n', h') => chunk_loop Q n' h' w'
    | Raise e => (Raise e, w')
    | OutOfFuel => (OutOfFuel, w')
    end.
Proof.
  induction P as [|[key value] P IH]; intros n h w; [reflexivity |].
  cbn [app chunk_loop]. unfold mbind, M_bind.
  destruct (spill_if_full n h w) as [[[n1 h1] | e |] w1]; try reflexivity.
  destruct (update_self _ w1) as [[[] | e |] w2]; try reflexivity.
  destruct (auto_tune key value w2) as [[[] | e |] w3]; try reflexivity.
  apply IH.
Qed.

Lemma tuned_fields g key value :
  _num_files (tuned g key value) = _num_files g /\
  total_num_entries (tuned g key value) = total_num_entries g /\
  (~ (_max_memory g > 0 /\ total_num_entries g = 1) ->
   _max_hashmap_entries (tuned g key value) = _max_hashmap_entries g).
Proof.
  unfold tuned. case_bool_decide; simpl; repeat split; try done.
Qed.

(** Whatever the input and the configuration, the loop returns; its
    counter is the number of values held, which stays within
    [max(1, max_hashmap_entries)]; and, when the budget starts at 1 or
    more or the hashmap is not empty, every dump file holds an entry. *)
Lemma chunk_loop_run input : forall n h g files,
  n = Z.of_nat (entry_count h) ->
  exists n' h' g' files',
    chunk_loop input n h {| self := g; disk := Some files |}
    = (Ok (n', h'), {| self := g'; disk := Some files' |}) /\
    n' = Z.of_nat (entry_count h') /\
    (n <= total_num_entries g -> n <= Z.max 1 (_max_hashmap_entries g) ->
     n' <= total_num_entries g' /\ n' <= Z.max 1 (_max_hashmap_entries g')) /\
    (input <> [] \/ h <> ∅ -> h' <> ∅) /\
    _num_files g <= _num_files g' /\
    (h <> ∅ \/ 1 <= _max_hashmap_entries g ->
     (forall i, 0 <= i < _num_files g ->
        exists e r, files !! dump_ i = Some (file_text (e :: r))) ->
     0 <= _num_files g ->
     forall i, 0 <= i < _num_files g' ->
       exists e r, files' !! dump_ i = Some (file_text (e :: r))).
Proof.
  induction input as [|[key value] rest IH]; intros n h g files Hn.
  - exists n, h, g, files. split; [reflexivity |]. split; [done |].
    split; [done |]. split; [by intros [? | ?] |]. split; [lia | done].
  - rewrite chunk_loop_cons, spill_if_full_eq.
    set (v := py_str value).
    case_bool_decide as Hfull; cbn beta iota; cbn [self disk].
    + (* spill, then insert into the cleared hashmap *)
      set (g1 := set_spills _ _).
      set (g2 := tuned _ key value).
      set (files1 := <[dump_ (_num_files g) := _]> files).
      destruct (IH (0 + 1)
                  (<[key := ((∅ : gmap Z (list (list ascii))) !!! key) ++ [v]]> ∅) g2 files1)
        as (n' & h' & g' & files' & Hrun & Hn' & Hbound & Hne & Hfiles & Hok).
      { rewrite entry_count_append, entry_count_empty. done. }
      destruct (tuned_fields (set_total_num_entries (total_num_entries g1 + 1) g1) key value)
        as (Hnf & Htot & _). fold g2 in Hnf, Htot. simpl in Hnf, Htot.
      exists n', h', g', files'. split; [exact Hrun |]. split; [done |].
      split; [| split; [| split]].
      * intros Hle _. apply Hbound; [rewrite Htot | ]; lia.
      * intros _. apply Hne. right. apply insert_non_empty.
      * lia.
      * intros Hsafe Hfs Hpos. apply Hok; [by left | | lia].
        intros i Hi. rewrite Hnf in Hi.
        destruct (decide (i = _num_files g)) as [-> | Hneq].
        -- assert (Hh : h <> ∅).
           { destruct Hsafe as [? | HM]; [done |]. apply entry_count_pos. lia. }
           destruct (run_of_map_nonempty h Hh) as (e & r & Her).
           exists e, r. subst files1. by rewrite lookup_insert_eq, Her.
        -- subst files1. rewrite lookup_insert_ne by (intros [= ?]; done).
           apply Hfs. lia.
    + (* insert into the current hashmap *)
      set (g2 := tuned _ key value).
      destruct (IH (n + 1) (<[key := (h !!! key) ++ [v]]> h) g2 files)
        as (n' & h' & g' & files' & Hrun & Hn' & Hbound & Hne & Hfiles & Hok).
      { rewrite entry_count_append. lia. }
      destruct (tuned_fields (set_total_num_entries (total_num_entries g + 1) g) key value)
        as (Hnf & Htot & HM). fold g2 in Hnf, Htot, HM. simpl in Hnf, Htot, HM.
      exists n', h', g', files'. split; [exact Hrun |]. split; [done |].
      split; [| split; [| split]].
      * intros Hle Hmax. apply Hbound; [rewrite Htot; lia |].
        destruct (decide (_max_memory g > 0 /\ total_num_entries g + 1 = 1)) as [Ht | Ht].
        -- lia.
        -- rewrite HM by done. lia.
      * intros _. apply Hne. right. apply insert_non_empty.
      * lia.
      * intros Hsafe Hfs Hpos. apply Hok; [by left; apply insert_non_empty | | lia].
        intros i Hi. apply Hfs. lia.
Qed.

End accumulator_run.

(** ** The constructor's first read *)

Section first_read.
Implicit Types files : gmap fname (list ascii).

Lemma push_first_keys_nonempty (rs : list (list (Z * list (list ascii)))) :
  forall index heap,
  Forall (fun r => r <> []) rs ->
  exists heap', push_first_keys index (file_text <$> rs) heap = Ok heap'.
Proof.
  induction rs as [|r rs IH]; intros index heap Hne; [by eexists |].
  apply Forall_cons in Hne as [Hr Hne]. destruct r as [|[k vs] rest]; [done |].
  rewrite fmap_cons. cbn [push_first_keys].
  rewrite file_text_body, file_next_key. cbn [mbind outcome_bind].
  rewrite int_of_line_str_int. cbn [mbind outcome_bind]. by apply IH.
Qed.

(** Over files that each hold an entry the constructor succeeds. *)
Lemma init_on_entries files filelist :
  Forall (fun f => exists e r, files !! f = Some (file_text (e :: r))) filelist ->
  exists it, MergeFileIterator_init filelist (Some files) = Ok it.
Proof.
  intros Hfiles.
  assert (exists rs,
    Forall2 (fun f t => files !! f = Some t) filelist (file_text <$> rs) /\
    Forall (fun r => r <> []) rs) as (rs & Hopen & Hne).
  { induction Hfiles as [|f filelist (e & r & Hf) _ (rs & Hopen & Hne)].
    - exists []. split; constructor.
    - exists ((e :: r) :: rs). split; constructor; done. }
  destruct (push_first_keys_nonempty rs 0 [] Hne) as [heap Hpush].
  exists {| _heap := heap |}. unfold MergeFileIterator_init.
  rewrite (open_all_spec _ _ _ Hopen). cbn [mbind outcome_bind].
  rewrite Hpush. reflexivity.
Qed.

Lemma push_first_keys_ok files_text : forall index heap heap',
  push_first_keys index files_text heap = Ok heap' ->
  Forall (fun t => t <> []) files_text.
Proof.
  induction files_text as [|t ts IH]; intros index heap heap' Hpush; [constructor |].
  cbn [push_first_keys] in Hpush. destruct t as [|c t]; [done |].
  constructor; [done |].
  destruct (file_next (c :: t)) as [[line f'] | |]; try done. cbn in Hpush.
  destruct (int_of_line line) as [key | |]; try done. cbn in Hpush. by eapply IH.
Qed.

Lemma open_all_ok files filelist ts :
  open_all (Some files) filelist = Ok ts ->
  Forall2 (fun f t => files !! f = Some t) filelist ts.
Proof.
  revert ts; induction filelist as [|f fl IH]; intros ts Hopen; simpl in Hopen.
  - simplify_eq. constructor.
  - destruct (files !! f) as [t|] eqn:Hf; [| done]. cbn in Hopen.
    destruct (open_all (Some files) fl) as [ts' | |]; try done. cbn in Hopen.
    simplify_eq. constructor; [done | by apply IH].
Qed.

(** Over an empty file the constructor does not return. *)
Lemma init_on_empty_file files filelist f it :
  f ∈ filelist -> files !! f = Some [] ->
  MergeFileIterator_init filelist (Some files) <> Ok it.
Proof.
  intros Hin Hf. unfold MergeFileIterator_init.
  destruct (open_all (Some files) filelist) as [ts | |] eqn:Hopen; try done.
  cbn [mbind outcome_bind].
  destruct (push_first_keys 0 ts []) as [heap | |] eqn:Hpush; try done.
  apply push_first_keys_ok in Hpush. apply open_all_ok in Hopen.
  apply list_elem_of_lookup in Hin as [i Hi].
  destruct (Forall2_lookup_l _ _ _ _ _ Hopen Hi) as (t & Ht & Hft).
  rewrite Hf in Hft. simplify_eq.
  rewrite Forall_forall in Hpush. exfalso. eapply Hpush; [| done].
  eapply list_elem_of_lookup_2, Ht.
Qed.

Lemma init_on_one_empty_file files f :
  files !! f = Some [] ->
  MergeFileIterator_init [f] (Some files) = Raise StopIteration.
Proof. intros Hf. unfold MergeFileIterator_init. simpl. by rewrite Hf. Qed.

End first_read.

(** ** Reading a run back *)

Section read_back_facts.

Lemma collect_delivers it l :
  delivers it l -> forall fuel, (heap_size (_heap it) < fuel)%nat ->
  collect fuel it = Ok l.
Proof.
  induction 1 as [| it x it' l Hne Hnext Hdel IH]; intros fuel Hfuel.
  - destruct fuel; [lia | reflexivity].
  - destruct fuel as [|fuel]; [lia |]. cbn [collect]. rewrite Hnext.
    pose proof (MergeFileIterator_next_size _ _ _ Hnext).
    rewrite IH by lia. reflexivity.
Qed.

Lemma run_of_map_list_to_map (r : list (Z * list (list ascii))) :
  StronglySorted Z.lt r.*1 -> run_of_map (list_to_map r) = r.
Proof.
  intros Hs. symmetry. apply run_of_map_unique; [done |].
  intros k vs. rewrite <- elem_of_list_to_map; [done |].
  by apply StronglySorted_lt_NoDup.
Qed.

(** A non-empty run with strictly ascending keys and non-empty,
    whitespace-free value strings reads back as written. *)
Lemma read_back_run (r : list (Z * list (list ascii))) :
  r <> [] -> StronglySorted Z.lt r.*1 ->
  Forall (fun e => Forall (fun v => v <> [] /\ no_space v) e.2) r ->
  read_back r = Ok r.
Proof.
  intros Hne Hs Hv. unfold read_back. rewrite write_list. cbn [disk].
  assert (Hok : run_ok r).
  { split; [done |]. eapply Forall_impl; [exact Hv |]. intros e He.
    eapply Forall_impl; [exact He |]. by intros v [_ ?]. }
  assert (Hsq : sq_run r = r).
  { apply sq_run_id. eapply Forall_impl; [exact Hv |]. intros e He.
    eapply Forall_impl; [exact He |]. by intros v [? _]. }
  destruct (push_first_keys_spec [r] [] []) as (heap & Hpush & Hrep).
  { by constructor. } { by constructor. } { apply heap_rep_nil. }
  assert (Hinit : MergeFileIterator_init [_merge]
            (Some (<[_merge := file_text r]> (∅ : gmap fname (list ascii))))
          = Ok {| _heap := heap |}).
  { unfold MergeFileIterator_init.
    rewrite (open_all_spec _ [_merge] [file_text r]).
    - simpl in Hpush |- *. rewrite Hpush. reflexivity.
    - constructor; [apply lookup_insert_eq | constructor]. }
  rewrite Hinit. cbn [mbind outcome_bind _heap].
  simpl app in Hrep.
  pose proof (merge_delivers (length (concat [r])) [r] heap (le_n _)
                (Forall_cons_2 _ _ _ Hok (Forall_nil_2 _)) Hrep) as Hdel.
  rewrite (collect_delivers _ _ Hdel) by (simpl; lia).
  f_equal. unfold map_of_runs. simpl. rewrite mappend_empty_r, Hsq.
  by apply run_of_map_list_to_map.
Qed.

End read_back_facts.

(** ** Runs of a single entry, and the plan of a pass *)

Section small_facts.

Lemma run_of_map_singleton k (vs : list (list ascii)) :
  run_of_map {[k := vs]} = [(k, vs)].
Proof.
  symmetry. apply run_of_map_unique; [repeat constructor |].
  intros k' vs'. rewrite list_elem_of_singleton, lookup_singleton_Some.
  split; [by intros [= -> ->] | by intros [-> ->]].
Qed.

Lemma good_file_single files i k (v : list ascii) :
  v <> [] -> no_space v ->
  files !! dump_ i = Some (file_text [(k, [v])]) ->
  good_file files i {[k := [v]]}.
Proof.
  intros Hne Hv Hf. split; [apply insert_non_empty |]. split.
  - intros k' vs. rewrite lookup_singleton_Some. intros [_ <-]. by constructor.
  - exists (file_text [(k, [v])]). split; [done |].
    exists [(k, [v])]. split; [done |]. split; [by repeat constructor |].
    rewrite map_fmap_singleton, run_of_map_singleton. done.
Qed.

Lemma lookup_py_range_step n m (j : nat) index :
  py_range_step n m !! j = Some index -> 0 < m /\ index = Z.of_nat j * m /\ index < n.
Proof.
  unfold py_range_step. case_bool_decide as Hm; [| done].
  rewrite list_lookup_fmap. intros Hj.
  destruct (seqZ 0 ((n + m - 1) `div` m) !! j) as [j'|] eqn:Hj'; [| done].
  simpl in Hj. simplify_eq. apply lookup_seqZ in Hj' as [-> Hlt].
  split; [done |]. split; [lia |].
  assert (Z.of_nat j <= (n + m - 1) `div` m - 1) by lia.
  assert ((n + m - 1) `div` m * m <= n + m - 1).
  { rewrite Z.mul_comm. apply Z.mul_div_le. lia. }
  nia.
Qed.

Lemma elem_of_py_range s a b : s ∈ py_range a b <-> a <= s < b.
Proof. unfold py_range. rewrite elem_of_seqZ. lia. Qed.

End small_facts.

(** ** What the accumulator leaves on disk *)

Section dump_files.
Context {V : Type} {V_str : PyStr V} {Z_size : GetSizeOf Z} {V_size : GetSizeOf V}.
Implicit Types input : list (Z * V).

Lemma chunk_input_run input g files :
  1 <= _max_hashmap_entries g -> _num_files g = 0 ->
  exists res g' files',
    _chunk_input_into_dump_files input {| self := g; disk := Some files |}
    = (Ok res, {| self := g'; disk := Some files' |}) /\
    0 <= _num_files g' /\
    (forall i, 0 <= i < _num_files g' ->
       exists e r, files' !! dump_ i = Some (file_text (e :: r))).
Proof.
  intros HM Hn.
  destruct (chunk_loop_run input 0 ∅ g files) as
    (n1 & h1 & g1 & files1 & Hloop & Hn1 & _ & _ & Hnum & Hfiles).
  { by rewrite entry_count_empty. }
  assert (Hfiles1 : forall i, 0 <= i < _num_files g1 ->
            exists e r, files1 !! dump_ i = Some (file_text (e :: r))).
  { apply Hfiles; [by right | intros i Hi; lia | lia]. }
  unfold _chunk_input_into_dump_files.
  unfold mbind at 1, M_bind at 1. rewrite Hloop.
  unfold mbind at 1, M_bind at 1, get_self at 1. cbn [self].
  case_bool_decide as Hz.
  { exists (Some h1), g1, files1. split; [reflexivity |]. split; [lia | done]. }
  case_bool_decide as Hc.
  - unfold mbind at 1, M_bind at 1. unfold mbind at 1, M_bind at 1.
    unfold _get_dump_filename. rewrite dump_spec.
    eexists None, _, _. split; [reflexivity |]. cbn [_num_files set_spills set_num_files].
    split; [lia |]. intros i Hi.
    destruct (decide (i = _num_files g1)) as [-> | Hne].
    + rewrite lookup_insert_eq.
      destruct (run_of_map_nonempty h1) as (e & r & ->); [| eauto].
      apply entry_count_pos. lia.
    + rewrite lookup_insert_ne by congruence. apply Hfiles1. lia.
  - exists None, g1, files1. split; [reflexivity |]. split; [lia | done].
Qed.

(** The slot a pass hands to its [j]-th group is [j]: the pass returns
    the number of groups it went through. *)
Lemma merge_pass_slot indices : forall c w c' w',
  merge_pass indices c w = (Ok c', w') -> c' = c + Z.of_nat (length indices).
Proof.
  induction indices as [|index rest IH]; intros c w c' w' Hrun.
  - simpl in Hrun. unfold mret, M_ret in Hrun. simplify_eq. simpl. lia.
  - cbn [merge_pass] in Hrun. unfold mbind at 1, M_bind at 1 in Hrun.
    destruct (merge_group index c w) as [[[] | e |] w1]; try done.
    apply IH in Hrun. simpl length. lia.
Qed.

Lemma merge_pass_app l1 l2 : forall c w,
  merge_pass (l1 ++ l2) c w
  = match merge_pass l1 c w with
    | (Ok c1, w1) => merge_pass l2 c1 w1
    | (Raise e, w1) => (Raise e, w1)
    | (OutOfFuel, w1) => (OutOfFuel, w1)
    end.
Proof.
  induction l1 as [|index l1 IH]; intros c w; [reflexivity |].
  cbn [app merge_pass]. unfold mbind, M_bind.
  destruct (merge_group index c w) as [[[] | e |] w1]; try reflexivity.
  apply IH.
Qed.

End dump_files.

(** ** A budget below one

    With [max_hashmap_entries] below 1 the first turn of the loop spills
    the still empty hashmap: [dump_0] is an empty file, which stops the
    first merge iterator built over it. *)

Section small_budget.
Context {V : Type} {V_str : PyStr V} {Z_size : GetSizeOf Z} {V_size : GetSizeOf V}.
Implicit Types input : list (Z * V).

Lemma chunk_loop_keeps_dump_0 input : forall n h g files res w,
  1 <= _num_files g -> files !! dump_ 0 = Some [] ->
  chunk_loop input n h {| self := g; disk := Some files |} = (Ok res, w) ->
  exists files', disk w = Some files' /\ 1 <= _num_files (self w) /\
                 files' !! dump_ 0 = Some [].
Proof.
  induction input as [|[key value] rest IH]; intros n h g files res w Hn H0 Hrun.
  - cbn in Hrun. unfold mret, M_ret in Hrun. simplify_eq. exists files. done.
  - rewrite chunk_loop_cons, spill_if_full_eq in Hrun.
    case_bool_decide; cbn beta iota zeta in Hrun; cbn [self disk] in Hrun.
    + eapply IH; [| | exact Hrun].
      * destruct (tuned_fields (set_total_num_entries
            (total_num_entries (set_spills (spills g + 1) (set_num_files (_num_files g + 1) g)) + 1)
            (set_spills (spills g + 1) (set_num_files (_num_files g + 1) g))) key value)
          as [-> _]. simpl. lia.
      * rewrite lookup_insert_ne; [done |]. intros [=]. lia.
    + eapply IH; [| | exact Hrun]; [| done].
      destruct (tuned_fields (set_total_num_entries (total_num_entries g + 1) g) key value)
        as [-> _]. done.
Qed.

Lemma chunk_input_small_budget input g files res w :
  _max_hashmap_entries g < 1 -> _num_files g = 0 -> input <> [] ->
  _chunk_input_into_dump_files input {| self := g; disk := Some files |} = (Ok res, w) ->
  exists files', disk w = Some files' /\ 1 <= _num_files (self w) /\
                 files' !! dump_ 0 = Some [] /\ res = None.
Proof.
  intros HM Hn Hne Hrun. destruct input as [|[key value] rest]; [done |].
  unfold _chunk_input_into_dump_files in Hrun.
  unfold mbind at 1, M_bind at 1 in Hrun.
  destruct (chunk_loop ((key, value) :: rest) 0 ∅ {| self := g; disk := Some files |})
    as [[[n1 h1] | e |] w1] eqn:Hloop; try done.
  assert (exists files1, disk w1 = Some files1 /\ 1 <= _num_files (self w1) /\
                         files1 !! dump_ 0 = Some []) as (files1 & Hd1 & Hn1 & H01).
  { rewrite chunk_loop_cons, spill_if_full_eq in Hloop.
    rewrite bool_decide_eq_true_2 in Hloop by lia.
    cbn beta iota zeta in Hloop; cbn [self disk] in Hloop.
    eapply chunk_loop_keeps_dump_0; [| | exact Hloop].
    - destruct (tuned_fields (set_total_num_entries
          (total_num_entries (set_spills (spills g + 1) (set_num_files (_num_files g + 1) g)) + 1)
          (set_spills (spills g + 1) (set_num_files (_num_files g + 1) g))) key value)
        as [-> _]. simpl. lia.
    - rewrite Hn, run_of_map_empty. apply lookup_insert_eq. }
  destruct w1 as [g1 d1]. cbn [self disk] in *. subst d1.
  unfold mbind at 1, M_bind at 1, get_self at 1 in Hrun. cbn [self] in Hrun.
  rewrite bool_decide_eq_false_2 in Hrun by lia.
  case_bool_decide.
  - unfold mbind at 1, M_bind at 1 in Hrun. unfold mbind at 1, M_bind at 1 in Hrun.
    unfold _get_dump_filename in Hrun. rewrite dump_spec in Hrun.
    unfold mret, M_ret, mbind, M_bind in Hrun. simplify_eq. eexists. split; [reflexivity |]. simpl.
    split; [lia |]. split; [| done].
    rewrite lookup_insert_ne; [done |]. intros [=]. lia.
  - unfold mret, M_ret, mbind, M_bind in Hrun. simplify_eq. by exists files1.
Qed.

Lemma merge_group_empty_dump_0 g files c :
  files !! dump_ 0 = Some [] -> 2 <= _max_num_files g -> _num_files g > _max_num_files g ->
  forall w', merge_group 0 c {| self := g; disk := Some files |} <> (Ok tt, w').
Proof.
  intros H0 Hm Hgt w'. unfold merge_group.
  unfold mbind at 1, M_bind at 1, get_self at 1. cbn [self].
  rewrite Z.min_r by lia. unfold py_range. rewrite Z.add_0_l, Z.sub_0_r.
  rewrite seqZ_cons by lia. rewrite seqZ_cons by lia. rewrite !fmap_cons.
  unfold mbind at 1, M_bind at 1, get_disk at 1. cbn [disk].
  unfold mbind at 1, M_bind at 1, lift at 1.
  match goal with |- context [MergeFileIterator_init ?l ?d] =>
    pose proof (fun it => init_on_empty_file files l (dump_ 0) it
                            ltac:(apply list_elem_of_here) H0) as Hinit;
    destruct (MergeFileIterator_init l d) as [it | e |]
  end; [by destruct (Hinit it) | done | done].
Qed.

Lemma merge_loop_empty_dump_0 fuel g files w' :
  files !! dump_ 0 = Some [] -> 1 <= _num_files g ->
  _merge_dump_files fuel {| self := g; disk := Some files |} = (Ok tt, w') ->
  w' = {| self := g; disk := Some files |}.
Proof.
  intros H0 Hn Hrun. destruct fuel as [|fuel]; cbn [_merge_dump_files] in Hrun;
    unfold mbind at 1, M_bind at 1, get_self at 1 in Hrun; cbn [self] in Hrun;
    (case_bool_decide as Hgt; [| by (unfold mret, M_ret in Hrun; simplify_eq)]); [done |].
  case_bool_decide as Hm.
  { unfold mbind at 1, M_bind at 1 in Hrun.
    destruct (shutil_rmtree _) as [[[] | e |] w1]; done. }
  exfalso. unfold mbind at 1, M_bind at 1 in Hrun.
  unfold py_range_step in Hrun. rewrite bool_decide_eq_true_2 in Hrun by lia.
  assert (1 <= (_num_files g + _max_num_files g - 1) `div` _max_num_files g)
    by (apply groups_pos; lia).
  rewrite seqZ_cons in Hrun by lia. rewrite fmap_cons in Hrun.
  cbn [merge_pass] in Hrun. unfold mbind at 1, M_bind at 1 in Hrun.
  rewrite Z.mul_0_l in Hrun.
  pose proof (merge_group_empty_dump_0 g files 0 H0 ltac:(lia) Hgt) as Hgrp.
  destruct (merge_group 0 0 _) as [[[] | e |] w1]; [by destruct (Hgrp w1) | done | done].
Qed.

(** With such a budget [groupBy] returns no iterator for a non-empty
    input. *)
Lemma groupBy_small_budget g d input it w :
  _max_hashmap_entries g < 1 -> input <> [] ->
  GroupByStatement_groupBy input {| self := g; disk := d |} <> (Ok it, w).
Proof.
  intros HM Hne Hrun.
  assert (Hunfold :
    GroupByStatement_groupBy input {| self := g; disk := d |}
    = (_chunk_input_into_dump_files input ≫= fun result =>
       match result with
       | Some hashmap =>
           shutil_rmtree;;
           mret (FromMemory (KeyListIteratorFromMemory_init hashmap))
       | None =>
           g ← get_self;
           _merge_dump_files (Z.to_nat (_num_files g));;
           g ← get_self;
           d ← get_disk;
           it ← lift (KeyListIteratorFromDisk_init
                        (_get_dump_filename <$> py_range 0 (_num_files g)) d);
           mret (FromDisk it)
       end) {| self := reset_statistics g; disk := Some ∅ |}).
  { destruct input; [done | reflexivity]. }
  rewrite Hunfold in Hrun. clear Hunfold.
  unfold mbind at 1, M_bind at 1 in Hrun.
  destruct (_chunk_input_into_dump_files input _) as [[res | e |] w1] eqn:Hchunk; try done.
  apply chunk_input_small_budget in Hchunk as (files1 & Hd1 & Hn1 & H01 & ->);
    [| done | done | done].
  destruct w1 as [g1 d1]. cbn [self disk] in *. subst d1.
  unfold mbind at 1, M_bind at 1, get_self at 1 in Hrun. cbn [self] in Hrun.
  unfold mbind at 1, M_bind at 1 in Hrun.
  destruct (_merge_dump_files _ _) as [[[] | e |] w2] eqn:Hmerge; try done.
  apply merge_loop_empty_dump_0 in Hmerge as ->; [| done | done].
  unfold mbind at 1, M_bind at 1, get_self at 1 in Hrun. cbn [self] in Hrun.
  unfold mbind at 1, M_bind at 1, get_disk at 1 in Hrun. cbn [disk] in Hrun.
  unfold mbind at 1, M_bind at 1, lift at 1 in Hrun.
  unfold KeyListIteratorFromDisk_init in Hrun.
  match type of Hrun with context [MergeFileIterator_init ?l ?d] =>
    assert (Hin : dump_ 0 ∈ l);
    [| pose proof (fun it => init_on_empty_file files1 l (dump_ 0) it Hin H01) as Hinit;
       destruct (MergeFileIterator_init l d) as [mit | e |] ]
  end.
  - unfold py_range. rewrite Z.sub_0_r, seqZ_cons by lia. apply list_elem_of_here.
  - by destruct (Hinit mit).
  - done.
  - done.
Qed.

(** Consuming what [groupBy] returns, whatever the budget. *)
Lemma groupBy_drain_any g d input it w :
  Forall value_ok input ->
  GroupByStatement_groupBy input {| self := g; disk := d |} = (Ok it, w) ->
  exists out it' w',
    drain it w = (Ok (out, it'), w') /\ hasNext it' = false /\
    match it with
    | FromMemory _ => out = compute_hashmap input /\ w' = w
    | FromDisk _ =>
        out = sq_run (compute_hashmap input) /\
        is_Some (disk w) /\ w' = {| self := self w; disk := None |}
    end.
Proof.
  intros Hok Hrun.
  destruct (decide (1 <= _max_hashmap_entries g)) as [HM | HM];
    [by apply (groupBy_drain g d input) |].
  destruct input as [|kv input].
  - change (GroupByStatement_groupBy [] {| self := g; disk := d |})
      with (Ok (FromMemory (KeyListIteratorFromMemory_init ∅)),
            {| self := reset_statistics g; disk := d |}) in Hrun.
    simplify_eq.
    destruct (drain_memory ∅ {| self := reset_statistics g; disk := d |})
      as (it' & Hdrain & Hend).
    eexists _, it', _. split; [exact Hdrain |]. done.
  - exfalso. eapply (groupBy_small_budget g d (kv :: input)); [lia | done | exact Hrun].
Qed.

Lemma groupBy_disk_heap g d input it w :
  Forall value_ok input ->
  GroupByStatement_groupBy input {| self := g; disk := d |} = (Ok (FromDisk it), w) ->
  _heap (_merge_file_iterator it) <> [].
Proof.
  intros Hok Hrun.
  destruct (decide (1 <= _max_hashmap_entries g)) as [HM | HM].
  - destruct (groupBy_spec g d input Hok HM)
      as [(w1 & Heq & _) | [(mit & g' & files' & Heq & Hdel & Hheap & _) | (g' & Heq & _)]];
      rewrite Heq in Hrun; simplify_eq. done.
  - destruct input as [|kv input].
    { change (GroupByStatement_groupBy [] {| self := g; disk := d |})
        with (Ok (FromMemory (KeyListIteratorFromMemory_init ∅)),
              {| self := reset_statistics g; disk := d |}) in Hrun.
      simplify_eq. }
    exfalso. eapply (groupBy_small_budget g d (kv :: input)); [lia | done | exact Hrun].
Qed.

End small_budget.

(** ** Rounded-up division *)

Section ceil_div_facts.

Lemma ceil_div_spec a b q :
  0 < b -> (ceil_div a b = q <-> (q - 1) * b < a <= q * b).
Proof.
  intros Hb. unfold ceil_div.
  pose proof (Z.div_mod (a + b - 1) b ltac:(lia)).
  pose proof (Z.mod_pos_bound (a + b - 1) b Hb).
  split; [intros <-; nia | intros Hq; nia].
Qed.

Lemma ceil_div_bounds a b :
  0 < b -> (ceil_div a b - 1) * b < a <= ceil_div a b * b.
Proof. intros Hb. by apply ceil_div_spec. Qed.

Lemma ceil_div_succ_div a b : 0 < b -> ceil_div a b = (a - 1) `div` b + 1.
Proof.
  intros Hb. unfold ceil_div.
  replace (a + b - 1) with (a - 1 + 1 * b) by lia. rewrite Z.div_add by lia. lia.
Qed.

Lemma ceil_div_1 a : ceil_div a 1 = a.
Proof. unfold ceil_div. rewrite Z.div_1_r. lia. Qed.

Lemma ceil_div_nested a b c :
  0 < b -> 0 < c -> ceil_div (ceil_div a b) c = ceil_div a (b * c).
Proof.
  intros Hb Hc. symmetry. apply ceil_div_spec; [nia |].
  pose proof (ceil_div_bounds a b Hb).
  pose proof (ceil_div_bounds (ceil_div a b) c Hc).
  nia.
Qed.

Lemma ceil_div_small a b : 0 < a <= b -> ceil_div a b = 1.
Proof. intros Hab. apply ceil_div_spec; lia. Qed.

Lemma ceil_div_pos a b : 0 < b -> 0 < a -> 0 < ceil_div a b.
Proof. intros Hb Ha. pose proof (ceil_div_bounds a b Hb). nia. Qed.

End ceil_div_facts.

(** ** Counting the spills *)

Section accumulator_statistics.
Context {V : Type} {V_str : PyStr V} {Z_size : GetSizeOf Z} {V_size : GetSizeOf V}.
Implicit Types input : list (Z * V).

Lemma tuned_id g key (value : V) : total_num_entries g <> 1 -> tuned g key value = g.
Proof. intros Ht. unfold tuned. rewrite bool_decide_eq_false_2; [done | tauto]. Qed.

(** The loop once the first pair has been seen: the budget no longer
    changes, a chunk is full at [B] values, and the counter and the
    number of spills follow from the number of pairs read. *)
Lemma chunk_loop_count input : forall n h g files,
  1 <= total_num_entries g ->
  1 <= n <= Z.max 1 (_max_hashmap_entries g) ->
  exists n' h' g' files',
    chunk_loop input n h {| self := g; disk := Some files |}
    = (Ok (n', h'), {| self := g'; disk := Some files' |}) /\
    n' = (n - 1 + Z.of_nat (length input)) `mod` Z.max 1 (_max_hashmap_entries g) + 1 /\
    _max_hashmap_entries g' = _max_hashmap_entries g /\
    _max_num_files g' = _max_num_files g /\
    _max_memory g' = _max_memory g /\
    num_merge_stages g' = num_merge_stages g /\
    total_num_entries g' = total_num_entries g + Z.of_nat (length input) /\
    _num_files g' = _num_files g
      + (n - 1 + Z.of_nat (length input)) `div` Z.max 1 (_max_hashmap_entries g) /\
    spills g' = spills g
      + (n - 1 + Z.of_nat (length input)) `div` Z.max 1 (_max_hashmap_entries g) /\
    ((n - 1 + Z.of_nat (length input)) `div` Z.max 1 (_max_hashmap_entries g) = 0 ->
     h' = foldl (fun hashmap kv => <[kv.1 := (hashmap !!! kv.1) ++ [py_str kv.2]]> hashmap)
            h input /\
     files' = files).
Proof.
  induction input as [|[key value] rest IH]; intros n h g files Ht Hn.
  - exists n, h, g, files. simpl length. rewrite Z.add_0_r.
    rewrite Z.mod_small, Z.div_small by lia.
    split; [reflexivity |]. repeat (split; [lia || done |]). done.
  - set (B := Z.max 1 (_max_hashmap_entries g)) in *.
    rewrite chunk_loop_cons, spill_if_full_eq.
    case_bool_decide as Hfull; cbn beta iota zeta; cbn [self disk].
    + assert (HnB : n = B) by lia.
      rewrite tuned_id by (simpl; lia).
      match goal with |- context [chunk_loop rest ?n1 ?h1 {| self := ?g1; disk := Some ?f1 |}] =>
        destruct (IH n1 h1 g1 f1) as
          (n' & h' & g' & files' & Hrun & Hn' & HM & HF & Hmem & Hst & Htot & Hnf & Hsp & _)
      end.
      { simpl. lia. }
      { simpl. lia. }
      simpl in Hn', HM, HF, Hmem, Hst, Htot, Hnf, Hsp. fold B in Hn', Hnf, Hsp.
      exists n', h', g', files'. split; [exact Hrun |].
      assert (Hlen : n - 1 + Z.of_nat (length ((key, value) :: rest))
                     = Z.of_nat (length rest) + 1 * B) by (simpl length; lia).
      rewrite Hlen, Z.mod_add, Z.div_add by lia.
      replace (0 + 1 - 1 + Z.of_nat (length rest)) with (Z.of_nat (length rest)) in * by lia.
      repeat (split; [first [done | simpl length; lia] |]).
      intros Hz. assert (0 <= Z.of_nat (length rest) `div` B) by (apply Z.div_pos; lia). lia.
    + rewrite tuned_id by (simpl; lia).
      match goal with |- context [chunk_loop rest ?n1 ?h1 {| self := ?g1; disk := Some ?f1 |}] =>
        destruct (IH n1 h1 g1 f1) as
          (n' & h' & g' & files' & Hrun & Hn' & HM & HF & Hmem & Hst & Htot & Hnf & Hsp & Hh)
      end.
      { simpl. lia. }
      { simpl. lia. }
      simpl in Hn', HM, HF, Hmem, Hst, Htot, Hnf, Hsp, Hh. fold B in Hn', Hnf, Hsp, Hh.
      exists n', h', g', files'. split; [exact Hrun |].
      replace (n - 1 + Z.of_nat (length ((key, value) :: rest)))
        with (n + 1 - 1 + Z.of_nat (length rest)) by (simpl length; lia).
      repeat (split; [first [done | simpl length; lia] |]).
      exact Hh.
Qed.

Lemma tuned_first_pair g key (value : V) input :
  total_num_entries g = 0 ->
  _max_hashmap_entries (tuned (set_total_num_entries (total_num_entries g + 1) g) key value)
  = tuned_max_hashmap_entries g ((key, value) :: input) /\
  _max_num_files (tuned (set_total_num_entries (total_num_entries g + 1) g) key value)
  = tuned_max_num_files g ((key, value) :: input).
Proof.
  intros Ht. unfold tuned, tuned_max_hashmap_entries, tuned_max_num_files. cbn [fst snd].
  rewrite Ht. simpl total_num_entries. simpl _max_memory.
  destruct (decide (_max_memory g > 0)) as [Hm | Hm].
  - rewrite !bool_decide_eq_true_2 by done. done.
  - rewrite !bool_decide_eq_false_2 by tauto. done.
Qed.

(** The accumulator on an input that is not empty, from a statement
    with [max_hashmap_entries >= 1] whose statistics are reset. *)
Lemma chunk_input_count input g files :
  1 <= _max_hashmap_entries g -> input <> [] ->
  _num_files g = 0 -> spills g = 0 -> total_num_entries g = 0 ->
  exists res g' files',
    _chunk_input_into_dump_files input {| self := g; disk := Some files |}
    = (Ok res, {| self := g'; disk := Some files' |}) /\
    total_num_entries g' = Z.of_nat (length input) /\
    spills g' = _num_files g' /\
    num_merge_stages g' = num_merge_stages g /\
    _max_memory g' = _max_memory g /\
    _max_hashmap_entries g' = tuned_max_hashmap_entries g input /\
    _max_num_files g' = tuned_max_num_files g input /\
    (Z.of_nat (length input) <= chunk_size g input ->
     res = Some (hashmap_of input) /\ spills g' = 0 /\ files' = files) /\
    (chunk_size g input < Z.of_nat (length input) ->
     res = None /\ spills g' = ceil_div (Z.of_nat (length input)) (chunk_size g input)).
Proof.
  intros HM Hne Hnf Hsp Htot. destruct input as [|[key value] rest]; [done |].
  set (input := (key, value) :: rest).
  set (g1 := tuned (set_total_num_entries (total_num_entries g + 1) g) key value).
  destruct (tuned_first_pair g key value rest Htot) as [HM1 HF1]. fold g1 input in HM1, HF1.
  destruct (tuned_fields (set_total_num_entries (total_num_entries g + 1) g) key value)
    as (Hnf1 & Htot1 & _). fold g1 in Hnf1, Htot1. simpl in Hnf1, Htot1.
  assert (Hsp1 : spills g1 = 0 /\ num_merge_stages g1 = num_merge_stages g /\
                 _max_memory g1 = _max_memory g).
  { subst g1. unfold tuned. case_bool_decide; simpl; done. }
  destruct Hsp1 as (Hsp1 & Hst1 & Hmem1).
  set (B := chunk_size g input). assert (HB : B = Z.max 1 (_max_hashmap_entries g1))
    by (unfold B, chunk_size; by rewrite HM1).
  set (h1 := <[key := ((∅ : gmap Z (list (list ascii))) !!! key) ++ [py_str value]]>
               (∅ : gmap Z (list (list ascii)))).
  assert (Hloop1 : chunk_loop input 0 ∅ {| self := g; disk := Some files |}
                   = chunk_loop rest 1 h1 {| self := g1; disk := Some files |}).
  { unfold input. rewrite chunk_loop_cons, spill_if_full_eq.
    rewrite bool_decide_eq_false_2 by lia. reflexivity. }
  destruct (chunk_loop_count rest 1 h1 g1 files)
    as (n' & h' & g' & files' & Hrun & Hn' & HM' & HF' & Hmem' & Hst' & Htot' & Hnf' & Hsp' & Hh);
    [lia | lia |].
  rewrite <- HB in Hn', Hnf', Hsp', Hh.
  replace (1 - 1 + Z.of_nat (length rest)) with (Z.of_nat (length input) - 1) in *
    by (unfold input; simpl length; lia).
  assert (HBpos : 0 < B) by lia.
  assert (Hq : 0 <= (Z.of_nat (length input) - 1) `div` B)
    by (apply Z.div_pos; unfold input; simpl length; lia).
  assert (Hsmall : Z.of_nat (length input) <= B <->
                   (Z.of_nat (length input) - 1) `div` B = 0).
  { split.
    - intros Hle. apply Z.div_small. unfold input in *. simpl length in *. lia.
    - intros Hz. apply Z.div_small_iff in Hz; lia. }
  assert (Hnpos : 1 <= n').
  { pose proof (Z.mod_pos_bound (Z.of_nat (length input) - 1) B HBpos). lia. }
  unfold _chunk_input_into_dump_files.
  unfold mbind at 1, M_bind at 1. rewrite Hloop1, Hrun.
  unfold mbind at 1, M_bind at 1, get_self at 1. cbn [self].
  case_bool_decide as Hz.
  - exists (Some h'), g', files'. split; [reflexivity |].
    assert (Hd : (Z.of_nat (length input) - 1) `div` B = 0) by lia.
    destruct (Hh Hd) as [-> ->].
    split; [unfold input; simpl length; lia |]. split; [lia |]. split; [congruence |].
    split; [congruence |]. split; [congruence |]. split; [congruence |]. split.
    + intros _. split; [| split; [lia | done]]. reflexivity.
    + intros Hlt. apply Hsmall in Hd. lia.
  - rewrite bool_decide_eq_true_2 by lia.
    unfold mbind at 1, M_bind at 1. unfold mbind at 1, M_bind at 1.
    unfold _get_dump_filename. rewrite dump_spec.
    eexists None, _, _. split; [reflexivity |].
    cbn [total_num_entries spills _num_files num_merge_stages _max_memory
         _max_hashmap_entries _max_num_files set_spills set_num_files].
    split; [unfold input; simpl length; lia |]. split; [lia |]. split; [congruence |].
    split; [congruence |]. split; [congruence |]. split; [congruence |]. split.
    + intros Hle. apply Hsmall in Hle. lia.
    + intros _. split; [done |]. rewrite ceil_div_succ_div by done. lia.
Qed.

End accumulator_statistics.

(** ** Counting the merge stages *)

Section merge_stages.

(** One turn of the merge loop when a pass is needed and possible. *)
Lemma merge_loop_turn fuel g files ms :
  _num_files g = Z.of_nat (length ms) -> runs_at files 0 ms ->
  2 <= _max_num_files g -> _num_files g > _max_num_files g ->
  exists files1 ms1,
    _merge_dump_files (S fuel) {| self := g; disk := Some files |}
    = _merge_dump_files fuel
        {| self := set_num_merge_stages (num_merge_stages g + 1)
                     (set_num_files (ceil_div (_num_files g) (_max_num_files g)) g);
           disk := Some files1 |} /\
    Z.of_nat (length ms1) = ceil_div (_num_files g) (_max_num_files g) /\
    runs_at files1 0 ms1 /\ munion ms1 = munion ms.
Proof.
  intros Hn Hruns Hm Hgt.
  cbn [_merge_dump_files]. unfold mbind at 1, M_bind at 1, get_self at 1. cbn [self].
  rewrite bool_decide_eq_true_2 by done.
  rewrite bool_decide_eq_false_2 by lia.
  unfold py_range_step. rewrite bool_decide_eq_true_2 by lia.
  set (m := _max_num_files g) in *.
  assert (Hc0 : 0 <= ceil_div (_num_files g) m).
  { unfold ceil_div. apply Z.div_pos; lia. }
  destruct (merge_pass_spec (Z.to_nat (ceil_div (_num_files g) m)) 0 [] ms g files)
    as (files1 & ms1 & Hpass & Hruns1 & Hlen1 & Hun1).
  - done.
  - intros _. fold m. lia.
  - done.
  - done.
  - apply runs_at_nil.
  - by rewrite Z.mul_0_l.
  - fold m. rewrite <- Hn. rewrite Z2Nat.id by done. reflexivity.
  - exists files1, ms1. fold m in Hpass.
    rewrite Z2Nat.id, Z.add_0_l in Hpass, Hlen1 by done.
    split; [| split; [done | split; [done |]]].
    + change ((_num_files g + m - 1) `div` m) with (ceil_div (_num_files g) m).
      unfold mbind at 1, M_bind at 1. rewrite Hpass.
      unfold mbind at 1, M_bind at 1, update_self at 1.
      unfold mbind at 1, M_bind at 1, get_self at 1, set_self at 1. cbn [self disk].
      unfold mbind at 1, M_bind at 1, update_self at 1.
      unfold mbind at 1, M_bind at 1, get_self at 1, set_self at 1. cbn [self disk].
      reflexivity.
    + rewrite Hun1. simpl. apply mappend_empty_l.
Qed.

(** The loop makes [s] passes, where [s] is the least number with
    [n <= m ^ (s + 1)], and leaves [ceil(n / m ^ s)] runs. *)
Lemma merge_loop_stages fuel : forall g files ms,
  _num_files g = Z.of_nat (length ms) -> ms <> [] ->
  runs_at files 0 ms -> (length ms <= fuel)%nat ->
  2 <= _max_num_files g ->
  exists (s : nat) g' files' ms',
    _merge_dump_files fuel {| self := g; disk := Some files |}
    = (Ok tt, {| self := g'; disk := Some files' |}) /\
    num_merge_stages g' = num_merge_stages g + Z.of_nat s /\
    _num_files g' = ceil_div (_num_files g) (_max_num_files g ^ Z.of_nat s) /\
    _num_files g <= _max_num_files g ^ (Z.of_nat s + 1) /\
    (1 <= Z.of_nat s -> _max_num_files g ^ Z.of_nat s < _num_files g) /\
    spills g' = spills g /\ total_num_entries g' = total_num_entries g /\
    _max_hashmap_entries g' = _max_hashmap_entries g /\
    _max_memory g' = _max_memory g /\
    _max_num_files g' = _max_num_files g /\
    _num_files g' = Z.of_nat (length ms') /\ ms' <> [] /\
    runs_at files' 0 ms' /\ munion ms' = munion ms.
Proof.
  induction fuel as [|fuel IH]; intros g files ms Hn Hne Hruns Hfuel Hm.
  { destruct ms; [done | simpl in Hfuel; lia]. }
  destruct (decide (_num_files g > _max_num_files g)) as [Hgt | Hle].
  2: { exists 0%nat, g, files, ms.
       split.
       { cbn [_merge_dump_files]. unfold mbind at 1, M_bind at 1, get_self at 1. cbn [self].
         rewrite bool_decide_eq_false_2 by done. reflexivity. }
       change (Z.of_nat 0) with 0. rewrite Z.pow_0_r, ceil_div_1, Z.add_0_r, Z.pow_1_r.
       repeat (split; [first [done | lia] |]). done. }
  destruct (merge_loop_turn fuel g files ms Hn Hruns Hm Hgt)
    as (files1 & ms1 & -> & Hlen1 & Hruns1 & Hun1).
  set (m := _max_num_files g) in *. set (n := _num_files g) in *.
  pose proof (ceil_div_bounds n m ltac:(lia)) as Hc.
  set (c := ceil_div n m) in *.
  set (g1 := set_num_merge_stages _ _).
  assert (Hc1 : 1 <= c) by nia.
  assert (Hcn : c < n) by nia.
  destruct (IH g1 files1 ms1) as
    (s & g' & files' & ms' & Hloop & Hst & Hnf & Hup & Hlow & Hsp & Htot & HM & Hmem & HF
       & Hlen' & Hne' & Hruns' & Hun').
  { subst g1. simpl. lia. }
  { intros ->. simpl in Hlen1. lia. }
  { done. }
  { lia. }
  { subst g1. simpl. done. }
  subst g1. simpl in Hst, Hnf, Hup, Hlow, Hsp, Htot, HM, Hmem, HF. fold m in Hnf, Hup, Hlow, HF.
  exists (S s), g', files', ms'. split; [exact Hloop |].
  assert (Hpow : m ^ Z.of_nat (S s) = m * m ^ Z.of_nat s).
  { rewrite Nat2Z.inj_succ, Z.pow_succ_r by lia. reflexivity. }
  assert (Hpos : 0 < m ^ Z.of_nat s) by (apply Z.pow_pos_nonneg; lia).
  split; [lia |]. split.
  { rewrite Hnf, Hpow. unfold c. apply ceil_div_nested; lia. }
  split.
  { replace (Z.of_nat (S s) + 1) with (Z.succ (Z.of_nat s + 1)) by lia.
    rewrite Z.pow_succ_r by lia. nia. }
  split.
  { intros _. rewrite Hpow. destruct s as [|s'].
    - change (Z.of_nat 0) with 0. rewrite Z.pow_0_r. lia.
    - assert (m ^ Z.of_nat (S s') < c) by (apply Hlow; lia). nia. }
  repeat (split; [first [done | lia | congruence] |]).
  by rewrite Hun', Hun1.
Qed.

End merge_stages.

(** ** The statistics of a whole run *)

Section run_statistics.
Context {V : Type} {V_str : PyStr V} {Z_size : GetSizeOf Z} {V_size : GetSizeOf V}.
Implicit Types input : list (Z * V).

Lemma groupBy_unfold g d input :
  input <> [] ->
  GroupByStatement_groupBy input {| self := g; disk := d |}
  = (_chunk_input_into_dump_files input ≫= fun result =>
     match result with
     | Some hashmap =>
         shutil_rmtree;;
         mret (FromMemory (KeyListIteratorFromMemory_init hashmap))
     | None =>
         g ← get_self;
         _merge_dump_files (Z.to_nat (_num_files g));;
         g ← get_self;
         d ← get_disk;
         it ← lift (KeyListIteratorFromDisk_init
                      (_get_dump_filename <$> py_range 0 (_num_files g)) d);
         mret (FromDisk it)
     end) {| self := reset_statistics g; disk := Some ∅ |}.
Proof. intros Hne. destruct input; [done | reflexivity]. Qed.

Lemma groupBy_in_memory g d input :
  1 <= _max_hashmap_entries g -> input <> [] ->
  Z.of_nat (length input) <= chunk_size (reset_statistics g) input ->
  exists g',
    GroupByStatement_groupBy input {| self := g; disk := d |}
    = (Ok (FromMemory (KeyListIteratorFromMemory_init (hashmap_of input))),
       {| self := g'; disk := None |}) /\
    total_num_entries g' = Z.of_nat (length input) /\
    spills g' = 0 /\ _num_files g' = 0 /\ num_merge_stages g' = 0 /\
    _max_hashmap_entries g' = tuned_max_hashmap_entries (reset_statistics g) input /\
    _max_num_files g' = tuned_max_num_files (reset_statistics g) input.
Proof.
  intros HM Hne Hfit. rewrite groupBy_unfold by done.
  destruct (chunk_input_count input (reset_statistics g) ∅) as
    (res & g' & files' & Hrun & Htot & Hsp & Hst & _ & HM' & HF' & Hmem & _);
    try done.
  destruct (Hmem Hfit) as (-> & Hsp0 & ->).
  rewrite (bind_ok _ _ _ _ _ Hrun). exists g'. split; [reflexivity |].
  repeat (split; [first [done | lia] |]). done.
Qed.

Lemma groupBy_on_disk g d input :
  Forall value_ok input -> 1 <= _max_hashmap_entries g ->
  chunk_size (reset_statistics g) input < Z.of_nat (length input) ->
  2 <= tuned_max_num_files (reset_statistics g) input ->
  exists (s : nat) it g' files',
    GroupByStatement_groupBy input {| self := g; disk := d |}
    = (Ok (FromDisk {| _merge_file_iterator := it |}),
       {| self := g'; disk := Some files' |}) /\
    delivers it (run_of_map (squeeze <$> hashmap_of input)) /\
    total_num_entries g' = Z.of_nat (length input) /\
    spills g' = ceil_div (Z.of_nat (length input)) (chunk_size (reset_statistics g) input) /\
    num_merge_stages g' = Z.of_nat s /\
    spills g' <= _max_num_files g' ^ (Z.of_nat s + 1) /\
    (1 <= Z.of_nat s -> _max_num_files g' ^ Z.of_nat s < spills g') /\
    _num_files g' = ceil_div (spills g') (_max_num_files g' ^ Z.of_nat s) /\
    1 <= _num_files g' <= _max_num_files g' /\
    _max_hashmap_entries g' = tuned_max_hashmap_entries (reset_statistics g) input /\
    _max_num_files g' = tuned_max_num_files (reset_statistics g) input.
Proof.
  intros Hok HM Hbig HF.
  assert (Hne : input <> []).
  { intros ->. unfold chunk_size in Hbig. simpl in Hbig. lia. }
  rewrite groupBy_unfold by done.
  destruct (chunk_input_count input (reset_statistics g) ∅) as
    (res & g1 & files1 & Hrun & Htot & Hsp & Hst & _ & HM1 & HF1 & _ & Hdisk);
    try done.
  destruct (Hdisk Hbig) as (-> & Hsp1).
  destruct (chunk_input_spec input (reset_statistics g) ∅ Hok)
    as (g1' & files1' & _ & [[Hchunk _] | (chunks & Hchunk & Hinv & Hcat & Hcne)]);
    try done; rewrite Hrun in Hchunk; [discriminate Hchunk |].
  injection Hchunk as Hg Hf. subst g1' files1'.
  rewrite (bind_ok _ _ _ _ _ Hrun).
  destruct Hinv as [Hn Hruns].
  assert (Hms : hashmap_of <$> chunks <> []) by (by destruct chunks).
  assert (Hlen : _num_files g1 = Z.of_nat (length (hashmap_of <$> chunks)))
    by (by rewrite length_fmap).
  rewrite (bind_ok get_self _ _ g1 {| self := g1; disk := Some files1 |}) by reflexivity.
  destruct (merge_loop_stages (Z.to_nat (_num_files g1)) g1 files1
              (hashmap_of <$> chunks) Hlen Hms Hruns) as
    (s & g2 & files2 & ms2 & Hloop & Hst2 & Hnf2 & Hup & Hlow & Hsp2 & Htot2 & HM2 & _ & HF2
       & Hn2 & Hne2 & Hruns2 & Hun2); [lia | lia |].
  rewrite (bind_ok _ _ _ _ _ Hloop).
  rewrite (bind_ok get_self _ _ g2 {| self := g2; disk := Some files2 |}) by reflexivity.
  rewrite (bind_ok get_disk _ _ (Some files2) {| self := g2; disk := Some files2 |})
    by reflexivity.
  pose proof (runs_at_Forall2 _ _ _ Hruns2) as Hall.
  destruct (MergeFileIterator_init_spec files2 _ ms2 Hall) as (it & Hinit & Hdel & Hheap).
  exists s, it, g2, files2. split.
  { erewrite bind_ok; [reflexivity |].
    unfold lift, KeyListIteratorFromDisk_init, py_range, _get_dump_filename.
    rewrite Hn2, Z.sub_0_r.
    change ((fun index : Z => dump_ index) <$> seqZ 0 (Z.of_nat (length ms2)))
      with (dump_ <$> seqZ 0 (Z.of_nat (length ms2))).
    rewrite Hinit. reflexivity. }
  split. { by rewrite Hun2, hashmap_of_concat, Hcat in Hdel. }
  assert (Hpos : 0 < _max_num_files g1 ^ Z.of_nat s) by (apply Z.pow_pos_nonneg; lia).
  pose proof (ceil_div_bounds (_num_files g1) (_max_num_files g1 ^ Z.of_nat s) Hpos) as Hc.
  assert (Hnpos : 1 <= _num_files g1).
  { destruct chunks; [done | simpl in Hn; lia]. }
  rewrite HF2, Hsp2, Hsp.
  split; [lia |]. split; [lia |]. split; [simpl in Hst; lia |].
  split; [exact Hup |]. split; [exact Hlow |]. split; [exact Hnf2 |]. split.
  { split; [nia |].
    rewrite Hnf2. apply Z.lt_succ_r.
    replace (Z.of_nat s + 1) with (Z.succ (Z.of_nat s)) in Hup by lia.
    rewrite Z.pow_succ_r in Hup by lia. nia. }
  split; [congruence | done].
Qed.

End run_statistics.

(** ** The iterators of test_utils.py *)

Section incremental_iterator.

Lemma incremental_init n kr vr kj vj :
  IncrementalKeyValueIterator.init n kr vr kj vj
  = incremental_state n kr vr (default 1 kj) (default 1 vj) 0.
Proof.
  unfold IncrementalKeyValueIterator.init, incremental_state.
  rewrite !Z.mul_0_l, !Zmod_0_l, Z.sub_0_r. reflexivity.
Qed.

Lemma incremental_next n kr vr kj vj i :
  i < n -> kr <> 0 -> vr <> 0 ->
  IncrementalKeyValueIterator.next (incremental_state n kr vr kj vj i)
  = (Ok ((i * kj) `mod` kr, (i * vj) `mod` vr), incremental_state n kr vr kj vj (i + 1)).
Proof.
  intros Hi Hkr Hvr. unfold IncrementalKeyValueIterator.next, IncrementalKeyValueIterator.hasNext.
  cbn [incremental_state IncrementalKeyValueIterator.nr_pairs
       IncrementalKeyValueIterator.current_key IncrementalKeyValueIterator.key_jump
       IncrementalKeyValueIterator.key_range].
  rewrite bool_decide_eq_true_2 by lia.
  unfold py_mod at 1. rewrite bool_decide_eq_false_2 by done.
  cbn [IncrementalKeyValueIterator.set_current_key IncrementalKeyValueIterator.current_value
       IncrementalKeyValueIterator.value_jump IncrementalKeyValueIterator.value_range].
  unfold py_mod. rewrite bool_decide_eq_false_2 by done.
  unfold IncrementalKeyValueIterator.set_nr_pairs, IncrementalKeyValueIterator.set_current_value,
    IncrementalKeyValueIterator.set_current_key, incremental_state.
  cbn [IncrementalKeyValueIterator.nr_pairs IncrementalKeyValueIterator.key_range
       IncrementalKeyValueIterator.value_range IncrementalKeyValueIterator.current_key
       IncrementalKeyValueIterator.current_value IncrementalKeyValueIterator.key_jump
       IncrementalKeyValueIterator.value_jump].
  f_equal. f_equal.
  - lia.
  - rewrite Zplus_mod_idemp_l. f_equal. lia.
  - rewrite Zplus_mod_idemp_l. f_equal. lia.
Qed.

Lemma incremental_pull (k : nat) : forall n kr vr kj vj i,
  0 <= i -> n - i <= Z.of_nat k ->
  (i < n -> kr <> 0 /\ vr <> 0) ->
  pull k (incremental_state n kr vr kj vj i)
  = (Ok ((fun j => ((j * kj) `mod` kr, (j * vj) `mod` vr)) <$> seqZ i (n - i)),
     incremental_state n kr vr kj vj (Z.max i n)).
Proof.
  induction k as [|k IH]; intros n kr vr kj vj i Hi Hk Hr.
  - simpl. unfold IncrementalKeyValueIterator.hasNext. simpl.
    rewrite bool_decide_eq_false_2 by lia.
    rewrite seqZ_nil by lia. rewrite Z.max_l by lia. reflexivity.
  - cbn [pull]. cbn [java_hasNext java_next IncrementalKeyValueIterator_java].
    unfold IncrementalKeyValueIterator.hasNext at 1. simpl IncrementalKeyValueIterator.nr_pairs.
    case_bool_decide as Hgt.
    + destruct Hr as [Hkr Hvr]; [lia |].
      rewrite incremental_next by (done || lia).
      rewrite IH by (done || lia).
      rewrite (seqZ_cons i) by lia.
      replace (Z.succ i) with (i + 1) by lia.
      replace (Z.pred (n - i)) with (n - (i + 1)) by lia.
      rewrite fmap_cons. rewrite !Z.max_r by lia. reflexivity.
    + rewrite seqZ_nil by lia. rewrite Z.max_l by lia. reflexivity.
Qed.

Lemma incremental_exhausted n kr vr kj vj i :
  n <= i ->
  IncrementalKeyValueIterator.hasNext (incremental_state n kr vr kj vj i) = false /\
  IncrementalKeyValueIterator.next (incremental_state n kr vr kj vj i)
  = (Raise StopIteration, incremental_state n kr vr kj vj i).
Proof.
  intros Hi. unfold IncrementalKeyValueIterator.next, IncrementalKeyValueIterator.hasNext.
  simpl. rewrite bool_decide_eq_false_2 by lia. done.
Qed.

Lemma incremental_pairs_range n kr vr kj vj :
  0 < kr -> 0 < vr ->
  Forall (fun kv => 0 <= kv.1 < kr /\ 0 <= kv.2 < vr) (incremental_pairs n kr vr kj vj).
Proof.
  intros Hkr Hvr. unfold incremental_pairs. apply Forall_fmap, Forall_forall.
  intros j _. simpl. split; apply Z.mod_pos_bound; done.
Qed.

Lemma incremental_pairs_length n kr vr kj vj :
  length (incremental_pairs n kr vr kj vj) = Z.to_nat n.
Proof. unfold incremental_pairs. by rewrite length_fmap, length_seqZ. Qed.

Lemma incremental_zero_range (k : nat) n kr vr kj vj :
  0 < n -> kr = 0 \/ vr = 0 ->
  (pull (S k) (IncrementalKeyValueIterator.init n kr vr kj vj)).1
  = Raise ZeroDivisionError /\
  IncrementalKeyValueIterator.nr_pairs
    (pull (S k) (IncrementalKeyValueIterator.init n kr vr kj vj)).2 = n.
Proof.
  intros Hn Hz. cbn [pull java_hasNext java_next IncrementalKeyValueIterator_java].
  assert (Hhas : IncrementalKeyValueIterator.hasNext
                   (IncrementalKeyValueIterator.init n kr vr kj vj) = true).
  { unfold IncrementalKeyValueIterator.hasNext, IncrementalKeyValueIterator.init.
    cbn [IncrementalKeyValueIterator.nr_pairs]. apply bool_decide_eq_true. lia. }
  assert (exists it',
    IncrementalKeyValueIterator.next (IncrementalKeyValueIterator.init n kr vr kj vj)
    = (Raise ZeroDivisionError, it') /\ IncrementalKeyValueIterator.nr_pairs it' = n)
    as (it' & Hnext & Hnr).
  { unfold IncrementalKeyValueIterator.next. rewrite Hhas.
    unfold IncrementalKeyValueIterator.init.
    cbn [IncrementalKeyValueIterator.current_key IncrementalKeyValueIterator.key_jump
         IncrementalKeyValueIterator.key_range].
    unfold py_mod at 1. destruct (decide (kr = 0)) as [-> | Hkr].
    - rewrite bool_decide_eq_true_2 by done. by eexists.
    - rewrite bool_decide_eq_false_2 by done.
      destruct Hz as [? | ->]; [done |].
      unfold IncrementalKeyValueIterator.set_current_key.
      cbn [IncrementalKeyValueIterator.current_value IncrementalKeyValueIterator.value_jump
           IncrementalKeyValueIterator.value_range IncrementalKeyValueIterator.nr_pairs].
      unfold py_mod. rewrite bool_decide_eq_true_2 by done. by eexists. }
  rewrite Hhas, Hnext. done.
Qed.

End incremental_iterator.

Section list_iterator.
Context {A : Type}.

Lemma list_iterator_pull (l : list A) : forall (k : nat),
  (length l <= k)%nat ->
  pull k {| ListIterator.nr_pairs := Z.of_nat (length l); ListIterator._iter := l |}
  = (Ok l, {| ListIterator.nr_pairs := 0; ListIterator._iter := [] |}).
Proof.
  induction l as [|x l IH]; intros k Hk.
  - destruct k; reflexivity.
  - destruct k as [|k]; [simpl in Hk; lia |].
    cbn [pull java_hasNext java_next ListIterator_java].
    unfold ListIterator.hasNext, ListIterator.next. cbn [ListIterator.nr_pairs ListIterator._iter].
    rewrite bool_decide_eq_true_2 by (simpl length; lia).
    replace (Z.of_nat (length (x :: l)) - 1) with (Z.of_nat (length l))
      by (simpl length; lia).
    rewrite IH by (simpl in Hk; lia). reflexivity.
Qed.

Lemma list_iterator_overrun (k : nat) : forall n,
  overrun k {| ListIterator.nr_pairs := n; ListIterator._iter := @nil A |}
  = Some {| ListIterator.nr_pairs := n - Z.of_nat k; ListIterator._iter := [] |}.
Proof.
  induction k as [|k IH]; intros n.
  - simpl. by rewrite Z.sub_0_r.
  - cbn [overrun]. unfold ListIterator.next. cbn [ListIterator._iter ListIterator.nr_pairs].
    rewrite IH. do 2 f_equal. lia.
Qed.

End list_iterator.

(** ** The engine driven by an iterator *)

Section engine_on_iterator_facts.
Context {V : Type} {V_str : PyStr V} {Z_size : GetSizeOf Z} {V_size : GetSizeOf V}.
Context {I : Type} {I_java : JavaIterator I (Z * V)}.

Lemma pull_nonempty (fuel : nat) (it it' : I) l :
  pull fuel it = (Ok l, it') -> (java_hasNext it = true <-> l <> []).
Proof.
  intros Hpull. destruct fuel as [|fuel]; cbn [pull] in Hpull;
    destruct (java_hasNext it); try done.
  - by simplify_eq.
  - destruct (java_next it) as [[x | e |] it1]; try done.
    destruct (pull fuel it1) as [[l1 | e |] it2]; try done. by simplify_eq.
  - by simplify_eq.
Qed.

Lemma chunk_loop_on_pull (fuel : nat) : forall (it it' : I) l,
  pull fuel it = (Ok l, it') ->
  forall n h w, chunk_loop_on fuel it n h w = chunk_loop l n h w.
Proof.
  induction fuel as [|fuel IH]; intros it it' l Hpull n h w.
  - cbn [pull] in Hpull. cbn [chunk_loop_on].
    destruct (java_hasNext it); [done |]. by simplify_eq.
  - cbn [pull] in Hpull. cbn [chunk_loop_on].
    destruct (java_hasNext it); [| by simplify_eq].
    destruct (java_next it) as [[[key value] | e |] it1] eqn:Hnext; try done.
    destruct (pull fuel it1) as [[l1 | e |] it2] eqn:Hpull1; try done.
    simplify_eq. cbn [chunk_loop]. unfold mbind, M_bind.
    destruct (spill_if_full n h w) as [[[n1 h1] | e |] w1]; try reflexivity.
    destruct (update_self _ w1) as [[[] | e |] w2]; try reflexivity.
    destruct (auto_tune key value w2) as [[[] | e |] w3]; try reflexivity.
    eapply IH, Hpull1.
Qed.

(** Driven by an iterator whose [hasNext]/[next] loop delivers [l],
    [groupBy] does what it does on [l]. *)
Lemma groupBy_on_pull (fuel : nat) (it it' : I) l w :
  pull fuel it = (Ok l, it') ->
  GroupByStatement_groupBy_on fuel it w = GroupByStatement_groupBy l w.
Proof.
  intros Hpull. pose proof (pull_nonempty _ _ _ _ Hpull) as Hne.
  unfold GroupByStatement_groupBy_on, GroupByStatement_groupBy.
  destruct (java_hasNext it).
  - destruct l as [|kv l]; [by destruct Hne as [Hne _]; destruct Hne |].
    cbn [negb]. unfold mbind, M_bind.
    destruct (update_self reset_statistics w) as [[[] | e |] w1]; try reflexivity.
    destruct (os_mkdir w1) as [[[] | e |] w2]; try reflexivity.
    unfold _chunk_input_into_dump_files_on, _chunk_input_into_dump_files.
    unfold mbind, M_bind.
    rewrite (chunk_loop_on_pull fuel it it' (kv :: l) Hpull). reflexivity.
  - destruct l as [|kv l]; [reflexivity |].
    destruct Hne as [_ Hne]. by discriminate Hne.
Qed.

End engine_on_iterator_facts.

(** ** The consumers of a result iterator *)

Section consumers.

(** What the [hasNext]/[next] loop collects, [compare_outputs] accepts
    when it is the expected list, and leaves the same state. *)
Lemma compare_loop_drain (fuel : nat) : forall it acc w res it' w',
  drain_loop fuel it acc w = (Ok (res, it'), w') ->
  exists out,
    res = acc ++ out /\
    forall seen len,
      compare_loop fuel it out seen len w
      = (Ok (if bool_decide (seen + Z.of_nat (length out) = len)
             then Passed else AssertionError), w').
Proof.
  induction fuel as [|fuel IH]; intros it acc w res it' w' Hdrain.
  - cbn [drain_loop] in Hdrain. cbn [compare_loop].
    destruct (hasNext it); [done |].
    unfold mret, M_ret in Hdrain. simplify_eq.
    exists []. rewrite app_nil_r. split; [done |]. intros seen len.
    simpl length. rewrite Z.add_0_r. reflexivity.
  - cbn [drain_loop] in Hdrain. cbn [compare_loop].
    destruct (hasNext it).
    + unfold mbind at 1, M_bind at 1 in Hdrain.
      destruct (next it w) as [[[r it1] | e |] w1] eqn:Hnext; try done.
      apply IH in Hdrain as (out & -> & Hcmp).
      exists (r :: out). rewrite <- app_assoc. split; [done |]. intros seen len.
      unfold mbind at 1, M_bind at 1. rewrite Hnext.
      rewrite decide_True by done. rewrite Hcmp.
      replace (seen + 1 + Z.of_nat (length out))
        with (seen + Z.of_nat (length (r :: out))) by (simpl length; lia).
      reflexivity.
    + unfold mret, M_ret in Hdrain. simplify_eq.
      exists []. rewrite app_nil_r. split; [done |]. intros seen len.
      simpl length. rewrite Z.add_0_r. reflexivity.
Qed.

Lemma for_each_memory keys : forall hashmap rem fuel w,
  (length keys < fuel)%nat ->
  for_each fuel
    (FromMemory {| _hashmap := hashmap; _iter := keys; _remaining_elements := rem |}) w
  = (Ok ((fun key => (key, hashmap !!! key)) <$> keys), w).
Proof.
  induction keys as [|key keys IH]; intros hashmap rem fuel w Hfuel.
  - destruct fuel as [|fuel]; [simpl in Hfuel; lia |]. reflexivity.
  - destruct fuel as [|fuel]; [simpl in Hfuel; lia |].
    cbn [for_each]. unfold next, KeyListIteratorFromMemory_next.
    cbn [_iter _hashmap _remaining_elements].
    unfold mbind at 1, M_bind at 1, lift at 1. unfold mret at 1, M_ret at 1.
    rewrite IH by (simpl in Hfuel; lia). reflexivity.
Qed.

Lemma for_each_end_disk fuel g d :
  for_each (S fuel) (FromDisk {| _merge_file_iterator := {| _heap := [] |} |})
    {| self := g; disk := d |}
  = (Ok [], {| self := g; disk := d |}).
Proof. reflexivity. Qed.

Lemma for_each_disk it l :
  delivers it l -> forall fuel g files,
  _heap it <> [] -> (heap_size (_heap it) < fuel)%nat ->
  for_each fuel (FromDisk {| _merge_file_iterator := it |})
    {| self := g; disk := Some files |}
  = (Ok l, {| self := g; disk := None |}).
Proof.
  induction 1 as [| it x it' l Hne Hnext Hdel IH]; intros fuel g files Hne' Hfuel;
    [done |].
  destruct fuel as [|fuel]; [lia |].
  cbn [for_each]. unfold next, KeyListIteratorFromDisk_next. cbn [_merge_file_iterator].
  unfold mbind at 1, M_bind at 1. unfold mbind at 1, M_bind at 1.
  unfold mbind at 1, M_bind at 1, lift at 1. rewrite Hnext.
  unfold KeyListIteratorFromDisk_hasNext, MergeFileIterator_hasNext.
  cbn [_merge_file_iterator].
  pose proof (MergeFileIterator_next_size _ _ _ Hnext) as Hsize.
  destruct it' as [heap']. cbn [_heap] in *.
  destruct heap' as [|e heap'].
  - apply delivers_nil_heap in Hdel as ->.
    rewrite bool_decide_eq_false_2 by (intros Hx; by apply Hx).
    cbn [negb].
    assert (Hrm : shutil_rmtree {| self := g; disk := Some files |}
                  = (Ok tt, {| self := g; disk := None |})) by reflexivity.
    rewrite Hrm. unfold mret, M_ret. cbn beta iota.
    destruct fuel as [|fuel]; [simpl in Hfuel; lia |].
    rewrite for_each_end_disk. reflexivity.
  - rewrite bool_decide_eq_true_2 by done. cbn [negb].
    unfold mret, M_ret. cbn beta iota.
    rewrite IH by (done || lia). reflexivity.
Qed.

End consumers.

(** ** The writer on values of any type *)

Section writer_facts.
Context {W : Type} {W_str : PyStr W}.

Lemma write_loop_render (fuel : nat) : forall (l : list (Z * list W)) f w,
  write_loop fuel l f w = write_loop fuel (render_run l) f w.
Proof.
  induction fuel as [|fuel IH]; intros l f w; [reflexivity |].
  destruct l as [|[key values] l]; [reflexivity |].
  cbn [write_loop render_run fmap list_fmap iter_next list_iterator fst snd].
  unfold mbind, M_bind.
  destruct (file_write f (py_str key ++ [Py.LF]) w) as [[[] | e |] w1]; try reflexivity.
  replace (@py_str (list ascii) PyStr_str <$> (py_str <$> values)) with (py_str <$> values)
    by (symmetry; apply list_fmap_id).
  destruct (file_write f _ w1) as [[[] | e |] w2]; try reflexivity.
  apply IH.
Qed.

Lemma write_render (l : list (Z * list W)) f w :
  write_key_values_to_file l f w = write_key_values_to_file (render_run l) f w.
Proof.
  unfold write_key_values_to_file. unfold mbind, M_bind.
  destruct (open_write f w) as [[[] | e |] w1]; try reflexivity.
  cbn [iter_size list_iterator]. unfold render_run. rewrite length_fmap.
  apply write_loop_render.
Qed.

Lemma write_missing_directory (l : list (Z * list W)) f g :
  write_key_values_to_file l f {| self := g; disk := None |}
  = (Raise FileNotFoundError, {| self := g; disk := None |}).
Proof. reflexivity. Qed.

End writer_facts.

(** ** Opening the files of a merge *)

Section open_facts.

Lemma open_all_missing d filelist f :
  f ∈ filelist -> open_read d f = Raise FileNotFoundError ->
  open_all d filelist = Raise FileNotFoundError.
Proof.
  intros Hin Hf. induction filelist as [|f' filelist IH]; [by apply elem_of_nil in Hin |].
  cbn [open_all].
  destruct (open_read d f') as [t | e |] eqn:Hf'.
  - cbn [mbind outcome_bind]. apply elem_of_cons in Hin as [-> | Hin]; [congruence |].
    rewrite IH by done. reflexivity.
  - cbn [mbind outcome_bind]. unfold open_read in Hf'.
    destruct d as [files|]; [destruct (files !! f') |]; congruence.
  - unfold open_read in Hf'. destruct d as [files|]; [destruct (files !! f') |]; congruence.
Qed.

Lemma init_missing_file d filelist f :
  f ∈ filelist -> open_read d f = Raise FileNotFoundError ->
  MergeFileIterator_init filelist d = Raise FileNotFoundError.
Proof.
  intros Hin Hf. unfold MergeFileIterator_init.
  by rewrite (open_all_missing d filelist f).
Qed.

End open_facts.

(** ** The limits in force *)

Section limits.
Context {V : Type} {V_str : PyStr V} {Z_size : GetSizeOf Z} {V_size : GetSizeOf V}.
Implicit Types input : list (Z * V).

Lemma tuned_max_memory g key (value : V) : _max_memory (tuned g key value) = _max_memory g.
Proof. unfold tuned. case_bool_decide; reflexivity. Qed.

Lemma chunk_loop_limits input : forall n h g files r g' d',
  chunk_loop input n h {| self := g; disk := Some files |}
  = (Ok r, {| self := g'; disk := d' |}) ->
  _max_memory g' = _max_memory g /\
  (1 <= total_num_entries g ->
   _max_hashmap_entries g' = _max_hashmap_entries g /\
   _max_num_files g' = _max_num_files g) /\
  (total_num_entries g = 0 ->
   _max_hashmap_entries g' = tuned_max_hashmap_entries g input /\
   _max_num_files g' = tuned_max_num_files g input).
Proof.
  induction input as [|[key value] rest IH]; intros n h g files r g' d' Hrun.
  - cbn in Hrun. unfold mret, M_ret in Hrun. simplify_eq. done.
  - rewrite chunk_loop_cons, spill_if_full_eq in Hrun.
    assert (exists gs fs,
      chunk_loop rest (if bool_decide (n >= _max_hashmap_entries g) then 0 + 1 else n + 1)
        (if bool_decide (n >= _max_hashmap_entries g)
         then <[key := ((∅ : gmap Z (list (list ascii))) !!! key) ++ [py_str value]]> ∅
         else <[key := (h !!! key) ++ [py_str value]]> h)
        {| self := tuned (set_total_num_entries (total_num_entries gs + 1) gs) key value;
           disk := Some fs |}
      = (Ok r, {| self := g'; disk := d' |}) /\
      _max_memory gs = _max_memory g /\ total_num_entries gs = total_num_entries g /\
      _max_hashmap_entries gs = _max_hashmap_entries g /\
      _max_num_files gs = _max_num_files g) as (gs & fs & Hrest & Hmem & Htot & HM & HF).
    { destruct (decide (n >= _max_hashmap_entries g)) as [Hfull | Hfull].
      - rewrite !bool_decide_eq_true_2 by done.
        rewrite bool_decide_eq_true_2 in Hrun by done.
        cbn beta iota zeta in Hrun; cbn [self disk] in Hrun.
        eexists _, _. split; [exact Hrun |]. done.
      - rewrite !bool_decide_eq_false_2 by done.
        rewrite bool_decide_eq_false_2 in Hrun by done.
        cbn beta iota zeta in Hrun; cbn [self disk] in Hrun.
        eexists _, _. split; [exact Hrun |]. repeat split. }
    apply IH in Hrest as (Hmem' & Hlate & _).
    set (g1 := tuned (set_total_num_entries (total_num_entries gs + 1) gs) key value) in *.
    assert (Hmem1 : _max_memory g1 = _max_memory gs).
    { subst g1. by rewrite tuned_max_memory. }
    destruct (tuned_fields (set_total_num_entries (total_num_entries gs + 1) gs) key value)
      as (_ & Htot1 & _). fold g1 in Htot1. simpl in Htot1.
    split; [congruence |]. split.
    + intros Hpos. destruct Hlate as [HM' HF']; [lia |].
      assert (g1 = set_total_num_entries (total_num_entries gs + 1) gs) as Hg1
        by (subst g1; apply tuned_id; simpl; lia).
      rewrite Hg1 in HM', HF'. simpl in HM', HF'. split; congruence.
    + intros Hzero. destruct Hlate as [HM' HF']; [lia |].
      destruct (tuned_first_pair gs key value rest) as [HM1 HF1]; [lia |]. fold g1 in HM1, HF1.
      rewrite HM', HF', HM1, HF1.
      unfold tuned_max_hashmap_entries, tuned_max_num_files. rewrite Hmem, Htot, HM, HF. done.
Qed.

End limits.

(** ** The names in the request directory *)

Section names_after_io.
Implicit Types files : gmap fname (list ascii).

Lemma elem_of_dump_names f n :
  f ∈ dump_names n <-> exists i, f = dump_ i /\ 0 <= i < n.
Proof.
  unfold dump_names. rewrite elem_of_list_to_set, list_elem_of_fmap.
  split; intros (i & -> & Hi); exists i; (split; [done |]).
  - apply elem_of_seqZ in Hi. lia.
  - apply elem_of_seqZ. lia.
Qed.

Lemma file_write_names f s g files w' :
  file_write f s {| self := g; disk := Some files |} = (Ok tt, w') ->
  exists files', w' = {| self := g; disk := Some files' |} /\
    forall f', is_Some (files' !! f') <-> f' = f \/ is_Some (files !! f').
Proof.
  unfold file_write. unfold_M. simpl. intros [= <-]. eexists. split; [reflexivity |].
  intros f'. destruct (decide (f' = f)) as [-> | Hne].
  - rewrite lookup_insert_eq. split; [by left | by eexists].
  - rewrite lookup_insert_ne by done. split; [by right | by intros [? | ?]].
Qed.

Lemma write_loop_names {I W} `{PyIterator I (Z * list W)} `{PyStr W} (fuel : nat) :
  forall (it : I) f g files w',
  is_Some (files !! f) ->
  write_loop fuel it f {| self := g; disk := Some files |} = (Ok tt, w') ->
  exists files', w' = {| self := g; disk := Some files' |} /\
    forall f', is_Some (files' !! f') <-> is_Some (files !! f').
Proof.
  induction fuel as [|fuel IH]; intros it f g files w' Hf Hrun; [done |].
  cbn [write_loop] in Hrun.
  destruct (iter_next it) as [[[key values] rest] | e |]; [| | done].
  - unfold mbind at 1, M_bind at 1 in Hrun.
    destruct (file_write f _ _) as [[[] | e |] w1] eqn:Hw1; try done.
    apply file_write_names in Hw1 as (files1 & -> & Hn1).
    unfold mbind at 1, M_bind at 1 in Hrun.
    destruct (file_write f _ _) as [[[] | e |] w2] eqn:Hw2; try done.
    apply file_write_names in Hw2 as (files2 & -> & Hn2).
    apply IH in Hrun as (files' & -> & Hn'); [| apply Hn2; by left].
    exists files'. split; [done |]. intros f'. rewrite Hn', Hn2, Hn1.
    split; [intros [-> | [-> | ?]]; done | by intros ?; right; right].
  - destruct e; try done. unfold mret, M_ret in Hrun. simplify_eq.
    by exists files.
Qed.

Lemma write_names {I W} `{PyIterator I (Z * list W)} `{PyStr W}
    (it : I) f g files w' :
  write_key_values_to_file it f {| self := g; disk := Some files |} = (Ok tt, w') ->
  exists files', w' = {| self := g; disk := Some files' |} /\
    forall f', is_Some (files' !! f') <-> f' = f \/ is_Some (files !! f').
Proof.
  unfold write_key_values_to_file. unfold mbind at 1, M_bind at 1.
  rewrite open_write_ok. intros Hrun.
  apply write_loop_names in Hrun as (files' & -> & Hn'); [| by rewrite lookup_insert_eq].
  exists files'. split; [done |]. intros f'. rewrite Hn'.
  destruct (decide (f' = f)) as [-> | Hne].
  - rewrite lookup_insert_eq. split; [by left | by eexists].
  - rewrite lookup_insert_ne by done. split; [by right | by intros [? | ?]].
Qed.

Lemma remove_all_names filename_list : forall g files w',
  remove_all filename_list {| self := g; disk := Some files |} = (Ok tt, w') ->
  exists files', w' = {| self := g; disk := Some files' |} /\
    forall f, is_Some (files' !! f) <-> is_Some (files !! f) /\ f ∉ filename_list.
Proof.
  induction filename_list as [|f0 fl IH]; intros g files w' Hrun.
  - cbn in Hrun. unfold mret, M_ret in Hrun. simplify_eq. exists files. split; [done |].
    intros f. split; [intros ?; split; [done | apply not_elem_of_nil] | tauto].
  - cbn [remove_all] in Hrun. unfold mbind at 1, M_bind at 1 in Hrun.
    unfold os_remove in Hrun. unfold mbind at 1, M_bind at 1, get_disk at 1 in Hrun.
    cbn [disk] in Hrun. destruct (files !! f0) as [t|] eqn:Hf0; [| done].
    unfold set_disk at 1 in Hrun. cbn [self] in Hrun.
    apply IH in Hrun as (files' & -> & Hn'). exists files'. split; [done |].
    intros f. rewrite Hn', not_elem_of_cons.
    destruct (decide (f = f0)) as [-> | Hne].
    + rewrite lookup_delete_eq. split; [by intros [[? ?] _] | tauto].
    + rewrite lookup_delete_ne by done. tauto.
Qed.

Lemma shutil_move_names src dst g files w' :
  shutil_move src dst {| self := g; disk := Some files |} = (Ok tt, w') ->
  exists files', w' = {| self := g; disk := Some files' |} /\
    forall f, is_Some (files' !! f) <-> f = dst \/ (is_Some (files !! f) /\ f <> src).
Proof.
  unfold shutil_move. unfold_M. simpl. destruct (files !! src) as [t|] eqn:Hsrc; [| done].
  intros [= <-]. eexists. split; [reflexivity |]. intros f.
  destruct (decide (f = dst)) as [-> | Hne].
  - rewrite lookup_insert_eq. split; [by left | by eexists].
  - rewrite lookup_insert_ne by done.
    destruct (decide (f = src)) as [-> | Hne'].
    + rewrite lookup_delete_eq. split; [by intros [? ?] | intros [? | [_ ?]]; done].
    + rewrite lookup_delete_ne by done. split; [by right | by intros [? | [? _]]].
Qed.

End names_after_io.

Section names_after_merge.
Context {V : Type} {V_str : PyStr V} {Z_size : GetSizeOf Z} {V_size : GetSizeOf V}.
Implicit Types files : gmap fname (list ascii).

(** One group: its sources and the scratch file are gone, its slot is
    there, nothing else has changed. *)
Lemma merge_group_names g files base j w' :
  files !! _merge = None ->
  merge_group base j {| self := g; disk := Some files |} = (Ok tt, w') ->
  exists files', w' = {| self := g; disk := Some files' |} /\
    forall f, is_Some (files' !! f) <->
      f = dump_ j \/
      (is_Some (files !! f) /\
       f ∉ dump_ <$> py_range base (Z.min (_num_files g) (base + _max_num_files g))).
Proof.
  intros Hmerge Hrun. unfold merge_group in Hrun.
  unfold mbind at 1, M_bind at 1, get_self at 1 in Hrun. cbn [self] in Hrun.
  change (_get_dump_filename <$> ?l) with (dump_ <$> l) in Hrun.
  unfold _get_dump_filename, _get_merge_filename in Hrun.
  set (srcs := dump_ <$> py_range base (Z.min (_num_files g) (base + _max_num_files g))) in *.
  assert (Hmulti : forall w',
    (d ← get_disk;
     it ← lift (MergeFileIterator_init srcs d);
     write_key_values_to_file it _merge;;
     remove_all srcs;;
     shutil_move _merge (dump_ j)) {| self := g; disk := Some files |} = (Ok tt, w') ->
    exists files', w' = {| self := g; disk := Some files' |} /\
      forall f, is_Some (files' !! f) <->
        f = dump_ j \/ (is_Some (files !! f) /\ f ∉ srcs)).
  { clear Hrun w'. intros w' Hrun.
    unfold mbind at 1, M_bind at 1, get_disk at 1 in Hrun. cbn [disk] in Hrun.
    unfold mbind at 1, M_bind at 1, lift at 1 in Hrun.
    destruct (MergeFileIterator_init srcs (Some files)) as [it | e |]; try done.
    unfold mbind at 1, M_bind at 1 in Hrun.
    destruct (write_key_values_to_file it _merge _) as [[[] | e |] w1] eqn:Hw; try done.
    apply write_names in Hw as (files1 & -> & Hn1).
    unfold mbind at 1, M_bind at 1 in Hrun.
    destruct (remove_all srcs _) as [[[] | e |] w2] eqn:Hr; try done.
    apply remove_all_names in Hr as (files2 & -> & Hn2).
    apply shutil_move_names in Hrun as (files3 & -> & Hn3).
    exists files3. split; [done |]. intros f. rewrite Hn3, Hn2, Hn1.
    assert (Hms : _merge ∉ srcs).
    { unfold srcs. rewrite list_elem_of_fmap. by intros (i & ? & _). }
    split.
    - intros [-> | [[[-> | Hf] Hs] Hne]]; [by left | done | by right].
    - intros [-> | [Hf Hs]]; [by left |]. right.
      split; [split; [by right | done] |]. intros ->. rewrite Hmerge in Hf. by destruct Hf. }
  destruct srcs as [|only [|second srcs']] eqn:Hsrcs.
  - apply Hmulti, Hrun.
  - apply shutil_move_names in Hrun as (files' & -> & Hn').
    exists files'. split; [done |]. intros f. rewrite Hn'.
    rewrite list_elem_of_singleton. tauto.
  - apply Hmulti, Hrun.
Qed.

(** A pass from its [j]-th group on: slots below [j] and sources from
    [j * max_num_files] on become slots below [j + cnt]. *)
Lemma merge_pass_names g (cnt : nat) : forall j files c w',
  2 <= _max_num_files g -> 0 <= j ->
  (forall f, is_Some (files !! f) <->
     exists i, f = dump_ i /\
       (0 <= i < j \/ j * _max_num_files g <= i < _num_files g)) ->
  merge_pass ((fun j' => j' * _max_num_files g) <$> seqZ j (Z.of_nat cnt)) j
    {| self := g; disk := Some files |} = (Ok c, w') ->
  exists files', w' = {| self := g; disk := Some files' |} /\
    forall f, is_Some (files' !! f) <->
      exists i, f = dump_ i /\
        (0 <= i < j + Z.of_nat cnt \/
         (j + Z.of_nat cnt) * _max_num_files g <= i < _num_files g).
Proof.
  set (m := _max_num_files g). set (n := _num_files g).
  induction cnt as [|cnt IH]; intros j files c w' Hm Hj Hinv Hrun.
  - rewrite seqZ_nil in Hrun by lia. cbn in Hrun. unfold mret, M_ret in Hrun.
    simplify_eq. exists files. split; [done |].
    intros f. rewrite Hinv. fold m n. change (Z.of_nat 0) with 0. rewrite Z.add_0_r. reflexivity.
  - rewrite seqZ_cons in Hrun by lia. rewrite fmap_cons in Hrun.
    cbn [merge_pass] in Hrun. unfold mbind at 1, M_bind at 1 in Hrun.
    destruct (merge_group (j * m) j _) as [[[] | e |] w1] eqn:Hgrp; try done.
    apply merge_group_names in Hgrp as (files1 & -> & Hn1).
    2: { destruct (files !! _merge) eqn:Hx; [| done].
         assert (is_Some (files !! _merge)) as Hs by (by eexists).
         apply Hinv in Hs as (i & ? & _). done. }
    replace (Z.pred (Z.of_nat (S cnt))) with (Z.of_nat cnt) in Hrun by lia.
    replace (Z.succ j) with (j + 1) in Hrun by lia.
    assert (Hinv1 : forall f, is_Some (files1 !! f) <->
              exists i, f = dump_ i /\ (0 <= i < j + 1 \/ (j + 1) * m <= i < n)).
    { intros f. rewrite Hn1, Hinv. fold m n.
      rewrite list_elem_of_fmap. setoid_rewrite elem_of_py_range.
      split.
      * intros [-> | [(i & -> & Hi) Hs]]; [exists j; split; [done | lia] |].
        exists i. split; [done |].
        destruct (decide (i < j)) as [? | ?]; [lia |]. right.
        destruct (decide ((j + 1) * m <= i)) as [? | Hlt]; [lia |].
        exfalso. apply Hs. exists i. split; [done | lia].
      * intros (i & -> & Hi). destruct (decide (i = j)) as [-> | Hne]; [by left |].
        right. split; [exists i; split; [done | nia] |].
        intros (i' & [= <-] & Hi'). nia. }
    destruct (IH (j + 1) files1 c w' Hm ltac:(lia) Hinv1 Hrun) as (files' & -> & Hn').
    exists files'. split; [done |]. intros f. rewrite Hn'.
    replace (j + 1 + Z.of_nat cnt) with (j + Z.of_nat (S cnt)) by lia. done.
Qed.

(** The merge loop keeps the directory to the live runs. *)
Lemma merge_loop_names (fuel : nat) : forall g files w',
  0 <= _num_files g ->
  (forall f, is_Some (files !! f) <-> f ∈ dump_names (_num_files g)) ->
  _merge_dump_files fuel {| self := g; disk := Some files |} = (Ok tt, w') ->
  exists files', disk w' = Some files' /\
    0 <= _num_files (self w') /\
    (1 <= _num_files g -> 1 <= _num_files (self w')) /\
    forall f, is_Some (files' !! f) <-> f ∈ dump_names (_num_files (self w')).
Proof.
  induction fuel as [|fuel IH]; intros g files w' Hn Hinv Hrun.
  - cbn [_merge_dump_files] in Hrun.
    unfold mbind at 1, M_bind at 1, get_self at 1 in Hrun. cbn [self] in Hrun.
    case_bool_decide; [done |]. unfold mret, M_ret in Hrun. simplify_eq. by exists files.
  - cbn [_merge_dump_files] in Hrun.
    unfold mbind at 1, M_bind at 1, get_self at 1 in Hrun. cbn [self] in Hrun.
    case_bool_decide as Hgt;
      [| unfold mret, M_ret in Hrun; simplify_eq; by exists files].
    case_bool_decide as Hm.
    { unfold mbind at 1, M_bind at 1 in Hrun.
      destruct (shutil_rmtree _) as [[[] | e |] w1]; done. }
    unfold mbind at 1, M_bind at 1 in Hrun.
    destruct (merge_pass _ 0 _) as [[c | e |] w1] eqn:Hpass; try done.
    pose proof (merge_pass_slot _ _ _ _ _ Hpass) as Hc.
    unfold py_range_step in Hpass, Hc. rewrite bool_decide_eq_true_2 in Hpass, Hc by lia.
    set (m := _max_num_files g) in *. set (n := _num_files g) in *.
    pose proof (ceil_div_bounds n m ltac:(lia)) as Hb. unfold ceil_div in Hb.
    set (q := (n + m - 1) `div` m) in *.
    assert (Hq : 0 <= q) by nia.
    rewrite length_fmap, length_seqZ in Hc.
    rewrite <- (Z2Nat.id q) in Hpass by done.
    apply (merge_pass_names g (Z.to_nat q) 0 files) in Hpass as (files1 & -> & Hn1);
      [| lia | lia |].
    2: { intros f. rewrite Hinv, elem_of_dump_names. fold n.
         split; intros (i & -> & Hi); exists i; (split; [done | lia]). }
    unfold mbind at 1, M_bind at 1, update_self at 1 in Hrun.
    unfold mbind at 1, M_bind at 1, get_self at 1, set_self at 1 in Hrun.
    cbn [self disk] in Hrun.
    unfold mbind at 1, M_bind at 1, update_self at 1 in Hrun.
    unfold mbind at 1, M_bind at 1, get_self at 1, set_self at 1 in Hrun.
    cbn [self disk] in Hrun.
    apply IH in Hrun as (files' & Hd' & Hn' & Hpos' & Hinv'); [| simpl; lia |].
    + exists files'. split; [done |]. split; [done |]. split; [| done].
      intros Hn1'. apply Hpos'. simpl. nia.
    + intros f. rewrite Hn1. simpl _num_files. rewrite elem_of_dump_names.
      fold m n. rewrite Z2Nat.id by done.
      split; intros (i & -> & Hi); exists i; (split; [done |]); nia.
Qed.

(** The accumulator's loop adds one dump file per spill. *)
Lemma chunk_loop_names (input : list (Z * V)) : forall n h g files r w',
  0 <= _num_files g ->
  (forall f, is_Some (files !! f) <-> f ∈ dump_names (_num_files g)) ->
  chunk_loop input n h {| self := g; disk := Some files |} = (Ok r, w') ->
  exists files', disk w' = Some files' /\
    0 <= _num_files (self w') /\
    forall f, is_Some (files' !! f) <-> f ∈ dump_names (_num_files (self w')).
Proof.
  induction input as [|[key value] rest IH]; intros n h g files r w' Hn Hinv Hrun.
  - cbn in Hrun. unfold mret, M_ret in Hrun. simplify_eq. by exists files.
  - rewrite chunk_loop_cons, spill_if_full_eq in Hrun.
    destruct (decide (n >= _max_hashmap_entries g)) as [Hfull | Hfull].
    + rewrite bool_decide_eq_true_2 in Hrun by done.
      cbn beta iota zeta in Hrun; cbn [self disk] in Hrun.
      apply IH in Hrun; [done | |].
      * rewrite (proj1 (tuned_fields _ key value)). simpl. lia.
      * intros f. rewrite (proj1 (tuned_fields _ key value)). simpl _num_files.
        rewrite elem_of_dump_names.
        destruct (decide (f = dump_ (_num_files g))) as [-> | Hne].
        -- rewrite lookup_insert_eq. split; [| by eexists].
           intros _. exists (_num_files g). split; [done | lia].
        -- rewrite lookup_insert_ne by done. rewrite Hinv, elem_of_dump_names.
           split; intros (i & -> & Hi); exists i; (split; [done |]).
           ++ lia.
           ++ destruct (decide (i = _num_files g)) as [-> | ?]; [done | lia].
    + rewrite bool_decide_eq_false_2 in Hrun by done.
      cbn beta iota zeta in Hrun; cbn [self disk] in Hrun.
      apply IH in Hrun; [done | |].
      * rewrite (proj1 (tuned_fields _ key value)). simpl. lia.
      * intros f. rewrite (proj1 (tuned_fields _ key value)). simpl _num_files. apply Hinv.
Qed.

(** The request directory behind a disk iterator holds the live runs
    and nothing else. *)
Lemma groupBy_names g d (input : list (Z * V)) it w :
  GroupByStatement_groupBy input {| self := g; disk := d |} = (Ok (FromDisk it), w) ->
  exists files, disk w = Some files /\
    1 <= _num_files (self w) /\
    dom files = dump_names (_num_files (self w)).
Proof.
  intros Hrun. destruct (decide (input = [])) as [-> | Hne]; [done |].
  rewrite groupBy_unfold in Hrun by done.
  unfold mbind at 1, M_bind at 1 in Hrun.
  unfold _chunk_input_into_dump_files in Hrun.
  unfold mbind at 1, M_bind at 1 in Hrun.
  destruct (chunk_loop input 0 ∅ _) as [[[n1 h1] | e |] w1] eqn:Hloop; try done.
  apply chunk_loop_names in Hloop as (files1 & Hd1 & Hn1 & Hinv1); [| simpl; lia |].
  2: { intros f. simpl _num_files. rewrite lookup_empty, elem_of_dump_names.
       split; [by intros [? ?] | intros (i & _ & ?); lia]. }
  destruct w1 as [g1 d1]. cbn [self disk] in *. subst d1.
  unfold mbind at 1, M_bind at 1, get_self at 1 in Hrun. cbn [self] in Hrun.
  case_bool_decide as Hz.
  { unfold mret, M_ret in Hrun. cbn in Hrun.
    unfold mbind, M_bind in Hrun. by destruct (shutil_rmtree _) as [[[] | e |] w2]. }
  assert (exists g2 files2,
    (g ← get_self;
     _merge_dump_files (Z.to_nat (_num_files g));;
     g ← get_self;
     d ← get_disk;
     it ← lift (KeyListIteratorFromDisk_init
                  (_get_dump_filename <$> py_range 0 (_num_files g)) d);
     mret (FromDisk it)) {| self := g2; disk := Some files2 |} = (Ok (FromDisk it), w) /\
    1 <= _num_files g2 /\
    forall f, is_Some (files2 !! f) <-> f ∈ dump_names (_num_files g2))
    as (g2 & files2 & Hrest & Hn2 & Hinv2).
  { case_bool_decide as Hc.
    - unfold mbind at 1, M_bind at 1 in Hrun. unfold mbind at 1, M_bind at 1 in Hrun.
      unfold mbind at 1, M_bind at 1 in Hrun.
      unfold _get_dump_filename at 1 in Hrun. rewrite dump_spec in Hrun.
      unfold mret at 1, M_ret at 1 in Hrun. unfold mret at 1, M_ret at 1 in Hrun.
      eexists _, _. split; [exact Hrun |]. simpl _num_files. split; [lia |].
      intros f. rewrite elem_of_dump_names.
      destruct (decide (f = dump_ (_num_files g1))) as [-> | Hne'].
      + rewrite lookup_insert_eq. split; [| by eexists].
        intros _. exists (_num_files g1). split; [done | lia].
      + rewrite lookup_insert_ne by done. rewrite Hinv1, elem_of_dump_names.
        split; intros (i & -> & Hi); exists i; (split; [done |]).
        * lia.
        * destruct (decide (i = _num_files g1)) as [-> | ?]; [done | lia].
    - unfold mbind at 1, M_bind at 1 in Hrun. unfold mbind at 1, M_bind at 1 in Hrun.
      unfold mret at 1, M_ret at 1 in Hrun. unfold mret at 1, M_ret at 1 in Hrun.
      exists g1, files1. split; [exact Hrun |]. split; [lia | done]. }
  clear Hrun. unfold mbind at 1, M_bind at 1, get_self at 1 in Hrest. cbn [self] in Hrest.
  unfold mbind at 1, M_bind at 1 in Hrest.
  destruct (_merge_dump_files _ _) as [[[] | e |] w3] eqn:Hmerge; try done.
  apply merge_loop_names in Hmerge as (files3 & Hd3 & Hn3 & Hpos3 & Hinv3); [| lia | done].
  destruct w3 as [g3 d3]. cbn [self disk] in *. subst d3.
  unfold mbind at 1, M_bind at 1, get_self at 1 in Hrest. cbn [self] in Hrest.
  unfold mbind at 1, M_bind at 1, get_disk at 1 in Hrest. cbn [disk] in Hrest.
  unfold mbind at 1, M_bind at 1, lift at 1 in Hrest.
  destruct (KeyListIteratorFromDisk_init _ _) as [it0 | e |] eqn:Hinit; try done.
  unfold mret, M_ret in Hrest. simplify_eq. exists files3. split; [done |].
  split; [by apply Hpos3 |].
  apply set_eq. intros f. rewrite elem_of_dom. apply Hinv3.
Qed.

End names_after_merge.

(** ** What [groupBy] hands back *)

Section result_shape.
Context {V : Type} {V_str : PyStr V} {Z_size : GetSizeOf Z} {V_size : GetSizeOf V}.
Implicit Types input : list (Z * V).

Lemma groupBy_result g d input it w :
  Forall value_ok input ->
  GroupByStatement_groupBy input {| self := g; disk := d |} = (Ok it, w) ->
  it = FromMemory (KeyListIteratorFromMemory_init (hashmap_of input)) \/
  exists mit g' files',
    it = FromDisk {| _merge_file_iterator := mit |} /\
    w = {| self := g'; disk := Some files' |} /\
    delivers mit (run_of_map (squeeze <$> hashmap_of input)) /\ _heap mit <> [].
Proof.
  intros Hok Hrun.
  destruct (decide (1 <= _max_hashmap_entries g)) as [HM | HM].
  - destruct (groupBy_spec g d input Hok HM)
      as [(w1 & Heq & _) | [(mit & g' & files' & Heq & Hdel & Hheap & _) | (g' & Heq & _)]];
      rewrite Heq in Hrun; simplify_eq.
    + by left.
    + right. by exists mit, g', files'.
  - destruct input as [|kv input].
    + change (GroupByStatement_groupBy [] {| self := g; disk := d |})
        with (Ok (FromMemory (KeyListIteratorFromMemory_init ∅)),
              {| self := reset_statistics g; disk := d |}) in Hrun.
      simplify_eq. by left.
    + exfalso. eapply (groupBy_small_budget g d (kv :: input)); [lia | done | exact Hrun].
Qed.

(** The [for] loop and the [hasNext] loop collect the same items and
    leave the same state. *)
Lemma groupBy_for_each g d input it w :
  Forall value_ok input ->
  GroupByStatement_groupBy input {| self := g; disk := d |} = (Ok it, w) ->
  exists out it' w',
    drain it w = (Ok (out, it'), w') /\
    for_each (S (result_size it)) it w = (Ok out, w') /\
    match it with
    | FromMemory _ => w' = w
    | FromDisk _ => is_Some (disk w) /\ w' = {| self := self w; disk := None |}
    end.
Proof.
  intros Hok Hrun.
  destruct (groupBy_result g d input it w Hok Hrun)
    as [-> | (mit & g' & files' & -> & -> & Hdel & Hheap)].
  - destruct (drain_memory (hashmap_of input) w) as (it' & Hdrain & _).
    exists (run_of_map (hashmap_of input)), it', w. split; [done |]. split; [| done].
    unfold KeyListIteratorFromMemory_init. cbn [result_size _iter].
    rewrite for_each_memory by lia. reflexivity.
  - eexists _, _, _. split; [by apply drain_disk |]. split.
    + cbn [result_size _merge_file_iterator]. by apply for_each_disk; [| | lia].
    + split; [by eexists | done].
Qed.

Lemma groupBy_compare g d input it w :
  Forall (fun kv => py_str kv.2 <> [] /\ no_space (py_str kv.2)) input ->
  GroupByStatement_groupBy input {| self := g; disk := d |} = (Ok it, w) ->
  exists it' w',
    drain it w = (Ok (compute_hashmap input, it'), w') /\
    compare_outputs input it w = (Ok Passed, w').
Proof.
  intros Hvals Hrun.
  assert (Hok : Forall value_ok input).
  { eapply Forall_impl; [exact Hvals |]. by intros kv [_ ?]. }
  assert (Hne : Forall (fun kv => py_str kv.2 <> []) input).
  { eapply Forall_impl; [exact Hvals |]. by intros kv [? _]. }
  destruct (groupBy_drain_any g d input it w Hok Hrun) as (out & it' & w' & Hdrain & _ & Hout).
  assert (out = compute_hashmap input) as ->.
  { destruct it; destruct Hout as [-> _]; [done |].
    apply sq_run_id, compute_hashmap_nonempty_values, Hne. }
  exists it', w'. split; [done |].
  unfold drain in Hdrain. apply compare_loop_drain in Hdrain as (out & Hout' & Hcmp).
  simpl in Hout'. subst out. unfold compare_outputs. rewrite Hcmp.
  rewrite bool_decide_eq_true_2 by lia. reflexivity.
Qed.

End result_shape.

(** ** The in-memory iterator on any hashmap *)

Section memory_iterator.

Lemma memory_next_end hashmap rem :
  KeyListIteratorFromMemory_next
    {| _hashmap := hashmap; _iter := []; _remaining_elements := rem |}
  = Raise StopIteration.
Proof. reflexivity. Qed.

Lemma memory_iterator_run hashmap w :
  drain (FromMemory (KeyListIteratorFromMemory_init hashmap)) w
  = (Ok (run_of_map hashmap,
         FromMemory {| _hashmap := hashmap; _iter := []; _remaining_elements := 0 |}), w) /\
  for_each (S (length (sorted_keys hashmap)))
    (FromMemory (KeyListIteratorFromMemory_init hashmap)) w
  = (Ok (run_of_map hashmap), w).
Proof.
  unfold drain, KeyListIteratorFromMemory_init. cbn [result_size _iter]. split.
  - rewrite drain_loop_memory by lia. reflexivity.
  - rewrite for_each_memory by lia. reflexivity.
Qed.

Lemma run_of_map_length (hashmap : gmap Z (list (list ascii))) :
  length (run_of_map hashmap) = size hashmap.
Proof.
  unfold run_of_map. rewrite length_fmap.
  rewrite (Permutation_length (sorted_keys_perm hashmap)).
  by rewrite length_fmap, length_map_to_list.
Qed.

End memory_iterator.

(** ** Writing runs and merging them *)

Section written_runs.
Context {V : Type} {V_str : PyStr V}.
Implicit Types files : gmap fname (list ascii).

Lemma write_runs_spec (runs : list (list (Z * list (list ascii)))) :
  forall filenames g files,
  NoDup filenames -> length filenames = length runs ->
  exists files',
    write_runs runs filenames {| self := g; disk := Some files |}
    = (Ok tt, {| self := g; disk := Some files' |}) /\
    (forall f, f ∉ filenames -> files' !! f = files !! f) /\
    Forall2 (fun f r => files' !! f = Some (file_text r)) filenames runs.
Proof.
  induction runs as [|r runs IH]; intros filenames g files Hnd Hlen.
  - destruct filenames; [| done]. exists files. split; [reflexivity |].
    split; [done | constructor].
  - destruct filenames as [|f filenames]; [done |].
    apply NoDup_cons in Hnd as [Hf Hnd]. simpl in Hlen.
    cbn [write_runs]. unfold mbind at 1, M_bind at 1. rewrite write_list.
    destruct (IH filenames g (<[f := file_text r]> files) Hnd ltac:(lia))
      as (files' & -> & Hframe & Hall).
    exists files'. split; [reflexivity |]. split.
    + intros f' Hf'. apply not_elem_of_cons in Hf' as [Hne Hf'].
      rewrite Hframe by done. by rewrite lookup_insert_ne.
    + constructor; [| done]. rewrite Hframe by done. apply lookup_insert_eq.
Qed.

Lemma merge_written_runs (chunks : list (list (Z * V))) filelist files :
  Forall (fun C => C <> []) chunks ->
  Forall (Forall (fun kv => py_str kv.2 <> [] /\ no_space (py_str kv.2))) chunks ->
  Forall2 (fun f r => files !! f = Some (file_text r)) filelist (compute_hashmap <$> chunks) ->
  exists it,
    MergeFileIterator_init filelist (Some files) = Ok it /\
    delivers it (compute_hashmap (concat chunks)).
Proof.
  intros Hne Hvals Hfiles.
  assert (Hall : Forall2 (fun f m => m <> ∅ /\ exists t, files !! f = Some t /\ stored t m)
                   filelist (hashmap_of <$> chunks)).
  { apply Forall2_fmap_r in Hfiles. apply Forall2_fmap_r.
    clear -Hne Hvals Hfiles. revert Hne Hvals.
    induction Hfiles as [|f C filelist chunks Hf _ IH]; intros Hne Hvals; [constructor |].
    apply Forall_cons in Hne as [HC Hne]. apply Forall_cons in Hvals as [HvC Hvals].
    constructor; [| by apply IH]. split; [by apply hashmap_of_nonempty |].
    eexists. split; [exact Hf |]. apply stored_dump, map_ok_hashmap_of.
    eapply Forall_impl; [exact HvC |]. by intros kv [_ ?]. }
  destruct (MergeFileIterator_init_spec files filelist _ Hall) as (it & Hinit & Hdel & _).
  exists it. split; [done |].
  rewrite hashmap_of_concat, fmap_squeeze_hashmap_of in Hdel; [done |].
  apply Forall_concat. eapply Forall_impl; [exact Hvals |]. intros C HC.
  eapply Forall_impl; [exact HC |]. by intros kv [? _].
Qed.

(** The grouped output depends on the input through the sequence of
    values of each key only. *)
Lemma compute_hashmap_ext (a b : list (Z * V)) :
  (forall k, values_of k a = values_of k b) -> compute_hashmap a = compute_hashmap b.
Proof.
  intros Hv. unfold compute_hashmap. f_equal. apply map_eq. intros k.
  by rewrite !lookup_hashmap_of, Hv.
Qed.

End written_runs.

(** ** Which keys are emitted, and with which values *)

Section emitted_keys.
Context {V : Type} {V_str : PyStr V}.
Implicit Types input : list (Z * V).

Lemma filter_none {A} (P : A -> Prop) `{forall x, Decision (P x)} (l : list A) :
  Forall (fun x => ~ P x) l -> filter P l = [].
Proof. induction 1 as [|x l Hx _ IH]; [done |]. by rewrite filter_cons_False. Qed.

Lemma values_of_nil k input : values_of k input = [] <-> k ∉ input.*1.
Proof.
  unfold values_of. split.
  - intros Hf%fmap_nil_inv Hin. apply list_elem_of_fmap in Hin as [kv [-> Hin]].
    by eapply (filter_nil_not_elem_of _ _ kv Hf).
  - intros Hk. rewrite filter_none; [done |]. rewrite Forall_forall. intros kv Hin Heq.
    apply Hk. apply list_elem_of_fmap. by exists kv.
Qed.

Lemma keys_compute_hashmap input k :
  k ∈ (compute_hashmap input).*1 <-> k ∈ input.*1.
Proof.
  unfold compute_hashmap. rewrite run_of_map_keys, elem_of_sorted_keys, lookup_hashmap_of.
  pose proof (values_of_nil k input) as Hnil.
  destruct (values_of k input) as [|v vs].
  - split; [by intros [? ?] |]. intros Hin. by apply Hnil in Hin.
  - split; [| by eexists]. intros _.
    destruct (decide (k ∈ input.*1)) as [? | Hk]; [done |]. by apply Hnil in Hk.
Qed.

Lemma group_compute_hashmap input k :
  k ∈ input.*1 -> (k, values_of k input) ∈ compute_hashmap input.
Proof.
  intros Hk. apply elem_of_compute_hashmap. split; [done |].
  intros Hnil. by apply values_of_nil in Hnil.
Qed.

Lemma group_sq_run (r : list (Z * list text)) k vs :
  (k, vs) ∈ r -> (k, squeeze vs) ∈ sq_run r.
Proof.
  intros Hin. unfold sq_run. apply list_elem_of_fmap. by exists (k, vs).
Qed.

Lemma values_of_nonempty input k :
  Forall (fun kv => py_str kv.2 <> []) input ->
  squeeze (values_of k input) = values_of k input.
Proof.
  intros Hne. apply squeeze_id. unfold values_of. rewrite Forall_fmap.
  rewrite Forall_forall in Hne |- *. intros kv [_ Hin]%list_elem_of_filter.
  by apply Hne.
Qed.

End emitted_keys.

(** ** A merge over runs given as they are written *)

Section merge_of_runs.
Implicit Types files : gmap fname (list ascii).
Implicit Types r : list (Z * list text).

Lemma run_values_not_key k r : k ∉ r.*1 -> run_values k r = [].
Proof.
  intros Hk. unfold run_values. rewrite filter_none; [done |].
  rewrite Forall_forall. intros e Hin Heq.
  apply Hk. apply list_elem_of_fmap. by exists e.
Qed.

Lemma lookup_total_run k r :
  StronglySorted Z.lt r.*1 ->
  (list_to_map r : gmap Z (list text)) !!! k = run_values k r.
Proof.
  induction r as [|[k' vs] r IH]; intros Hs.
  - simpl. by rewrite lookup_total_empty.
  - rewrite fmap_cons in Hs. apply StronglySorted_inv in Hs as [Hs Hall].
    cbn [list_to_map foldr]. unfold run_values. rewrite filter_cons. cbn [fst].
    destruct (decide (k' = k)) as [-> | Hne].
    + rewrite lookup_total_insert_eq. rewrite fmap_cons. cbn [concat snd].
      fold (run_values k r). rewrite run_values_not_key, app_nil_r; [done |].
      intros Hin. rewrite Forall_forall in Hall. specialize (Hall _ Hin). simpl in Hall. lia.
    + rewrite lookup_total_insert_ne by done. by apply IH.
Qed.

Lemma lookup_munion_is_Some (ms : list (gmap Z (list (list ascii)))) k :
  is_Some (munion ms !! k) <-> exists m, m ∈ ms /\ is_Some (m !! k).
Proof.
  induction ms as [|m ms IH].
  - simpl. rewrite lookup_empty. split; [by intros [? ?] |].
    intros (m & Hm & _). by apply elem_of_nil in Hm.
  - cbn [munion foldr]. change (foldr mappend ∅ ms) with (munion ms).
    rewrite lookup_mappend. split.
    + intros Hs. destruct (m !! k) as [x|] eqn:Hm.
      * exists m. split; [left | by rewrite Hm].
      * destruct (munion ms !! k) as [y|] eqn:Hy; [| by destruct Hs].
        destruct (proj1 IH ltac:(by eexists)) as (m' & Hin & Hk).
        exists m'. split; [by right | done].
    + intros (m' & Hin & Hk). apply elem_of_cons in Hin as [-> | Hin].
      * destruct Hk as [x ->]. destruct (munion ms !! k); by eexists.
      * assert (Hy : is_Some (munion ms !! k)) by (apply IH; eauto).
        destruct Hy as [y ->]. destruct (m !! k); by eexists.
Qed.

(** The merge iterator over files that hold the runs [rs]. *)
Lemma merge_of_runs files filelist (rs : list (list (Z * list text))) :
  Forall2 (fun f r => files !! f = Some (file_text r)) filelist rs ->
  Forall (fun r => r <> []) rs ->
  Forall (fun r => StronglySorted Z.lt r.*1) rs ->
  Forall (Forall (fun e => Forall (fun v => v <> [] /\ no_space v) e.2)) rs ->
  exists it out,
    MergeFileIterator_init filelist (Some files) = Ok it /\
    delivers it out /\
    StronglySorted Z.lt out.*1 /\
    (forall k, k ∈ out.*1 <-> exists r, r ∈ rs /\ k ∈ r.*1) /\
    (forall k, (exists r, r ∈ rs /\ k ∈ r.*1) ->
       (k, concat (run_values k <$> rs)) ∈ out) /\
    (forall k vs, (k, vs) ∈ out -> vs = concat (run_values k <$> rs)).
Proof.
  intros Hfiles Hne Hs Hv.
  assert (Hok : Forall run_ok rs).
  { rewrite Forall_forall in Hs, Hv |- *. intros r Hr. split; [by apply Hs |].
    eapply Forall_impl; [by apply Hv |]. intros e He.
    eapply Forall_impl; [exact He |]. by intros v [_ ?]. }
  assert (Hsq : Forall (fun r => sq_run r = r) rs).
  { rewrite Forall_forall in Hv |- *. intros r Hr. apply sq_run_id.
    eapply Forall_impl; [by apply Hv |]. intros e He.
    eapply Forall_impl; [exact He |]. by intros v [? _]. }
  destruct (push_first_keys_spec rs [] [] Hok Hne heap_rep_nil) as (heap & Hpush & Hrep).
  simpl in Hpush, Hrep.
  pose proof (merge_delivers (length (concat rs)) rs heap (le_n _) Hok Hrep) as Hdel.
  assert (Hmap : map_of_runs rs = munion ((fun r => list_to_map r) <$> rs)).
  { unfold map_of_runs. f_equal. apply Forall_fmap_ext_1.
    eapply Forall_impl; [exact Hsq |]. intros r Hr. simpl. by rewrite Hr. }
  assert (Hkeys : forall k, is_Some (map_of_runs rs !! k) <-> exists r, r ∈ rs /\ k ∈ r.*1).
  { intros k. rewrite Hmap, lookup_munion_is_Some. split.
    - intros (m & Hm & Hk). apply list_elem_of_fmap in Hm as (r & -> & Hr).
      exists r. split; [done |]. destruct Hk as [vs Hk].
      apply elem_of_list_to_map_2 in Hk. apply list_elem_of_fmap. by exists (k, vs).
    - intros (r & Hr & Hk). exists (list_to_map r). split.
      + apply list_elem_of_fmap. by exists r.
      + apply list_elem_of_fmap in Hk as ([k' vs] & -> & Hin). exists vs.
        apply elem_of_list_to_map_1; [| done]. apply StronglySorted_lt_NoDup.
        rewrite Forall_forall in Hs. by apply Hs. }
  assert (Hgroup : forall k, map_of_runs rs !!! k = concat (run_values k <$> rs)).
  { intros k. rewrite Hmap, lookup_total_munion. f_equal.
    rewrite <- list_fmap_compose. apply Forall_fmap_ext_1.
    eapply Forall_impl; [exact Hs |]. intros r Hr. simpl. by apply lookup_total_run. }
  exists {| _heap := heap |}, (run_of_map (map_of_runs rs)).
  split; [| split; [exact Hdel |]].
  { unfold MergeFileIterator_init. rewrite (open_all_spec _ _ (file_text <$> rs)).
    - cbn [mbind outcome_bind]. by rewrite Hpush.
    - by apply Forall2_fmap_r. }
  split; [rewrite run_of_map_keys; apply sorted_keys_sorted |].
  split; [intros k; by rewrite run_of_map_keys, elem_of_sorted_keys |].
  split.
  - intros k Hk. apply Hkeys in Hk as [vs Hk]. apply elem_of_run_of_map.
    rewrite <- Hgroup, lookup_total_alt, Hk. done.
  - intros k vs Hin. apply elem_of_run_of_map in Hin.
    by rewrite <- Hgroup, lookup_total_alt, Hin.
Qed.

End merge_of_runs.

(** ** A merge pass, group by group *)

Section merge_pass_prefix.
Implicit Types files : gmap fname (list ascii).
Implicit Types ms : list (gmap Z (list (list ascii))).

Lemma merged_groups_S m ms (j : nat) :
  merged_groups m ms (S j)
  = merged_groups m ms j ++ [munion (take (Z.to_nat m) (drop (j * Z.to_nat m) ms))].
Proof. unfold merged_groups. by rewrite seq_S, fmap_app. Qed.

Lemma length_merged_groups m ms j : length (merged_groups m ms j) = j.
Proof. unfold merged_groups. by rewrite length_fmap, length_seq. Qed.

(** After the first [j] groups of a pass: slots [0 .. j-1] hold the
    merged runs, the slots from [j] up to the next source hold nothing,
    and the sources still to be consumed are the files they were. *)
Lemma merge_pass_groups g files ms :
  2 <= _max_num_files g -> _num_files g = Z.of_nat (length ms) ->
  runs_at files 0 ms ->
  forall j : nat,
  (j <= length (py_range_step (_num_files g) (_max_num_files g)))%nat ->
  exists files_j,
    merge_pass (take j (py_range_step (_num_files g) (_max_num_files g))) 0
      {| self := g; disk := Some files |}
    = (Ok (Z.of_nat j), {| self := g; disk := Some files_j |}) /\
    runs_at files_j 0 (merged_groups (_max_num_files g) ms j) /\
    runs_at files_j (Z.of_nat j * _max_num_files g)
      (drop (j * Z.to_nat (_max_num_files g)) ms) /\
    (forall s, Z.of_nat j * _max_num_files g <= s ->
       files_j !! dump_ s = files !! dump_ s) /\
    (forall i, Z.of_nat j <= i < Z.min (Z.of_nat j * _max_num_files g) (_num_files g) ->
       files_j !! dump_ i = None).
Proof.
  intros Hm Hn Hruns. set (m := _max_num_files g) in *.
  induction j as [|j IH]; intros Hj.
  - exists files. split; [reflexivity |]. split; [apply runs_at_nil |].
    split; [by rewrite Z.mul_0_l, drop_0 |]. split; [done |]. intros i Hi. lia.
  - destruct IH as (files_j & Hpass & Hnew & Hold & Hframe & Hfree); [lia |].
    destruct (lookup_lt_is_Some_2 (py_range_step (_num_files g) m) j ltac:(lia))
      as [index Hidx].
    pose proof (lookup_py_range_step _ _ _ _ Hidx) as (_ & -> & Hlt).
    rewrite (take_S_r _ _ _ Hidx), merge_pass_app, Hpass.
    set (old := drop (j * Z.to_nat m) ms) in *.
    assert (Hlen : Z.of_nat (length old) = _num_files g - Z.of_nat j * m).
    { unfold old. rewrite length_drop. nia. }
    destruct (merge_group_spec g files_j (Z.of_nat j) (Z.of_nat j * m)
                (merged_groups m ms j) old) as (files' & Hgroup & Hnew' & Hold' & Hsame & Hgone).
    { done. }
    { intros E. rewrite E in Hlen. simpl in Hlen. lia. }
    { lia. }
    { nia. }
    { by rewrite length_merged_groups. }
    { done. }
    { done. }
    fold m in Hnew', Hold', Hsame, Hgone.
    exists files'. split.
    { cbn [merge_pass]. unfold mbind at 1, M_bind at 1. rewrite Hgroup.
      unfold mret, M_ret. do 2 f_equal. lia. }
    split; [by rewrite merged_groups_S |].
    split.
    { unfold old in Hold'. rewrite drop_drop in Hold'.
      replace (S j * Z.to_nat m)%nat with (j * Z.to_nat m + Z.to_nat m)%nat by lia.
      by replace (Z.of_nat (S j) * m) with (Z.of_nat j * m + m) by lia. }
    split.
    + intros s Hs. rewrite Hsame by nia. apply Hframe. nia.
    + intros i Hi. destruct (decide (i < Z.of_nat j * m)) as [Hlow | Hhigh].
      * rewrite Hsame by lia. apply Hfree. lia.
      * apply Hgone; lia.
Qed.

End merge_pass_prefix.

(** ** How [groupBy] ends with a budget below one *)

Section small_budget_outcome.
Context {V : Type} {V_str : PyStr V} {Z_size : GetSizeOf Z} {V_size : GetSizeOf V}.
Implicit Types input : list (Z * V).
Implicit Types files : gmap fname (list ascii).

(** The constructor reads the first key of each file in list order:
    over a list whose first file is empty, and whose other files
    exist, it raises [StopIteration]. *)
Lemma init_first_empty files f rest :
  files !! f = Some [] ->
  Forall (fun f' => is_Some (files !! f')) rest ->
  MergeFileIterator_init (f :: rest) (Some files) = Raise StopIteration.
Proof.
  intros Hf Hrest.
  assert (exists ts, Forall2 (fun f' t => files !! f' = Some t) rest ts) as [ts Hts].
  { induction Hrest as [|f' rest [t Ht] _ [ts IH]].
    - exists []. constructor.
    - exists (t :: ts). by constructor. }
  unfold MergeFileIterator_init.
  rewrite (open_all_spec files (f :: rest) ([] :: ts)) by (by constructor).
  reflexivity.
Qed.

Lemma chunk_input_total input g files :
  exists res g' files',
    _chunk_input_into_dump_files input {| self := g; disk := Some files |}
    = (Ok res, {| self := g'; disk := Some files' |}).
Proof.
  destruct (chunk_loop_run input 0 ∅ g files) as (n1 & h1 & g1 & files1 & Hloop & _).
  { by rewrite entry_count_empty. }
  unfold _chunk_input_into_dump_files.
  unfold mbind at 1, M_bind at 1. rewrite Hloop.
  unfold mbind at 1, M_bind at 1, get_self at 1. cbn [self].
  case_bool_decide as Hz; [by eexists _, _, _ |].
  case_bool_decide as Hc; [| by eexists _, _, _].
  unfold mbind at 1, M_bind at 1. unfold mbind at 1, M_bind at 1.
  unfold _get_dump_filename. rewrite dump_spec. by eexists _, _, _.
Qed.

(** What the accumulator leaves with a budget below one. *)
Lemma chunk_input_small input g :
  _max_hashmap_entries g < 1 -> _num_files g = 0 -> total_num_entries g = 0 ->
  input <> [] ->
  exists g' files',
    _chunk_input_into_dump_files input {| self := g; disk := Some ∅ |}
    = (Ok None, {| self := g'; disk := Some files' |}) /\
    1 <= _num_files g' /\ files' !! dump_ 0 = Some [] /\
    (forall i, 0 <= i < _num_files g' -> is_Some (files' !! dump_ i)) /\
    _max_num_files g' = tuned_max_num_files g input.
Proof.
  intros HM Hn Ht Hne.
  destruct (chunk_input_total input g ∅) as (res & g' & files' & Hchunk).
  destruct (chunk_input_small_budget _ _ _ _ _ HM Hn Hne Hchunk)
    as (files0 & Hd & Hn' & H0 & ->).
  cbn [self disk] in Hd, Hn'. simplify_eq.
  exists g', files0. split; [done |]. split; [done |]. split; [done |].
  unfold _chunk_input_into_dump_files in Hchunk.
  unfold mbind at 1, M_bind at 1 in Hchunk.
  destruct (chunk_loop input 0 ∅ _) as [[[n1 h1] | e |] [g1 d1]] eqn:Hloop; try done.
  pose proof (chunk_loop_limits _ _ _ _ _ _ _ _ Hloop) as (_ & _ & Hlim).
  destruct (Hlim Ht) as [_ HF].
  apply chunk_loop_names in Hloop as (files1 & Hd1 & Hn1 & Hinv1); [| lia |].
  2: { intros f. rewrite Hn, lookup_empty, elem_of_dump_names.
       split; [by intros [? ?] | intros (i & _ & ?); lia]. }
  cbn [self disk] in Hd1, Hn1, Hinv1. subst d1.
  unfold mbind at 1, M_bind at 1, get_self at 1 in Hchunk. cbn [self] in Hchunk.
  case_bool_decide as Hz; [by (unfold mret, M_ret in Hchunk; simplify_eq) |].
  case_bool_decide as Hc.
  - unfold mbind at 1, M_bind at 1 in Hchunk. unfold mbind at 1, M_bind at 1 in Hchunk.
    unfold _get_dump_filename in Hchunk. rewrite dump_spec in Hchunk.
    unfold mret, M_ret, mbind, M_bind in Hchunk. simplify_eq.
    split; [| done]. cbn [_num_files set_spills set_num_files]. intros i Hi.
    destruct (decide (i = _num_files g1)) as [-> | Hi'].
    + rewrite lookup_insert_eq. by eexists.
    + rewrite lookup_insert_ne by (intros [= ?]; done).
      apply Hinv1, elem_of_dump_names. exists i. split; [done | lia].
  - unfold mret, M_ret, mbind, M_bind in Hchunk. simplify_eq.
    split; [| done]. intros i Hi.
    apply Hinv1, elem_of_dump_names. exists i. split; [done | lia].
Qed.

(** With a budget below one and an input that is not empty [groupBy]
    raises: [TypeError], after removing the request directory, when
    more runs were spilled than a fan-in below two admits; otherwise
    [StopIteration], from the first merge iterator, which meets the
    empty [dump_0], and the request directory is left behind. *)
Lemma groupBy_small_budget_raises g d input :
  _max_hashmap_entries g < 1 -> input <> [] ->
  exists g' files',
    1 <= _num_files g' /\ files' !! dump_ 0 = Some [] /\
    _max_num_files g' = tuned_max_num_files (reset_statistics g) input /\
    GroupByStatement_groupBy input {| self := g; disk := d |}
    = if bool_decide (_num_files g' > _max_num_files g' /\ _max_num_files g' < 2)
      then (Raise TypeError, {| self := g'; disk := None |})
      else (Raise StopIteration, {| self := g'; disk := Some files' |}).
Proof.
  intros HM Hne.
  destruct (chunk_input_small input (reset_statistics g)) as
    (g1 & files1 & Hchunk & Hn1 & H0 & Hall & HF); [done | done | done | done |].
  exists g1, files1. split; [done |]. split; [done |]. split; [done |].
  rewrite groupBy_unfold by done. rewrite (bind_ok _ _ _ _ _ Hchunk).
  rewrite (bind_ok get_self _ _ g1 {| self := g1; disk := Some files1 |}) by reflexivity.
  assert (Hfuel : exists fuel, Z.to_nat (_num_files g1) = S fuel).
  { exists (Z.to_nat (_num_files g1 - 1)). lia. }
  destruct Hfuel as [fuel ->].
  assert (Hrest : forall a b, 0 < a -> a <= b -> b <= _num_files g1 ->
            Forall (fun f' => is_Some (files1 !! f')) (dump_ <$> seqZ a (b - a))).
  { intros a b Ha Hab Hb. rewrite Forall_fmap, Forall_forall. intros i Hi.
    apply elem_of_seqZ in Hi. apply Hall. lia. }
  destruct (decide (_num_files g1 > _max_num_files g1)) as [Hgt | Hle].
  - destruct (decide (_max_num_files g1 < 2)) as [Hlow | Hhigh].
    + (* no pass is possible *)
      rewrite bool_decide_eq_true_2 by done.
      apply bind_raise. cbn [_merge_dump_files].
      unfold mbind at 1, M_bind at 1, get_self at 1. cbn [self].
      rewrite bool_decide_eq_true_2 by done. rewrite bool_decide_eq_true_2 by done.
      reflexivity.
    + (* the first group of the first pass *)
      rewrite bool_decide_eq_false_2 by tauto.
      apply bind_raise. cbn [_merge_dump_files].
      unfold mbind at 1, M_bind at 1, get_self at 1. cbn [self].
      rewrite bool_decide_eq_true_2 by done. rewrite bool_decide_eq_false_2 by done.
      apply bind_raise.
      unfold py_range_step. rewrite bool_decide_eq_true_2 by lia.
      assert (1 <= (_num_files g1 + _max_num_files g1 - 1) `div` _max_num_files g1)
        by (apply groups_pos; lia).
      rewrite seqZ_cons by lia. rewrite fmap_cons, Z.mul_0_l.
      cbn [merge_pass]. apply bind_raise.
      unfold merge_group. unfold mbind at 1, M_bind at 1, get_self at 1. cbn [self].
      rewrite Z.min_r by lia. unfold py_range. rewrite Z.add_0_l, Z.sub_0_r.
      rewrite seqZ_cons by lia. rewrite (seqZ_cons (Z.succ 0)) by lia.
      rewrite !fmap_cons.
      rewrite (bind_ok get_disk _ _ (Some files1) {| self := g1; disk := Some files1 |})
        by reflexivity.
      apply bind_raise. unfold lift. f_equal.
      change (_get_dump_filename 0) with (dump_ 0).
      apply init_first_empty; [done |].
      constructor; [apply Hall; lia |].
      replace (Z.pred (Z.pred (_max_num_files g1)))
        with (_max_num_files g1 - Z.succ (Z.succ 0)) by lia.
      apply (Hrest (Z.succ (Z.succ 0)) (_max_num_files g1)); lia.
  - (* no pass is needed: the result iterator is built over all runs *)
    rewrite bool_decide_eq_false_2 by tauto.
    assert (Hloop : _merge_dump_files (S fuel) {| self := g1; disk := Some files1 |}
                    = (Ok tt, {| self := g1; disk := Some files1 |})).
    { cbn [_merge_dump_files]. unfold mbind at 1, M_bind at 1, get_self at 1. cbn [self].
      by rewrite bool_decide_eq_false_2 by done. }
    rewrite (bind_ok _ _ _ _ _ Hloop).
    rewrite (bind_ok get_self _ _ g1 {| self := g1; disk := Some files1 |}) by reflexivity.
    rewrite (bind_ok get_disk _ _ (Some files1) {| self := g1; disk := Some files1 |})
      by reflexivity.
    apply bind_raise. unfold lift. f_equal.
    unfold KeyListIteratorFromDisk_init, py_range. rewrite Z.sub_0_r.
    rewrite seqZ_cons by lia. rewrite fmap_cons.
    change (_get_dump_filename 0) with (dump_ 0).
    rewrite init_first_empty; [done | done |].
    replace (Z.pred (_num_files g1)) with (_num_files g1 - Z.succ 0) by lia.
    apply (Hrest (Z.succ 0) (_num_files g1)); lia.
Qed.

(** Without empty strings among the values, the disk iterator delivers
    the reference output itself. *)
Lemma run_of_squeezed_hashmap input :
  Forall (fun kv => py_str kv.2 <> []) input ->
  run_of_map (squeeze <$> hashmap_of input) = compute_hashmap input.
Proof. intros Hne. by rewrite fmap_squeeze_hashmap_of. Qed.

End small_budget_outcome.

(* ================================================================== *)
(** * Main results *)
(* ================================================================== *)

Section groupBy_results.
Context {V : Type} {V_str : PyStr V} {Z_size : GetSizeOf Z} {V_size : GetSizeOf V}.
Implicit Types input : list (Z * V).

(** C1 (as amended).  For every finite input whose values render as
    non-empty strings without whitespace, and every configuration:
    whenever [groupBy] returns a result iterator, consuming it succeeds
    and the emitted groups, flattened, are a permutation of the input
    pairs, each pair sitting in the group of its key; this holds on the
    in-memory path, the spill path and after cascading merges alike.
    [groupBy] does return an iterator as soon as [max_hashmap_entries]
    is at least 1 and the fan-in in effect is at least 2. *)
Theorem groupBy_multiset g d input :
  Forall (fun kv => py_str kv.2 <> [] /\ no_space (py_str kv.2)) input ->
  (forall it w,
     GroupByStatement_groupBy input {| self := g; disk := d |} = (Ok it, w) ->
     exists out it' w',
       drain it w = (Ok (out, it'), w') /\ hasNext it' = false /\
       flatten out ≡ₚ rendered input /\
       (forall k v, (k, v) ∈ rendered input -> exists vs, (k, vs) ∈ out /\ v ∈ vs)) /\
  (1 <= _max_hashmap_entries g ->
   2 <= tuned_max_num_files (reset_statistics g) input ->
   exists it w,
     GroupByStatement_groupBy input {| self := g; disk := d |} = (Ok it, w)).
Proof.
  intros Hvals.
  assert (Hok : Forall value_ok input).
  { eapply Forall_impl; [exact Hvals |]. by intros kv [_ ?]. }
  assert (Hne : Forall (fun kv => py_str kv.2 <> []) input).
  { eapply Forall_impl; [exact Hvals |]. by intros kv [? _]. }
  split; [| by intros HM; apply groupBy_returns].
  intros it w Hrun.
  destruct (groupBy_drain_any g d input it w Hok Hrun) as (out & it' & w' & Hdrain & Hend & Hout).
  assert (out = compute_hashmap input) as ->.
  { destruct it; destruct Hout as [-> _]; [done |].
    apply sq_run_id, compute_hashmap_nonempty_values, Hne. }
  exists (compute_hashmap input), it', w'. repeat split; try done.
  - apply flatten_compute_hashmap.
  - apply elem_of_rendered_group.
Qed.

(** C2 (as amended).  For every finite input whose values render
    without whitespace, whenever [groupBy] returns an iterator:
    consuming it succeeds; the keys emitted ascend strictly and are
    exactly the keys of the input, each emitted once; and the group of
    a key lists the values the input gave that key, in input order,
    whole in the in-memory variant and without the empty strings (which
    the run format cannot hold) in the disk variant, so whole there too
    when no value renders as the empty string.  In the disk variant
    this is the work of the K-way merge: over files F1 ... FK that hold
    runs of non-empty whitespace-free values, it returns and delivers,
    in strictly ascending order, every key that some file holds, each
    once, with the concatenation in the order F1, F2, ..., FK of the
    values each file lists under that key.  [groupBy] does return an
    iterator as soon as [max_hashmap_entries] is at least 1 and the
    fan-in in effect is at least 2. *)
Theorem groupBy_ordering g d input :
  Forall value_ok input ->
  (forall it w,
     GroupByStatement_groupBy input {| self := g; disk := d |} = (Ok it, w) ->
     let group k :=
       match it with
       | FromMemory _ => values_of k input
       | FromDisk _ => squeeze (values_of k input)
       end in
     exists out it' w',
       drain it w = (Ok (out, it'), w') /\ hasNext it' = false /\
       StronglySorted Z.lt out.*1 /\
       (forall k, k ∈ out.*1 <-> k ∈ input.*1) /\
       (forall k, k ∈ input.*1 -> (k, group k) ∈ out) /\
       (forall k vs, (k, vs) ∈ out -> vs = group k) /\
       (Forall (fun kv => py_str kv.2 <> []) input ->
        forall k, group k = values_of k input)) /\
  (1 <= _max_hashmap_entries g ->
   2 <= tuned_max_num_files (reset_statistics g) input ->
   exists it w,
     GroupByStatement_groupBy input {| self := g; disk := d |} = (Ok it, w)) /\
  (forall files filelist (rs : list (list (Z * list text))),
     Forall2 (fun f r => files !! f = Some (file_text r)) filelist rs ->
     Forall (fun r => r <> []) rs ->
     Forall (fun r => StronglySorted Z.lt r.*1) rs ->
     Forall (Forall (fun e => Forall (fun v => v <> [] /\ no_space v) e.2)) rs ->
     exists it out,
       MergeFileIterator_init filelist (Some files) = Ok it /\
       delivers it out /\
       StronglySorted Z.lt out.*1 /\
       (forall k, k ∈ out.*1 <-> exists r, r ∈ rs /\ k ∈ r.*1) /\
       (forall k, (exists r, r ∈ rs /\ k ∈ r.*1) ->
          (k, concat (run_values k <$> rs)) ∈ out) /\
       (forall k vs, (k, vs) ∈ out -> vs = concat (run_values k <$> rs))).
Proof.
  intros Hok. split; [| split; [by intros HM; apply groupBy_returns | apply merge_of_runs]].
  intros it w Hrun group.
  destruct (groupBy_drain_any g d input it w Hok Hrun)
    as (out & it' & w' & Hdrain & Hend & Hout).
  exists out, it', w'. split; [done |]. split; [done |].
  destruct it as [mit | dit]; destruct Hout as [-> _]; subst group; cbn beta iota.
  - split; [apply compute_hashmap_sorted |].
    split; [apply keys_compute_hashmap |].
    split; [apply group_compute_hashmap |].
    split; [| done].
    intros k vs Hin. by apply elem_of_compute_hashmap in Hin as [-> _].
  - split; [rewrite sq_run_keys; apply compute_hashmap_sorted |].
    split; [intros k; rewrite sq_run_keys; apply keys_compute_hashmap |].
    split; [intros k Hk; by apply group_sq_run, group_compute_hashmap |].
    split; [| intros Hne k; by apply values_of_nonempty].
    intros k vs Hin. apply elem_of_sq_run in Hin as (vs' & Hin & ->).
    by apply elem_of_compute_hashmap in Hin as [-> _].
Qed.

(** C5.  For every input that takes the spill path (values rendered
    without whitespace): the request directory exists when the disk
    iterator is constructed; after any number of [next()] calls it is
    unchanged as long as the heap is not empty, and gone as soon as the
    heap is empty, so the call that empties the heap is the one that
    removes it; a [next()] on the exhausted iterator raises
    [StopIteration] without touching anything; and consuming the
    iterator to the end leaves no directory, hence no dump file. *)
Theorem disk_iterator_cleanup g d input it w :
  Forall value_ok input ->
  GroupByStatement_groupBy input {| self := g; disk := d |} = (Ok (FromDisk it), w) ->
  is_Some (disk w) /\
  KeyListIteratorFromDisk_hasNext it = true /\
  (forall n it_n w_n,
     advance n it w = (Ok it_n, w_n) ->
     if KeyListIteratorFromDisk_hasNext it_n then w_n = w
     else w_n = {| self := self w; disk := None |}) /\
  (forall it_n w_n,
     KeyListIteratorFromDisk_hasNext it_n = false ->
     KeyListIteratorFromDisk_next it_n w_n = (Raise StopIteration, w_n)) /\
  (exists out it',
     drain (FromDisk it) w = (Ok (out, it'), {| self := self w; disk := None |}) /\
     hasNext it' = false).
Proof.
  intros Hok Hrun.
  assert (Hhas : KeyListIteratorFromDisk_hasNext it = true).
  { unfold KeyListIteratorFromDisk_hasNext, MergeFileIterator_hasNext.
    apply bool_decide_eq_true. by eapply groupBy_disk_heap. }
  destruct (groupBy_drain_any g d input _ w Hok Hrun)
    as (out & it' & w' & Hdrain & Hend & _ & Hdisk & ->).
  split; [done |]. split; [done |]. split; [| split].
  - intros n it_n w_n. by apply advance_disk.
  - apply disk_next_end.
  - by exists out, it'.
Qed.

End groupBy_results.

Section engine_results.
Context {V : Type} {V_str : PyStr V} {Z_size : GetSizeOf Z} {V_size : GetSizeOf V}.
Implicit Types input : list (Z * V).

(** C3 (as amended).  For every number of runs on disk and every
    [max_num_files] of at least 2, the merge loop returns, with
    [num_files <= max_num_files] on exit, the runs left reading back as
    the same multimap.  A pass that starts from [n > max_num_files] runs
    leaves [c = ceil(n / max_num_files)] runs; [c] is strictly below [n]
    and at most [ceil(n / 2)], that is [2 * c <= n + 1] (not
    [2 * c <= n]: three runs with a fan-in of two become two). *)
Theorem merge_loop_terminates g files ms fuel :
  2 <= _max_num_files g ->
  _num_files g = Z.of_nat (length ms) ->
  runs_at files 0 ms ->
  (length ms <= fuel)%nat ->
  (exists g' files' ms',
     _merge_dump_files fuel {| self := g; disk := Some files |}
     = (Ok tt, {| self := g'; disk := Some files' |}) /\
     _num_files g' <= _max_num_files g' /\
     _max_num_files g' = _max_num_files g /\
     _num_files g' = Z.of_nat (length ms') /\
     runs_at files' 0 ms' /\ munion ms' = munion ms) /\
  (_num_files g > _max_num_files g ->
   exists files1 ms1 c,
     merge_pass (py_range_step (_num_files g) (_max_num_files g)) 0
       {| self := g; disk := Some files |}
     = (Ok c, {| self := g; disk := Some files1 |}) /\
     (c - 1) * _max_num_files g < _num_files g <= c * _max_num_files g /\
     c < _num_files g /\ 2 * c <= _num_files g + 1 /\
     Z.of_nat (length ms1) = c /\ runs_at files1 0 ms1 /\
     munion ms1 = munion ms).
Proof.
  intros Hm Hn Hruns Hfuel. split.
  - destruct (decide (ms = [])) as [-> | Hne].
    + exists g, files, []. simpl in Hn.
      assert (_merge_dump_files fuel {| self := g; disk := Some files |}
              = (Ok tt, {| self := g; disk := Some files |})) as ->.
      { destruct fuel; cbn [_merge_dump_files];
          unfold mbind at 1, M_bind at 1, get_self at 1; cbn [self];
          rewrite bool_decide_eq_false_2 by lia; reflexivity. }
      split; [done |]. split; [lia |]. done.
    + destruct (merge_dump_files_spec fuel g files ms Hn Hne Hruns Hfuel (or_introl Hm))
        as (g' & files' & ms' & Hloop & Hn' & _ & Hruns' & Hun & Hle & HF).
      exists g', files', ms'. done.
  - intros Hgt. set (m := _max_num_files g) in *. set (n := _num_files g) in *.
    set (c := (n + m - 1) `div` m).
    assert (Hc : (c - 1) * m < n <= c * m).
    { pose proof (Z.div_mod (n + m - 1) m ltac:(lia)).
      pose proof (Z.mod_pos_bound (n + m - 1) m ltac:(lia)). subst c. nia. }
    assert (Hc0 : 1 <= c) by nia.
    destruct (merge_pass_spec (Z.to_nat c) 0 [] ms g files) as (files1 & ms1 & Hpass & Hruns1 & Hlen1 & Hun1).
    + done.
    + intros _. fold n m. lia.
    + done.
    + done.
    + apply runs_at_nil.
    + by rewrite Z.mul_0_l.
    + fold m. rewrite <- Hn. fold n c. lia.
    + exists files1, ms1, c. fold m in Hpass.
      rewrite Z2Nat.id, Z.add_0_l in Hpass, Hlen1 by lia.
      split; [| split; [done | split; [nia | split; [nia | split; [done | split; [done |]]]]]].
      * unfold py_range_step. rewrite bool_decide_eq_true_2 by lia. exact Hpass.
      * rewrite Hun1. simpl. apply mappend_empty_l.
Qed.

(** C4 (as amended).  At every point of the accumulator's loop, that
    is after any prefix of the input has been consumed from a statement
    whose statistics [groupBy] has just reset, the loop's counter is the
    number of values the hashmap holds, and it is at most
    [max(1, max_hashmap_entries)] for the value of
    [max_hashmap_entries] in force then (the one the [max_memory] block
    has set, if it ran).  The bound is [max_hashmap_entries] itself as
    soon as that is at least 1. *)
Theorem held_values_bound g files (pre post : list (Z * V)) :
  exists n h g' files',
    chunk_loop pre 0 ∅ {| self := reset_statistics g; disk := Some files |}
    = (Ok (n, h), {| self := g'; disk := Some files' |}) /\
    chunk_loop (pre ++ post) 0 ∅ {| self := reset_statistics g; disk := Some files |}
    = chunk_loop post n h {| self := g'; disk := Some files' |} /\
    n = Z.of_nat (entry_count h) /\
    Z.of_nat (entry_count h) <= Z.max 1 (_max_hashmap_entries g').
Proof.
  destruct (chunk_loop_run pre 0 ∅ (reset_statistics g) files) as
    (n & h & g' & files' & Hloop & Hn & Hbound & _).
  { by rewrite entry_count_empty. }
  exists n, h, g', files'. split; [done |]. split; [| split; [done |]].
  - by rewrite chunk_loop_app, Hloop.
  - rewrite <- Hn. apply Hbound; simpl; lia.
Qed.

(** C6.  When more runs are on disk than [max_num_files] and
    [max_num_files < 2], the merge loop removes the request directory
    and stops there; what it raises is [TypeError], the outcome of
    [raise error_msg] on a string, and not an error type of its own. *)
Theorem merge_not_possible_raises g files fuel :
  _num_files g > _max_num_files g -> _max_num_files g < 2 ->
  _merge_dump_files (S fuel) {| self := g; disk := Some files |}
  = (Raise TypeError, {| self := g; disk := None |}).
Proof. apply merge_dump_files_fail. Qed.

(** C8 (as amended).  The module-level [groupBy] runs a statement built
    with [max_num_files = 1000], [max_hashmap_entries = 10000000] and
    [max_memory = -1] when the caller supplies none of them, and with
    the caller's values otherwise; 100 and 1000000 are the defaults of
    the [GroupByStatement] constructor, which [groupBy] never lets
    apply. *)
Theorem groupBy_defaults input :
  groupBy input None None None
  = GroupByStatement_groupBy input
      {| self := GroupByStatement_init (Some 1000) (Some 10000000) (Some (-1));
         disk := None |} /\
  (forall f h m,
     groupBy input (Some f) (Some h) (Some m)
     = GroupByStatement_groupBy input
         {| self := GroupByStatement_init (Some f) (Some h) (Some m); disk := None |}) /\
  _max_num_files (GroupByStatement_init None None None) = 100 /\
  _max_hashmap_entries (GroupByStatement_init None None None) = 1000000.
Proof. repeat split. Qed.

(** C10.  From a statement whose [max_hashmap_entries] is at least 1
    the accumulator returns, and every dump file it has written holds at
    least one entry; so the constructor of a merge iterator over any of
    these files, which reads a key line from each, returns.  Over a list
    with an empty file it does not return an iterator, and over a single
    empty file it raises [StopIteration]. *)
Theorem dump_files_hold_entries g files input :
  1 <= _max_hashmap_entries g ->
  (exists res g' files',
     _chunk_input_into_dump_files input
       {| self := reset_statistics g; disk := Some files |}
     = (Ok res, {| self := g'; disk := Some files' |}) /\
     0 <= _num_files g' /\
     (forall i, 0 <= i < _num_files g' ->
        exists e r, files' !! _get_dump_filename i = Some (file_text (e :: r))) /\
     (forall indices,
        Forall (fun i => 0 <= i < _num_files g') indices ->
        exists it,
          MergeFileIterator_init (_get_dump_filename <$> indices) (Some files') = Ok it)) /\
  (forall files filelist f it,
     f ∈ filelist -> files !! f = Some [] ->
     MergeFileIterator_init filelist (Some files) <> Ok it) /\
  (forall files f,
     files !! f = Some [] ->
     MergeFileIterator_init [f] (Some files) = Raise StopIteration).
Proof.
  intros HM. split; [| split; [apply init_on_empty_file | apply init_on_one_empty_file]].
  destruct (chunk_input_run input (reset_statistics g) files) as
    (res & g' & files' & Hrun & Hn & Hfiles); [done | done |].
  exists res, g', files'. split; [done |]. split; [done |]. split; [done |].
  intros indices Hin. apply init_on_entries.
  apply Forall_fmap. eapply Forall_impl; [exact Hin |]. intros i Hi. by apply Hfiles.
Qed.

End engine_results.

(** C7 (as amended).  A non-empty sequence of [(key, values)] pairs with
    strictly ascending keys whose value strings are non-empty and free of
    whitespace, written with [write_key_values_to_file] and read back
    through a merge iterator over that one file, comes back as it was
    written. *)
Theorem run_round_trip (r : list (Z * list (list ascii))) :
  r <> [] ->
  StronglySorted Z.lt r.*1 ->
  Forall (fun e => Forall (fun v => v <> [] /\ no_space v) e.2) r ->
  read_back r = Ok r.
Proof. apply read_back_run. Qed.

(** C9.  In a pass of the merge loop over well-formed runs with a fan-in
    [m >= 2], take the [j]-th group, which starts at source [index].
    Then [index = j * m], so [j <= index], strictly for [j >= 1].  When
    the group's turn comes, the pass has returned from the [j] groups
    before it with the slot counter [j]; every source of this group and
    of the later ones is still the file it was; the slots [0 .. j-1] hold
    the merged runs of the groups done; and for [j >= 1] no file is named
    [dump_j].  The group's turn returns; it leaves the sources of the
    later groups and the runs in the slots [0 .. j-1] as they are, and
    slot [j] holds the merge of the group's own runs. *)
Theorem merge_slot_behind_sources g files ms (j : nat) index :
  2 <= _max_num_files g ->
  _num_files g = Z.of_nat (length ms) ->
  runs_at files 0 ms ->
  py_range_step (_num_files g) (_max_num_files g) !! j = Some index ->
  index = Z.of_nat j * _max_num_files g /\
  Z.of_nat j <= index /\
  (1 <= Z.of_nat j -> Z.of_nat j < index) /\
  exists before after,
    merge_pass (take j (py_range_step (_num_files g) (_max_num_files g))) 0
      {| self := g; disk := Some files |}
    = (Ok (Z.of_nat j), {| self := g; disk := Some before |}) /\
    (forall s, index <= s -> before !! dump_ s = files !! dump_ s) /\
    (1 <= Z.of_nat j -> before !! dump_ (Z.of_nat j) = None) /\
    runs_at before 0 (merged_groups (_max_num_files g) ms j) /\
    merge_group index (Z.of_nat j) {| self := g; disk := Some before |}
    = (Ok tt, {| self := g; disk := Some after |}) /\
    (forall s, index + _max_num_files g <= s -> after !! dump_ s = files !! dump_ s) /\
    (forall i, 0 <= i < Z.of_nat j -> after !! dump_ i = before !! dump_ i) /\
    good_file after (Z.of_nat j)
      (munion (take (Z.to_nat (_max_num_files g))
                 (drop (j * Z.to_nat (_max_num_files g)) ms))).
Proof.
  intros Hm Hn Hruns Hj.
  pose proof (lookup_py_range_step _ _ _ _ Hj) as (_ & -> & Hlt).
  pose proof (lookup_lt_Some _ _ _ Hj) as Hlen.
  split; [done |]. split; [nia |]. split; [intros; nia |].
  destruct (merge_pass_groups g files ms Hm Hn Hruns j ltac:(lia))
    as (before & Hpass & Hnew & Hold & Hframe & Hfree).
  set (m := _max_num_files g) in *.
  set (old := drop (j * Z.to_nat m) ms) in *.
  assert (Hlo : Z.of_nat (length old) = _num_files g - Z.of_nat j * m).
  { unfold old. rewrite length_drop. nia. }
  destruct (merge_group_spec g before (Z.of_nat j) (Z.of_nat j * m)
              (merged_groups m ms j) old) as (after & Hgroup & Hnew' & _ & Hsame & _).
  { done. }
  { intros E. rewrite E in Hlo. simpl in Hlo. lia. }
  { lia. }
  { nia. }
  { by rewrite length_merged_groups. }
  { done. }
  { done. }
  fold m in Hnew', Hsame.
  exists before, after. split; [done |]. split; [done |].
  split; [intros Hj1; apply Hfree; nia |]. split; [done |]. split; [done |].
  split; [intros s Hs; rewrite Hsame by nia; apply Hframe; nia |].
  split; [intros i Hi; apply Hsame; nia |].
  apply runs_at_app in Hnew' as [_ Hslot]. apply runs_at_cons in Hslot as [Hslot _].
  by rewrite length_merged_groups, Z.add_0_l in Hslot.
Qed.

(* ================================================================== *)
(** * The results on sample runs *)
(* ================================================================== *)

#[local] Existing Instance host_sizeof_int.
#[local] Existing Instance host_sizeof_str.

Lemma sample_input_rendered :
  Forall (fun kv : Z * Z => py_str kv.2 <> [] /\ no_space (py_str kv.2)) sample_input.
Proof. repeat constructor; try discriminate; apply str_int_no_space. Qed.

Lemma sample_input_ok : Forall value_ok sample_input.
Proof. repeat constructor; apply str_int_no_space. Qed.

Lemma sample_runs_at : runs_at sample_files 0 sample_maps.
Proof.
  intros i m Hm. destruct i as [|[|[|i]]]; simpl in Hm; simplify_eq;
    (apply good_file_single; [discriminate | apply str_int_no_space | reflexivity]).
Qed.

(** C1 on the sample input, which spills. *)
Lemma groupBy_multiset_witness :
  Forall (fun kv : Z * Z => py_str kv.2 <> [] /\ no_space (py_str kv.2)) sample_input /\
  (forall it w,
     GroupByStatement_groupBy sample_input {| self := sample_statement; disk := None |}
     = (Ok it, w) ->
     exists out it' w',
       drain it w = (Ok (out, it'), w') /\ hasNext it' = false /\
       flatten out ≡ₚ rendered sample_input /\
       (forall k v, (k, v) ∈ rendered sample_input -> exists vs, (k, vs) ∈ out /\ v ∈ vs)) /\
  (1 <= _max_hashmap_entries sample_statement ->
   2 <= tuned_max_num_files (reset_statistics sample_statement) sample_input ->
   exists it w,
     GroupByStatement_groupBy sample_input {| self := sample_statement; disk := None |}
     = (Ok it, w)).
Proof.
  split; [exact sample_input_rendered |].
  exact (groupBy_multiset sample_statement None sample_input sample_input_rendered).
Defined.

(** C1 does not extend to a value that renders as the empty string: the
    run format cannot hold it, so the spill path drops the pair
    [(1, empty)] that the in-memory path keeps. *)
Lemma groupBy_loses_empty_value :
  let input : list (Z * list ascii) := [(1, []); (1, txt "a")] in
  Forall value_ok input /\
  emitted sample_statement input = Some [(1, [txt "a"])] /\
  emitted (GroupByStatement_init None None None) input = Some [(1, [[]; txt "a"])] /\
  ~ flatten [(1, [txt "a"])] ≡ₚ rendered input.
Proof.
  split; [repeat constructor |]. split; [vm_compute; reflexivity |].
  split; [vm_compute; reflexivity |].
  intros Hperm. apply Permutation_length in Hperm. discriminate Hperm.
Qed.

(** C2 on the sample input. *)
Lemma groupBy_ordering_witness :
  Forall value_ok sample_input /\
  (forall it w,
     GroupByStatement_groupBy sample_input {| self := sample_statement; disk := None |}
     = (Ok it, w) ->
     let group k :=
       match it with
       | FromMemory _ => values_of k sample_input
       | FromDisk _ => squeeze (values_of k sample_input)
       end in
     exists out it' w',
       drain it w = (Ok (out, it'), w') /\ hasNext it' = false /\
       StronglySorted Z.lt out.*1 /\
       (forall k, k ∈ out.*1 <-> k ∈ sample_input.*1) /\
       (forall k, k ∈ sample_input.*1 -> (k, group k) ∈ out) /\
       (forall k vs, (k, vs) ∈ out -> vs = group k) /\
       (Forall (fun kv : Z * Z => py_str kv.2 <> []) sample_input ->
        forall k, group k = values_of k sample_input)) /\
  (1 <= _max_hashmap_entries sample_statement ->
   2 <= tuned_max_num_files (reset_statistics sample_statement) sample_input ->
   exists it w,
     GroupByStatement_groupBy sample_input {| self := sample_statement; disk := None |}
     = (Ok it, w)) /\
  (forall files filelist (rs : list (list (Z * list text))),
     Forall2 (fun f r => files !! f = Some (file_text r)) filelist rs ->
     Forall (fun r => r <> []) rs ->
     Forall (fun r => StronglySorted Z.lt r.*1) rs ->
     Forall (Forall (fun e => Forall (fun v => v <> [] /\ no_space v) e.2)) rs ->
     exists it out,
       MergeFileIterator_init filelist (Some files) = Ok it /\
       delivers it out /\
       StronglySorted Z.lt out.*1 /\
       (forall k, k ∈ out.*1 <-> exists r, r ∈ rs /\ k ∈ r.*1) /\
       (forall k, (exists r, r ∈ rs /\ k ∈ r.*1) ->
          (k, concat (run_values k <$> rs)) ∈ out) /\
       (forall k vs, (k, vs) ∈ out -> vs = concat (run_values k <$> rs))).
Proof.
  split; [exact sample_input_ok |].
  exact (groupBy_ordering sample_statement None sample_input sample_input_ok).
Defined.

(** C2 does not extend to a value that renders as the empty string: the
    run format cannot hold it, so the group that the disk variant emits
    for key 1 is not the list of values the input gave that key, which
    the in-memory variant does emit. *)
Lemma disk_group_without_empty_value :
  let input : list (Z * list ascii) := [(1, txt "a"); (1, []); (1, txt "b")] in
  Forall value_ok input /\
  values_of 1 input = [txt "a"; []; txt "b"] /\
  emitted sample_statement input = Some [(1, [txt "a"; txt "b"])] /\
  emitted (GroupByStatement_init None None None) input
  = Some [(1, [txt "a"; []; txt "b"])] /\
  ~ (forall k vs, (k, vs) ∈ [(1, [txt "a"; txt "b"])] -> vs = values_of k input).
Proof.
  split; [repeat constructor |]. split; [reflexivity |].
  split; [vm_compute; reflexivity |]. split; [vm_compute; reflexivity |].
  intros Hall. specialize (Hall 1 [txt "a"; txt "b"] ltac:(left)).
  discriminate Hall.
Qed.

(** C3 on three runs with a fan-in of two. *)
Lemma merge_loop_terminates_witness :
  let g := set_num_files 3 sample_statement in
  (2 <= _max_num_files g /\ _num_files g = Z.of_nat (length sample_maps) /\
   runs_at sample_files 0 sample_maps /\ (length sample_maps <= 3)%nat) /\
  (exists g' files' ms',
     _merge_dump_files 3 {| self := g; disk := Some sample_files |}
     = (Ok tt, {| self := g'; disk := Some files' |}) /\
     _num_files g' <= _max_num_files g' /\
     _max_num_files g' = _max_num_files g /\
     _num_files g' = Z.of_nat (length ms') /\
     runs_at files' 0 ms' /\ munion ms' = munion sample_maps) /\
  (_num_files g > _max_num_files g ->
   exists files1 ms1 c,
     merge_pass (py_range_step (_num_files g) (_max_num_files g)) 0
       {| self := g; disk := Some sample_files |}
     = (Ok c, {| self := g; disk := Some files1 |}) /\
     (c - 1) * _max_num_files g < _num_files g <= c * _max_num_files g /\
     c < _num_files g /\ 2 * c <= _num_files g + 1 /\
     Z.of_nat (length ms1) = c /\ runs_at files1 0 ms1 /\
     munion ms1 = munion sample_maps).
Proof.
  split.
  - split; [simpl; lia |]. split; [reflexivity |]. split; [exact sample_runs_at |]. simpl; lia.
  - apply (merge_loop_terminates (set_num_files 3 sample_statement)
             sample_files sample_maps 3);
      [simpl; lia | reflexivity | exact sample_runs_at | simpl; lia].
Defined.

(** C3: a pass need not halve the number of runs.  Three runs with a
    fan-in of two become two, and [2 * 2 <= 3] does not hold.  The same
    run through [groupBy]: three spills, one merge stage, two runs left. *)
Lemma pass_does_not_halve :
  let g := set_num_files 3 sample_statement in
  (merge_pass (py_range_step (_num_files g) (_max_num_files g)) 0
     {| self := g; disk := Some sample_files |}).1 = Ok 2 /\
  ~ 2 * 2 <= _num_files g /\
  self (after_groupBy sample_statement [(1, 0); (2, 0); (3, 0)])
  = {| _num_files := 2; _max_num_files := 2; _max_hashmap_entries := 1;
       _max_memory := -1; spills := 3; num_merge_stages := 1;
       total_num_entries := 3 |}.
Proof.
  split; [vm_compute; reflexivity |]. split; [simpl; lia | vm_compute; reflexivity].
Qed.

(** C4: the bound is not [max_hashmap_entries] itself when that is below
    1, which a small [max_memory] brings about: with 50 bytes and pairs
    of 56 the block sets it to 0, and one value is held. *)
Lemma held_exceeds_budget :
  held (GroupByStatement_init None None (Some 50)) [(1, 0)] = Some (1%nat, 0) /\
  held (GroupByStatement_init None (Some 0) None) [(1, 0)] = Some (1%nat, 0) /\
  ~ Z.of_nat 1 <= 0.
Proof.
  split; [vm_compute; reflexivity |]. split; [vm_compute; reflexivity | lia].
Qed.

(** C5 on the sample input. *)
Lemma disk_iterator_cleanup_witness :
  let run := GroupByStatement_groupBy sample_input
               {| self := sample_statement; disk := None |} in
  let it := match run.1 with
            | Ok (FromDisk it) => it
            | _ => {| _merge_file_iterator := {| _heap := [] |} |}
            end in
  let w := run.2 in
  (Forall value_ok sample_input /\ run = (Ok (FromDisk it), w)) /\
  is_Some (disk w) /\
  KeyListIteratorFromDisk_hasNext it = true /\
  (forall n it_n w_n,
     advance n it w = (Ok it_n, w_n) ->
     if KeyListIteratorFromDisk_hasNext it_n then w_n = w
     else w_n = {| self := self w; disk := None |}) /\
  (forall it_n w_n,
     KeyListIteratorFromDisk_hasNext it_n = false ->
     KeyListIteratorFromDisk_next it_n w_n = (Raise StopIteration, w_n)) /\
  (exists out it',
     drain (FromDisk it) w = (Ok (out, it'), {| self := self w; disk := None |}) /\
     hasNext it' = false).
Proof.
  cbv zeta. split.
  - split; [exact sample_input_ok | vm_compute; reflexivity].
  - apply (disk_iterator_cleanup sample_statement None sample_input);
      [exact sample_input_ok | vm_compute; reflexivity].
Defined.

(** C6 on two runs with a fan-in of one, and through [groupBy]. *)
Lemma merge_not_possible_raises_witness :
  let g := set_num_files 2 (GroupByStatement_init (Some 1) (Some 1) None) in
  (_num_files g > _max_num_files g /\ _max_num_files g < 2) /\
  _merge_dump_files 2 {| self := g; disk := Some sample_files |}
  = (Raise TypeError, {| self := g; disk := None |}).
Proof.
  cbv zeta. split; [simpl; lia |].
  apply (merge_not_possible_raises
           (set_num_files 2 (GroupByStatement_init (Some 1) (Some 1) None))
           sample_files 1); simpl; lia.
Defined.

Lemma groupBy_merge_not_possible :
  let r := groupBy [(1, 0); (2, 0)] (Some 1) (Some 1) None in
  r.1 = Raise TypeError /\ disk r.2 = None /\ spills (self r.2) = 2.
Proof. vm_compute. repeat split. Qed.

(** C7 on a run of two entries. *)
Lemma run_round_trip_witness :
  let r := [(1, [txt "a"; txt "b"]); (2, [txt "c"])] in
  (r <> [] /\ StronglySorted Z.lt r.*1 /\
   Forall (fun e => Forall (fun v => v <> [] /\ no_space v) e.2) r) /\
  read_back r = Ok r.
Proof.
  cbv zeta.
  assert (H1 : [(1, [txt "a"; txt "b"]); (2, [txt "c"])] <> []) by discriminate.
  assert (H2 : StronglySorted Z.lt [(1, [txt "a"; txt "b"]); (2, [txt "c"])].*1).
  { simpl. repeat constructor. }
  assert (H3 : Forall (fun e : Z * list (list ascii) =>
                         Forall (fun v => v <> [] /\ no_space v) e.2)
                 [(1, [txt "a"; txt "b"]); (2, [txt "c"])]).
  { repeat constructor; discriminate. }
  split; [done |]. exact (run_round_trip _ H1 H2 H3).
Defined.

(** C7 does not extend to a values list that holds the empty string,
    which is free of whitespace and reads back as nothing, nor to the
    empty sequence, whose file stops the reader's constructor. *)
Lemma run_round_trip_fails :
  read_back [(1, [[]])] = Ok [(1, [])] /\
  read_back [(1, [txt "a"; []; txt "b"])] = Ok [(1, [txt "a"; txt "b"])] /\
  read_back [] = Raise StopIteration.
Proof. repeat split. Qed.

(** C8: without options the statement that [groupBy] runs has neither
    [max_num_files = 100] nor [max_hashmap_entries = 1000000]. *)
Lemma groupBy_defaults_differ :
  let g := self (groupBy ([] : list (Z * Z)) None None None).2 in
  _max_num_files g = 1000 /\ _max_hashmap_entries g = 10000000 /\
  _max_num_files g <> 100 /\ _max_hashmap_entries g <> 1000000.
Proof. repeat split; discriminate. Qed.

(** C9 on the second group of a pass over three runs, two at a time. *)
Lemma merge_slot_behind_sources_witness :
  let g := set_num_files 3 sample_statement in
  (2 <= _max_num_files g /\ _num_files g = Z.of_nat (length sample_maps) /\
   runs_at sample_files 0 sample_maps /\
   py_range_step (_num_files g) (_max_num_files g) !! 1%nat = Some 2) /\
  2 = Z.of_nat 1 * _max_num_files g /\
  Z.of_nat 1 <= 2 /\
  (1 <= Z.of_nat 1 -> Z.of_nat 1 < 2) /\
  exists before after,
    merge_pass (take 1 (py_range_step (_num_files g) (_max_num_files g))) 0
      {| self := g; disk := Some sample_files |}
    = (Ok (Z.of_nat 1), {| self := g; disk := Some before |}) /\
    (forall s, 2 <= s -> before !! dump_ s = sample_files !! dump_ s) /\
    (1 <= Z.of_nat 1 -> before !! dump_ (Z.of_nat 1) = None) /\
    runs_at before 0 (merged_groups (_max_num_files g) sample_maps 1) /\
    merge_group 2 (Z.of_nat 1) {| self := g; disk := Some before |}
    = (Ok tt, {| self := g; disk := Some after |}) /\
    (forall s, 2 + _max_num_files g <= s -> after !! dump_ s = sample_files !! dump_ s) /\
    (forall i, 0 <= i < Z.of_nat 1 -> after !! dump_ i = before !! dump_ i) /\
    good_file after (Z.of_nat 1)
      (munion (take (Z.to_nat (_max_num_files g))
                 (drop (1 * Z.to_nat (_max_num_files g)) sample_maps))).
Proof.
  cbv zeta. split.
  - split; [simpl; lia |]. split; [reflexivity |]. split; [exact sample_runs_at |].
    reflexivity.
  - apply (merge_slot_behind_sources (set_num_files 3 sample_statement)
             sample_files sample_maps 1 2);
      [simpl; lia | reflexivity | exact sample_runs_at | reflexivity].
Defined.

(** C10 on the sample statement and input. *)
Lemma dump_files_hold_entries_witness :
  1 <= _max_hashmap_entries sample_statement /\
  (exists res g' files',
     _chunk_input_into_dump_files sample_input
       {| self := reset_statistics sample_statement; disk := Some ∅ |}
     = (Ok res, {| self := g'; disk := Some files' |}) /\
     0 <= _num_files g' /\
     (forall i, 0 <= i < _num_files g' ->
        exists e r, files' !! _get_dump_filename i = Some (file_text (e :: r))) /\
     (forall indices,
        Forall (fun i => 0 <= i < _num_files g') indices ->
        exists it,
          MergeFileIterator_init (_get_dump_filename <$> indices) (Some files') = Ok it)) /\
  (forall files filelist f it,
     f ∈ filelist -> files !! f = Some [] ->
     MergeFileIterator_init filelist (Some files) <> Ok it) /\
  (forall files f,
     files !! f = Some [] ->
     MergeFileIterator_init [f] (Some files) = Raise StopIteration).
Proof.
  split; [simpl; lia |].
  apply (dump_files_hold_entries sample_statement ∅ sample_input). simpl; lia.
Defined.

(* ================================================================== *)
(** * Further results *)
(* ================================================================== *)

Section further_results.
Context {V : Type} {V_str : PyStr V} {Z_size : GetSizeOf Z} {V_size : GetSizeOf V}.
Implicit Types input : list (Z * V).

(** X1.  With [max_hashmap_entries] below 1 and an input that is not
    empty, [groupBy] raises: the first turn of the accumulator's loop
    spills the hashmap while it is still empty, so [dump_0] is an empty
    file.  When more runs were spilled than the fan-in in force and
    that fan-in is below 2, the merge loop removes the request
    directory and raises [TypeError]; otherwise the first merge
    iterator built, for the first group of the first pass or for the
    result, raises [StopIteration] on [dump_0], and the request
    directory is left behind. *)
Theorem small_budget_no_iterator g d input :
  _max_hashmap_entries g < 1 -> input <> [] ->
  exists g' files',
    1 <= _num_files g' /\ files' !! dump_ 0 = Some [] /\
    _max_num_files g' = tuned_max_num_files (reset_statistics g) input /\
    GroupByStatement_groupBy input {| self := g; disk := d |}
    = if bool_decide (_num_files g' > _max_num_files g' /\ _max_num_files g' < 2)
      then (Raise TypeError, {| self := g'; disk := None |})
      else (Raise StopIteration, {| self := g'; disk := Some files' |}).
Proof. apply groupBy_small_budget_raises. Qed.

(** X2.  The three ways [groupBy] ends on an input whose values render
    without whitespace, for a [max_hashmap_entries] of at least 1: with
    an in-memory iterator over the grouped input, the request directory
    gone; with a disk iterator over at least one and at most
    [max_num_files] runs that delivers the grouped input without the
    values that render as the empty string, hence the grouped input
    itself when there is no such value; or, when the fan-in in effect
    is below 2 and more runs than that were spilled, with [TypeError]
    and the request directory gone. *)
Theorem groupBy_outcomes g d input :
  Forall value_ok input -> 1 <= _max_hashmap_entries g ->
  (exists w',
     GroupByStatement_groupBy input {| self := g; disk := d |}
     = (Ok (FromMemory (KeyListIteratorFromMemory_init (hashmap_of input))), w') /\
     (input <> [] -> disk w' = None)) \/
  (exists it g' files',
     GroupByStatement_groupBy input {| self := g; disk := d |}
     = (Ok (FromDisk {| _merge_file_iterator := it |}),
        {| self := g'; disk := Some files' |}) /\
     delivers it (run_of_map (squeeze <$> hashmap_of input)) /\
     (Forall (fun kv => py_str kv.2 <> []) input ->
      delivers it (compute_hashmap input)) /\
     _heap it <> [] /\
     1 <= _num_files g' <= _max_num_files g' /\
     _max_num_files g' = tuned_max_num_files (reset_statistics g) input) \/
  (exists g',
     GroupByStatement_groupBy input {| self := g; disk := d |}
     = (Raise TypeError, {| self := g'; disk := None |}) /\
     tuned_max_num_files (reset_statistics g) input < 2 /\
     _num_files g' > tuned_max_num_files (reset_statistics g) input).
Proof.
  intros Hok HM.
  destruct (groupBy_spec g d input Hok HM)
    as [Hmem | [(it & g' & files' & Heq & Hdel & Hrest) | Herr]].
  - by left.
  - right; left. exists it, g', files'. split; [done |]. split; [done |].
    split; [| done]. intros Hne. by rewrite <- run_of_squeezed_hashmap.
  - by right; right.
Qed.

End further_results.

(** X1 on the sample input with a budget of zero and the default fan-in:
    [StopIteration] from the iterator built for the result. *)
Lemma small_budget_no_iterator_witness :
  let g := GroupByStatement_init None (Some 0) None in
  (_max_hashmap_entries g < 1 /\ sample_input <> []) /\
  (exists g' files',
     1 <= _num_files g' /\ files' !! dump_ 0 = Some [] /\
     _max_num_files g' = tuned_max_num_files (reset_statistics g) sample_input /\
     GroupByStatement_groupBy sample_input {| self := g; disk := None |}
     = if bool_decide (_num_files g' > _max_num_files g' /\ _max_num_files g' < 2)
       then (Raise TypeError, {| self := g'; disk := None |})
       else (Raise StopIteration, {| self := g'; disk := Some files' |})) /\
  (GroupByStatement_groupBy sample_input {| self := g; disk := None |}).1
  = Raise StopIteration.
Proof.
  cbv zeta. split; [split; [simpl; lia | discriminate] |]. split.
  - apply (small_budget_no_iterator (GroupByStatement_init None (Some 0) None)
             None sample_input); [simpl; lia | discriminate].
  - vm_compute. reflexivity.
Defined.

(** X2 on the sample statement and input. *)
Lemma groupBy_outcomes_witness :
  (Forall value_ok sample_input /\ 1 <= _max_hashmap_entries sample_statement) /\
  ((exists w',
      GroupByStatement_groupBy sample_input {| self := sample_statement; disk := None |}
      = (Ok (FromMemory (KeyListIteratorFromMemory_init (hashmap_of sample_input))), w') /\
      (sample_input <> [] -> disk w' = None)) \/
   (exists it g' files',
      GroupByStatement_groupBy sample_input {| self := sample_statement; disk := None |}
      = (Ok (FromDisk {| _merge_file_iterator := it |}),
         {| self := g'; disk := Some files' |}) /\
      delivers it (run_of_map (squeeze <$> hashmap_of sample_input)) /\
      (Forall (fun kv : Z * Z => py_str kv.2 <> []) sample_input ->
       delivers it (compute_hashmap sample_input)) /\
      _heap it <> [] /\
      1 <= _num_files g' <= _max_num_files g' /\
      _max_num_files g'
      = tuned_max_num_files (reset_statistics sample_statement) sample_input) \/
   (exists g',
      GroupByStatement_groupBy sample_input {| self := sample_statement; disk := None |}
      = (Raise TypeError, {| self := g'; disk := None |}) /\
      tuned_max_num_files (reset_statistics sample_statement) sample_input < 2 /\
      _num_files g' > tuned_max_num_files (reset_statistics sample_statement) sample_input)).
Proof.
  split; [split; [exact sample_input_ok | simpl; lia] |].
  apply (groupBy_outcomes sample_statement None sample_input);
    [exact sample_input_ok | simpl; lia].
Defined.

Section statistics_results.
Context {V : Type} {V_str : PyStr V} {Z_size : GetSizeOf Z} {V_size : GetSizeOf V}.
Implicit Types input : list (Z * V).

(** X3.  [_chunk_input_into_dump_files] on [N >= 1] pairs, from a
    statement with [max_hashmap_entries >= 1] whose statistics are
    reset: it returns; [total_num_entries] is [N]; [spills] is the
    number of dump files.  With [B = max(1, max_hashmap_entries)] for
    the value in force after the first pair: when [N <= B] nothing is
    spilled, the disk is untouched and the hashmap of the whole input is
    returned; when [N > B] the result is [None] and [spills] is
    [ceil(N / B)]. *)
Theorem accumulator_statistics g files input :
  1 <= _max_hashmap_entries g -> input <> [] ->
  exists res g' files',
    _chunk_input_into_dump_files input
      {| self := reset_statistics g; disk := Some files |}
    = (Ok res, {| self := g'; disk := Some files' |}) /\
    total_num_entries g' = Z.of_nat (length input) /\
    spills g' = _num_files g' /\
    _max_hashmap_entries g' = tuned_max_hashmap_entries (reset_statistics g) input /\
    _max_num_files g' = tuned_max_num_files (reset_statistics g) input /\
    (Z.of_nat (length input) <= chunk_size (reset_statistics g) input ->
     res = Some (hashmap_of input) /\ spills g' = 0 /\ files' = files) /\
    (chunk_size (reset_statistics g) input < Z.of_nat (length input) ->
     res = None /\
     spills g' = ceil_div (Z.of_nat (length input))
                   (chunk_size (reset_statistics g) input)).
Proof.
  intros HM Hne.
  destruct (chunk_input_count input (reset_statistics g) files) as
    (res & g' & files' & Hrun & Htot & Hsp & _ & _ & HM' & HF' & Hmem & Hdisk);
    try done.
  exists res, g', files'. done.
Qed.

(** X5.  [groupBy] on [N >= 1] pairs with [max_hashmap_entries >= 1]
    and [N <= B], [B = max(1, max_hashmap_entries)] for the value in
    force after the first pair (so also when [N] is exactly the
    budget): it returns the in-memory iterator over the hashmap of the
    input, the request directory is removed, and the statistics are
    [total_num_entries = N], [spills = 0], [_num_files = 0],
    [num_merge_stages = 0]. *)
Theorem groupBy_fits_in_memory g d input :
  1 <= _max_hashmap_entries g -> input <> [] ->
  Z.of_nat (length input) <= chunk_size (reset_statistics g) input ->
  exists g',
    GroupByStatement_groupBy input {| self := g; disk := d |}
    = (Ok (FromMemory (KeyListIteratorFromMemory_init (hashmap_of input))),
       {| self := g'; disk := None |}) /\
    total_num_entries g' = Z.of_nat (length input) /\
    spills g' = 0 /\ _num_files g' = 0 /\ num_merge_stages g' = 0 /\
    _max_hashmap_entries g' = tuned_max_hashmap_entries (reset_statistics g) input /\
    _max_num_files g' = tuned_max_num_files (reset_statistics g) input.
Proof. apply groupBy_in_memory. Qed.

(** X6.  [groupBy] on [N] pairs whose values render without
    whitespace, with [max_hashmap_entries >= 1], [N > B] and a fan-in
    [F >= 2] ([B] and [F] being the values in force after the first
    pair): it returns a disk iterator that delivers the grouped input
    without the values that render as the empty string, hence the
    grouped input itself when there is no such value, and the
    statistics are [total_num_entries = N],
    [spills = ceil(N / B)], [num_merge_stages = s] for the least [s]
    with [spills <= F ^ (s + 1)], and [_num_files = ceil(spills / F ^ s)],
    which lies between 1 and [F]. *)
Theorem groupBy_statistics g d input :
  Forall value_ok input -> 1 <= _max_hashmap_entries g ->
  chunk_size (reset_statistics g) input < Z.of_nat (length input) ->
  2 <= tuned_max_num_files (reset_statistics g) input ->
  exists (s : nat) it g' files',
    GroupByStatement_groupBy input {| self := g; disk := d |}
    = (Ok (FromDisk {| _merge_file_iterator := it |}),
       {| self := g'; disk := Some files' |}) /\
    delivers it (run_of_map (squeeze <$> hashmap_of input)) /\
    (Forall (fun kv => py_str kv.2 <> []) input ->
     delivers it (compute_hashmap input)) /\
    total_num_entries g' = Z.of_nat (length input) /\
    spills g' = ceil_div (Z.of_nat (length input)) (chunk_size (reset_statistics g) input) /\
    num_merge_stages g' = Z.of_nat s /\
    spills g' <= _max_num_files g' ^ (Z.of_nat s + 1) /\
    (1 <= Z.of_nat s -> _max_num_files g' ^ Z.of_nat s < spills g') /\
    _num_files g' = ceil_div (spills g') (_max_num_files g' ^ Z.of_nat s) /\
    1 <= _num_files g' <= _max_num_files g' /\
    _max_hashmap_entries g' = tuned_max_hashmap_entries (reset_statistics g) input /\
    _max_num_files g' = tuned_max_num_files (reset_statistics g) input.
Proof.
  intros Hok HM HN HF.
  destruct (groupBy_on_disk g d input Hok HM HN HF)
    as (s & it & g' & files' & Heq & Hdel & Hrest).
  exists s, it, g', files'. split; [done |]. split; [done |]. split; [| done].
  intros Hne. by rewrite <- run_of_squeezed_hashmap.
Qed.

(** X14.  With [max_memory > 0] at least the size of the first pair,
    after any non-empty prefix of the input has gone through the
    accumulator's loop: [max_hashmap_entries] is
    [max_memory // kv_size] and [max_num_files] the same capped at 1000,
    [kv_size] being the size of the first pair; and the number of values
    held, times [kv_size], does not exceed [max_memory]. *)
Theorem max_memory_budget g files (kv : Z * V) (pre : list (Z * V)) :
  _max_memory g > 0 ->
  getsizeof kv.1 + getsizeof kv.2 <= _max_memory g ->
  exists n h g' files',
    chunk_loop (kv :: pre) 0 ∅ {| self := reset_statistics g; disk := Some files |}
    = (Ok (n, h), {| self := g'; disk := Some files' |}) /\
    n = Z.of_nat (entry_count h) /\
    _max_hashmap_entries g' = _max_memory g `div` (getsizeof kv.1 + getsizeof kv.2) /\
    _max_num_files g'
    = Z.min 1000 (_max_memory g `div` (getsizeof kv.1 + getsizeof kv.2)) /\
    _max_num_files g' <= 1000 /\
    Z.of_nat (entry_count h) * (getsizeof kv.1 + getsizeof kv.2) <= _max_memory g.
Proof.
  intros Hmem Hsize.
  pose proof (getsizeof_pos kv.1). pose proof (getsizeof_pos kv.2).
  set (kv_size := getsizeof kv.1 + getsizeof kv.2) in *.
  destruct (chunk_loop_run (kv :: pre) 0 ∅ (reset_statistics g) files) as
    (n & h & g' & files' & Hloop & Hn & Hbound & _).
  { by rewrite entry_count_empty. }
  destruct (chunk_loop_limits _ _ _ _ _ _ _ _ Hloop) as (_ & _ & Hlim).
  destruct Hlim as [HM HF]; [done |].
  unfold tuned_max_hashmap_entries in HM. unfold tuned_max_num_files in HF.
  simpl _max_memory in HM, HF. simpl total_num_entries in HM, HF.
  rewrite bool_decide_eq_true_2 in HM, HF by done. fold kv_size in HM, HF.
  exists n, h, g', files'. split; [done |]. split; [done |]. split; [done |].
  split; [done |]. split; [lia |].
  assert (H1 : 1 <= _max_memory g `div` kv_size)
    by (apply Z.div_le_lower_bound; lia).
  destruct Hbound as [_ Hb]; [simpl; lia | simpl; lia |].
  pose proof (Z.mul_div_le (_max_memory g) kv_size ltac:(lia)).
  rewrite <- Hn. rewrite HM in Hb. nia.
Qed.

(** X11.  The oracle of tests.py: for an input whose values render as
    non-empty strings without whitespace, whatever [groupBy] returns
    passes [compare_outputs] against the same data: the result iterator
    yields exactly the list [compute_hashmap] builds, entry by entry,
    and nothing more. *)
Theorem compare_outputs_passes g d input it w :
  Forall (fun kv => py_str kv.2 <> [] /\ no_space (py_str kv.2)) input ->
  GroupByStatement_groupBy input {| self := g; disk := d |} = (Ok it, w) ->
  exists it' w',
    drain it w = (Ok (compute_hashmap input, it'), w') /\
    compare_outputs input it w = (Ok Passed, w').
Proof. apply groupBy_compare. Qed.

(** X12.  Consuming the result of [groupBy] with a [for] loop
    ([__next__] until [StopIteration]) collects the same items as the
    [hasNext]/[next] loop and leaves the same state: untouched for the
    in-memory iterator, the request directory removed for the disk
    iterator. *)
Theorem for_loop_consumption g d input it w :
  Forall value_ok input ->
  GroupByStatement_groupBy input {| self := g; disk := d |} = (Ok it, w) ->
  exists out it' w',
    drain it w = (Ok (out, it'), w') /\
    for_each (S (result_size it)) it w = (Ok out, w') /\
    match it with
    | FromMemory _ => w' = w
    | FromDisk _ => is_Some (disk w) /\ w' = {| self := self w; disk := None |}
    end.
Proof. apply groupBy_for_each. Qed.

(** X20.  The configuration never changes the answer: for an input
    whose values render as non-empty strings without whitespace, two
    runs of [groupBy] that return, whatever their limits and whichever
    path each takes, yield the same list of groups. *)
Theorem result_independent_of_configuration g1 d1 g2 d2 input it1 w1 it2 w2 :
  Forall (fun kv => py_str kv.2 <> [] /\ no_space (py_str kv.2)) input ->
  GroupByStatement_groupBy input {| self := g1; disk := d1 |} = (Ok it1, w1) ->
  GroupByStatement_groupBy input {| self := g2; disk := d2 |} = (Ok it2, w2) ->
  exists out it1' w1' it2' w2',
    drain it1 w1 = (Ok (out, it1'), w1') /\
    drain it2 w2 = (Ok (out, it2'), w2').
Proof.
  intros Hvals Hrun1 Hrun2.
  destruct (groupBy_compare g1 d1 input it1 w1 Hvals Hrun1) as (it1' & w1' & Hd1 & _).
  destruct (groupBy_compare g2 d2 input it2 w2 Hvals Hrun2) as (it2' & w2' & Hd2 & _).
  by exists (compute_hashmap input), it1', w1', it2', w2'.
Qed.

(** X18.  When [groupBy] returns a disk iterator, the request
    directory holds the files [dump_0], ..., [dump_(_num_files - 1)]
    and no other: no scratch file [_merge], no run of an earlier
    stage. *)
Theorem request_directory_names g d input it w :
  GroupByStatement_groupBy input {| self := g; disk := d |} = (Ok (FromDisk it), w) ->
  exists files, disk w = Some files /\
    1 <= _num_files (self w) /\
    dom files = dump_names (_num_files (self w)).
Proof. apply groupBy_names. Qed.

(** X10.  [groupBy] reads its input through [hasNext] and [next] only:
    on an iterator whose [hasNext]/[next] loop delivers the pairs [l]
    without raising, it does what it does on [l]. *)
Theorem groupBy_on_iterator {I} `{JavaIterator I (Z * V)} (fuel : nat) (it it' : I) l w :
  pull fuel it = (Ok l, it') ->
  GroupByStatement_groupBy_on fuel it w = GroupByStatement_groupBy l w.
Proof. apply groupBy_on_pull. Qed.

End statistics_results.

(** X4.  The merge loop on [n >= 1] well-formed runs with
    [max_num_files = m >= 2] returns after [s] passes, [s] being the
    least number with [n <= m ^ (s + 1)]; it leaves [ceil(n / m ^ s)]
    runs, which read back as the same multimap;
    [num_merge_stages] has grown by [s], the other statistics and the
    limits are unchanged. *)
Theorem merge_stage_count fuel g files ms :
  _num_files g = Z.of_nat (length ms) -> ms <> [] ->
  runs_at files 0 ms -> (length ms <= fuel)%nat ->
  2 <= _max_num_files g ->
  exists (s : nat) g' files' ms',
    _merge_dump_files fuel {| self := g; disk := Some files |}
    = (Ok tt, {| self := g'; disk := Some files' |}) /\
    num_merge_stages g' = num_merge_stages g + Z.of_nat s /\
    _num_files g' = ceil_div (_num_files g) (_max_num_files g ^ Z.of_nat s) /\
    _num_files g <= _max_num_files g ^ (Z.of_nat s + 1) /\
    (1 <= Z.of_nat s -> _max_num_files g ^ Z.of_nat s < _num_files g) /\
    spills g' = spills g /\ total_num_entries g' = total_num_entries g /\
    _max_hashmap_entries g' = _max_hashmap_entries g /\
    _max_memory g' = _max_memory g /\
    _max_num_files g' = _max_num_files g /\
    _num_files g' = Z.of_nat (length ms') /\ ms' <> [] /\
    runs_at files' 0 ms' /\ munion ms' = munion ms.
Proof. apply merge_loop_stages. Qed.

(** X7.  An [IncrementalKeyValueIterator] built with [nr_pairs = n]
    (and non-zero ranges when [n > 0]) delivers [max(n, 0)] pairs, the
    [i]-th being [(i * key_jump % key_range, i * value_jump % value_range)];
    then [hasNext] is false and [next] raises [StopIteration], leaving
    the object as it is.  With positive ranges every key is in
    [0 .. key_range - 1] and every value in [0 .. value_range - 1]. *)
Theorem incremental_iterator_pairs n kr vr kj vj :
  (0 < n -> kr <> 0 /\ vr <> 0) ->
  let pairs := incremental_pairs n kr vr (default 1 kj) (default 1 vj) in
  let last := incremental_state n kr vr (default 1 kj) (default 1 vj) (Z.max 0 n) in
  pull (Z.to_nat n) (IncrementalKeyValueIterator.init n kr vr kj vj) = (Ok pairs, last) /\
  length pairs = Z.to_nat n /\
  IncrementalKeyValueIterator.hasNext last = false /\
  IncrementalKeyValueIterator.next last = (Raise StopIteration, last) /\
  (0 < kr -> 0 < vr -> Forall (fun kv => 0 <= kv.1 < kr /\ 0 <= kv.2 < vr) pairs).
Proof.
  intros Hr pairs last. split; [| split; [| split; [| split]]].
  - rewrite incremental_init. rewrite incremental_pull; [| lia | lia | done].
    rewrite Z.sub_0_r. reflexivity.
  - apply incremental_pairs_length.
  - apply incremental_exhausted. lia.
  - apply incremental_exhausted. lia.
  - apply incremental_pairs_range.
Qed.

(** X8.  An [IncrementalKeyValueIterator] with pairs to deliver and a
    range of zero raises [ZeroDivisionError] at the first [next], and
    [nr_pairs] is not decremented, so [hasNext] stays true. *)
Theorem incremental_iterator_zero_range (k : nat) n kr vr kj vj :
  0 < n -> kr = 0 \/ vr = 0 ->
  (pull (S k) (IncrementalKeyValueIterator.init n kr vr kj vj)).1
  = Raise ZeroDivisionError /\
  IncrementalKeyValueIterator.nr_pairs
    (pull (S k) (IncrementalKeyValueIterator.init n kr vr kj vj)).2 = n.
Proof. apply incremental_zero_range. Qed.

(** X9.  The [hasNext]/[next] loop over [ListIterator(l)] delivers the
    items of [l] in order and ends with [hasNext] false.  Each further
    [next] raises [StopIteration] and still decrements [nr_pairs], which
    goes negative; [hasNext] stays false. *)
Theorem list_iterator_pairs {A} (l : list A) (k : nat) :
  let last := {| ListIterator.nr_pairs := 0; ListIterator._iter := [] |} in
  pull (length l) (ListIterator.init l) = (Ok l, last) /\
  ListIterator.hasNext last = false /\
  overrun k last
  = Some {| ListIterator.nr_pairs := - Z.of_nat k; ListIterator._iter := [] |} /\
  ListIterator.hasNext
    {| ListIterator.nr_pairs := - Z.of_nat k; ListIterator._iter := @nil A |} = false.
Proof.
  intros last. split; [| split; [| split]].
  - unfold ListIterator.init. by rewrite list_iterator_pull.
  - reflexivity.
  - unfold last. rewrite list_iterator_overrun. reflexivity.
  - unfold ListIterator.hasNext. apply bool_decide_eq_false. simpl. lia.
Qed.

(** X13.  [KeyListIteratorFromMemory] over any hashmap: both ways of
    consuming it deliver the items [(key, hashmap[key])] by strictly
    ascending key, each key of the hashmap once, and touch neither the
    engine nor the disk; once the keys are used up [__next__] raises
    [StopIteration]. *)
Theorem memory_iterator_items (hashmap : gmap Z (list (list ascii))) w :
  let out := run_of_map hashmap in
  let last := {| _hashmap := hashmap; _iter := []; _remaining_elements := 0 |} in
  drain (FromMemory (KeyListIteratorFromMemory_init hashmap)) w
  = (Ok (out, FromMemory last), w) /\
  for_each (S (length (sorted_keys hashmap)))
    (FromMemory (KeyListIteratorFromMemory_init hashmap)) w = (Ok out, w) /\
  KeyListIteratorFromMemory_hasNext last = false /\
  KeyListIteratorFromMemory_next last = Raise StopIteration /\
  StronglySorted Z.lt out.*1 /\
  length out = size hashmap /\
  (forall k vs, (k, vs) ∈ out <-> hashmap !! k = Some vs).
Proof.
  intros out last. destruct (memory_iterator_run hashmap w) as [Hdrain Hfor].
  split; [done |]. split; [done |]. split; [reflexivity |]. split; [reflexivity |].
  split; [unfold out; rewrite run_of_map_keys; apply sorted_keys_sorted |].
  split; [apply run_of_map_length |].
  intros k vs. apply elem_of_run_of_map.
Qed.

(** X15.  The constructor of [MergeFileIterator] opens every file
    before it reads any: if one name of the list is missing (or the
    directory is), it raises [FileNotFoundError], whatever the other
    files hold. *)
Theorem merge_iterator_missing_file d filelist f :
  f ∈ filelist ->
  match d with Some files => files !! f = None | None => True end ->
  MergeFileIterator_init filelist d = Raise FileNotFoundError.
Proof.
  intros Hin Hf. apply (init_missing_file d filelist f Hin).
  unfold open_read. destruct d as [files|]; [by rewrite Hf | done].
Qed.

(** X16.  [write_key_values_to_file] on a list of [(key, values)]
    pairs of any value type: when the directory exists it returns, and
    the file holds, whatever it held before, the two lines of each entry
    with the values rendered by [str], the other files being as they
    were; when the directory does not exist it raises
    [FileNotFoundError] and creates nothing. *)
Theorem writer_renders_values {W} `{PyStr W} (l : list (Z * list W)) f g d :
  write_key_values_to_file l f {| self := g; disk := d |}
  = match d with
    | Some files =>
        (Ok tt, {| self := g; disk := Some (<[f := file_text (render_run l)]> files) |})
    | None => (Raise FileNotFoundError, {| self := g; disk := None |})
    end.
Proof.
  destruct d as [files|]; [| apply write_missing_directory].
  rewrite write_render. apply write_list.
Qed.

(** X17.  [compute_hashmap] of tests.py: its keys are strictly
    ascending; it has an entry [(k, vs)] exactly when [vs] is the
    non-empty list of the rendered values of [k] in input order; its
    entries, flattened, are a permutation of the rendered input; the
    hashmap of a concatenation is the key-wise concatenation of the
    hashmaps; and two inputs that give every key the same sequence of
    values, however the keys are interleaved, have the same output. *)
Theorem compute_hashmap_groups {V} `{PyStr V} (input : list (Z * V)) :
  StronglySorted Z.lt (compute_hashmap input).*1 /\
  (forall k vs, (k, vs) ∈ compute_hashmap input <-> vs = values_of k input /\ vs <> []) /\
  flatten (compute_hashmap input) ≡ₚ rendered input /\
  (forall a b : list (Z * V),
     hashmap_of (a ++ b) = mappend (hashmap_of a) (hashmap_of b)) /\
  (forall k, hashmap_of input !!! k = values_of k input) /\
  (forall other : list (Z * V),
     (forall k, values_of k input = values_of k other) ->
     compute_hashmap input = compute_hashmap other).
Proof.
  split; [apply compute_hashmap_sorted |]. split; [apply elem_of_compute_hashmap |].
  split; [apply flatten_compute_hashmap |]. split; [apply hashmap_of_app |].
  split; [intros k; apply lookup_total_hashmap_of |].
  intros other. apply compute_hashmap_ext.
Qed.

(** X19.  The merge tests in general: when the grouped runs of any
    number of non-empty chunks, whose values render as non-empty strings
    without whitespace, are written to distinct files with
    [write_key_values_to_file], the writes succeed and leave the other
    files alone, and a [MergeFileIterator] over these files delivers what
    [compute_hashmap] gives on the concatenation of the chunks. *)
Theorem merge_of_written_runs {V} `{PyStr V} (chunks : list (list (Z * V))) filelist g files :
  NoDup filelist -> length filelist = length chunks ->
  Forall (fun C => C <> []) chunks ->
  Forall (Forall (fun kv => py_str kv.2 <> [] /\ no_space (py_str kv.2))) chunks ->
  exists files' it,
    write_runs (compute_hashmap <$> chunks) filelist {| self := g; disk := Some files |}
    = (Ok tt, {| self := g; disk := Some files' |}) /\
    (forall f, f ∉ filelist -> files' !! f = files !! f) /\
    MergeFileIterator_init filelist (Some files') = Ok it /\
    collect (S (heap_size (_heap it))) it = Ok (compute_hashmap (concat chunks)).
Proof.
  intros Hnd Hlen Hne Hvals.
  destruct (write_runs_spec (compute_hashmap <$> chunks) filelist g files Hnd)
    as (files' & Hwrite & Hframe & Hall); [by rewrite length_fmap |].
  destruct (merge_written_runs chunks filelist files' Hne Hvals Hall) as (it & Hinit & Hdel).
  exists files', it. split; [done |]. split; [done |]. split; [done |].
  apply collect_delivers; [done | lia].
Qed.

(** X3 on the sample statement and input: three pairs, chunks of one. *)
Lemma accumulator_statistics_witness :
  (1 <= _max_hashmap_entries sample_statement /\ sample_input <> []) /\
  exists res g' files',
    _chunk_input_into_dump_files sample_input
      {| self := reset_statistics sample_statement; disk := Some ∅ |}
    = (Ok res, {| self := g'; disk := Some files' |}) /\
    total_num_entries g' = Z.of_nat (length sample_input) /\
    spills g' = _num_files g' /\
    _max_hashmap_entries g'
    = tuned_max_hashmap_entries (reset_statistics sample_statement) sample_input /\
    _max_num_files g'
    = tuned_max_num_files (reset_statistics sample_statement) sample_input /\
    (Z.of_nat (length sample_input)
     <= chunk_size (reset_statistics sample_statement) sample_input ->
     res = Some (hashmap_of sample_input) /\ spills g' = 0 /\ files' = ∅) /\
    (chunk_size (reset_statistics sample_statement) sample_input
     < Z.of_nat (length sample_input) ->
     res = None /\
     spills g' = ceil_div (Z.of_nat (length sample_input))
                   (chunk_size (reset_statistics sample_statement) sample_input)).
Proof.
  split; [split; [simpl; lia | discriminate] |].
  apply (accumulator_statistics sample_statement ∅ sample_input); [simpl; lia | discriminate].
Defined.

(** X4 on three runs with a fan-in of two. *)
Lemma merge_stage_count_witness :
  let g := set_num_files 3 sample_statement in
  (_num_files g = Z.of_nat (length sample_maps) /\ sample_maps <> [] /\
   runs_at sample_files 0 sample_maps /\ (length sample_maps <= 3)%nat /\
   2 <= _max_num_files g) /\
  exists (s : nat) g' files' ms',
    _merge_dump_files 3 {| self := g; disk := Some sample_files |}
    = (Ok tt, {| self := g'; disk := Some files' |}) /\
    num_merge_stages g' = num_merge_stages g + Z.of_nat s /\
    _num_files g' = ceil_div (_num_files g) (_max_num_files g ^ Z.of_nat s) /\
    _num_files g <= _max_num_files g ^ (Z.of_nat s + 1) /\
    (1 <= Z.of_nat s -> _max_num_files g ^ Z.of_nat s < _num_files g) /\
    spills g' = spills g /\ total_num_entries g' = total_num_entries g /\
    _max_hashmap_entries g' = _max_hashmap_entries g /\
    _max_memory g' = _max_memory g /\
    _max_num_files g' = _max_num_files g /\
    _num_files g' = Z.of_nat (length ms') /\ ms' <> [] /\
    runs_at files' 0 ms' /\ munion ms' = munion sample_maps.
Proof.
  cbv zeta. split.
  - split; [reflexivity |]. split; [discriminate |]. split; [exact sample_runs_at |].
    split; [simpl; lia | simpl; lia].
  - apply (merge_stage_count 3 (set_num_files 3 sample_statement) sample_files sample_maps);
      [reflexivity | discriminate | exact sample_runs_at | simpl; lia | simpl; lia].
Defined.

(** X5 on the sample input with the constructor's defaults. *)
Lemma groupBy_fits_in_memory_witness :
  let g := GroupByStatement_init None None None in
  (1 <= _max_hashmap_entries g /\ sample_input <> [] /\
   Z.of_nat (length sample_input) <= chunk_size (reset_statistics g) sample_input) /\
  exists g',
    GroupByStatement_groupBy sample_input {| self := g; disk := None |}
    = (Ok (FromMemory (KeyListIteratorFromMemory_init (hashmap_of sample_input))),
       {| self := g'; disk := None |}) /\
    total_num_entries g' = Z.of_nat (length sample_input) /\
    spills g' = 0 /\ _num_files g' = 0 /\ num_merge_stages g' = 0 /\
    _max_hashmap_entries g' = tuned_max_hashmap_entries (reset_statistics g) sample_input /\
    _max_num_files g' = tuned_max_num_files (reset_statistics g) sample_input.
Proof.
  cbv zeta. split.
  - split; [simpl; lia |]. split; [discriminate | vm_compute; discriminate].
  - apply (groupBy_fits_in_memory (GroupByStatement_init None None None) None sample_input);
      [simpl; lia | discriminate | vm_compute; discriminate].
Defined.

(** X6 on the sample statement and input. *)
Lemma groupBy_statistics_witness :
  (Forall value_ok sample_input /\ 1 <= _max_hashmap_entries sample_statement /\
   chunk_size (reset_statistics sample_statement) sample_input
   < Z.of_nat (length sample_input) /\
   2 <= tuned_max_num_files (reset_statistics sample_statement) sample_input) /\
  exists (s : nat) it g' files',
    GroupByStatement_groupBy sample_input {| self := sample_statement; disk := None |}
    = (Ok (FromDisk {| _merge_file_iterator := it |}),
       {| self := g'; disk := Some files' |}) /\
    delivers it (run_of_map (squeeze <$> hashmap_of sample_input)) /\
    (Forall (fun kv : Z * Z => py_str kv.2 <> []) sample_input ->
     delivers it (compute_hashmap sample_input)) /\
    total_num_entries g' = Z.of_nat (length sample_input) /\
    spills g' = ceil_div (Z.of_nat (length sample_input))
                  (chunk_size (reset_statistics sample_statement) sample_input) /\
    num_merge_stages g' = Z.of_nat s /\
    spills g' <= _max_num_files g' ^ (Z.of_nat s + 1) /\
    (1 <= Z.of_nat s -> _max_num_files g' ^ Z.of_nat s < spills g') /\
    _num_files g' = ceil_div (spills g') (_max_num_files g' ^ Z.of_nat s) /\
    1 <= _num_files g' <= _max_num_files g' /\
    _max_hashmap_entries g'
    = tuned_max_hashmap_entries (reset_statistics sample_statement) sample_input /\
    _max_num_files g'
    = tuned_max_num_files (reset_statistics sample_statement) sample_input.
Proof.
  split.
  - split; [exact sample_input_ok |]. split; [simpl; lia |].
    split; [vm_compute; reflexivity | vm_compute; discriminate].
  - apply (groupBy_statistics sample_statement None sample_input);
      [exact sample_input_ok | simpl; lia | vm_compute; reflexivity | vm_compute; discriminate].
Defined.

(** X7 on [IncrementalKeyValueIterator(3, 2, 3)]. *)
Lemma incremental_iterator_pairs_witness :
  (0 < 3 -> 2 <> 0 /\ 3 <> 0) /\
  pull (Z.to_nat 3) (IncrementalKeyValueIterator.init 3 2 3 None None)
  = (Ok (incremental_pairs 3 2 3 1 1), incremental_state 3 2 3 1 1 (Z.max 0 3)) /\
  length (incremental_pairs 3 2 3 1 1) = Z.to_nat 3 /\
  IncrementalKeyValueIterator.hasNext (incremental_state 3 2 3 1 1 (Z.max 0 3)) = false /\
  IncrementalKeyValueIterator.next (incremental_state 3 2 3 1 1 (Z.max 0 3))
  = (Raise StopIteration, incremental_state 3 2 3 1 1 (Z.max 0 3)) /\
  (0 < 2 -> 0 < 3 ->
   Forall (fun kv => 0 <= kv.1 < 2 /\ 0 <= kv.2 < 3) (incremental_pairs 3 2 3 1 1)).
Proof.
  split; [intros _; split; discriminate |].
  apply (incremental_iterator_pairs 3 2 3 None None). intros _; split; discriminate.
Defined.

(** X8 on [IncrementalKeyValueIterator(1, 1, 0)]. *)
Lemma incremental_iterator_zero_range_witness :
  (0 < 1 /\ (1 = 0 \/ 0 = 0)) /\
  (pull 1 (IncrementalKeyValueIterator.init 1 1 0 None None)).1 = Raise ZeroDivisionError /\
  IncrementalKeyValueIterator.nr_pairs
    (pull 1 (IncrementalKeyValueIterator.init 1 1 0 None None)).2 = 1.
Proof.
  split; [split; [lia | by right] |].
  apply (incremental_iterator_zero_range 0 1 1 0 None None); [lia | by right].
Defined.

(** X10 on the data of a test, [IncrementalKeyValueIterator(10, 3, 3)],
    with the sample statement. *)
Lemma groupBy_on_iterator_witness :
  let it := IncrementalKeyValueIterator.init 10 3 3 None None in
  let w := {| self := sample_statement; disk := None |} in
  pull 10 it = (Ok (incremental_pairs 10 3 3 1 1), incremental_state 10 3 3 1 1 10) /\
  GroupByStatement_groupBy_on 10 it w
  = GroupByStatement_groupBy (incremental_pairs 10 3 3 1 1) w.
Proof.
  cbv zeta.
  assert (Hpull : pull 10 (IncrementalKeyValueIterator.init 10 3 3 None None)
                  = (Ok (incremental_pairs 10 3 3 1 1), incremental_state 10 3 3 1 1 10))
    by (vm_compute; reflexivity).
  split; [exact Hpull |].
  exact (groupBy_on_iterator 10 _ _ _ {| self := sample_statement; disk := None |} Hpull).
Defined.

(** X11 on the sample statement and input. *)
Lemma compare_outputs_passes_witness :
  let run := GroupByStatement_groupBy sample_input
               {| self := sample_statement; disk := None |} in
  let it := match run.1 with
            | Ok it => it
            | _ => FromMemory (KeyListIteratorFromMemory_init ∅)
            end in
  (Forall (fun kv : Z * Z => py_str kv.2 <> [] /\ no_space (py_str kv.2)) sample_input /\
   run = (Ok it, run.2)) /\
  exists it' w',
    drain it run.2 = (Ok (compute_hashmap sample_input, it'), w') /\
    compare_outputs sample_input it run.2 = (Ok Passed, w').
Proof.
  cbv zeta. split.
  - split; [exact sample_input_rendered | vm_compute; reflexivity].
  - apply (compare_outputs_passes sample_statement None sample_input);
      [exact sample_input_rendered | vm_compute; reflexivity].
Defined.

(** X12 on the sample statement and input. *)
Lemma for_loop_consumption_witness :
  let run := GroupByStatement_groupBy sample_input
               {| self := sample_statement; disk := None |} in
  let it := match run.1 with
            | Ok it => it
            | _ => FromMemory (KeyListIteratorFromMemory_init ∅)
            end in
  (Forall value_ok sample_input /\ run = (Ok it, run.2)) /\
  exists out it' w',
    drain it run.2 = (Ok (out, it'), w') /\
    for_each (S (result_size it)) it run.2 = (Ok out, w') /\
    match it with
    | FromMemory _ => w' = run.2
    | FromDisk _ => is_Some (disk run.2) /\ w' = {| self := self run.2; disk := None |}
    end.
Proof.
  cbv zeta. split.
  - split; [exact sample_input_ok | vm_compute; reflexivity].
  - apply (for_loop_consumption sample_statement None sample_input);
      [exact sample_input_ok | vm_compute; reflexivity].
Defined.

(** X14 with [max_memory = 1024], as in a test, on the sample input. *)
Lemma max_memory_budget_witness :
  let g := GroupByStatement_init None None (Some 1024) in
  (_max_memory g > 0 /\ getsizeof (2 : Z) + getsizeof (5 : Z) <= _max_memory g) /\
  exists n h g' files',
    chunk_loop sample_input 0 ∅ {| self := reset_statistics g; disk := Some ∅ |}
    = (Ok (n, h), {| self := g'; disk := Some files' |}) /\
    n = Z.of_nat (entry_count h) /\
    _max_hashmap_entries g' = _max_memory g `div` (getsizeof (2 : Z) + getsizeof (5 : Z)) /\
    _max_num_files g'
    = Z.min 1000 (_max_memory g `div` (getsizeof (2 : Z) + getsizeof (5 : Z))) /\
    _max_num_files g' <= 1000 /\
    Z.of_nat (entry_count h) * (getsizeof (2 : Z) + getsizeof (5 : Z)) <= _max_memory g.
Proof.
  cbv zeta. split; [split; [simpl; lia | simpl; lia] |].
  apply (max_memory_budget (GroupByStatement_init None None (Some 1024)) ∅
           (2, 5) [(1, 7); (2, 6)]); simpl; lia.
Defined.

(** X15 on the sample directory, which has no [dump_7]. *)
Lemma merge_iterator_missing_file_witness :
  (dump_ 7 ∈ [dump_ 0; dump_ 7] /\ sample_files !! dump_ 7 = None) /\
  MergeFileIterator_init [dump_ 0; dump_ 7] (Some sample_files) = Raise FileNotFoundError.
Proof.
  split; [split; [apply list_elem_of_further, list_elem_of_here | reflexivity] |].
  apply (merge_iterator_missing_file (Some sample_files) [dump_ 0; dump_ 7] (dump_ 7));
    [apply list_elem_of_further, list_elem_of_here | reflexivity].
Defined.

(** X18 on the sample statement and input. *)
Lemma request_directory_names_witness :
  let run := GroupByStatement_groupBy sample_input
               {| self := sample_statement; disk := None |} in
  let it := match run.1 with
            | Ok (FromDisk it) => it
            | _ => {| _merge_file_iterator := {| _heap := [] |} |}
            end in
  run = (Ok (FromDisk it), run.2) /\
  exists files, disk run.2 = Some files /\
    1 <= _num_files (self run.2) /\
    dom files = dump_names (_num_files (self run.2)).
Proof.
  cbv zeta.
  assert (Hrun : GroupByStatement_groupBy sample_input
                   {| self := sample_statement; disk := None |}
                 = (Ok (FromDisk
                          match (GroupByStatement_groupBy sample_input
                                   {| self := sample_statement; disk := None |}).1 with
                          | Ok (FromDisk it) => it
                          | _ => {| _merge_file_iterator := {| _heap := [] |} |}
                          end),
                    (GroupByStatement_groupBy sample_input
                       {| self := sample_statement; disk := None |}).2))
    by (vm_compute; reflexivity).
  split; [exact Hrun |].
  exact (request_directory_names sample_statement None sample_input _ _ Hrun).
Defined.

(** X19 on two chunks of the sample input, written to [dump_0] and
    [dump_1]. *)
Lemma merge_of_written_runs_witness :
  let chunks : list (list (Z * Z)) := [[(2, 5); (1, 7)]; [(2, 6)]] in
  let filelist := [dump_ 0; dump_ 1] in
  (NoDup filelist /\ length filelist = length chunks /\
   Forall (fun C => C <> []) chunks /\
   Forall (Forall (fun kv : Z * Z => py_str kv.2 <> [] /\ no_space (py_str kv.2))) chunks) /\
  exists files' it,
    write_runs (compute_hashmap <$> chunks) filelist
      {| self := sample_statement; disk := Some ∅ |}
    = (Ok tt, {| self := sample_statement; disk := Some files' |}) /\
    (forall f, f ∉ filelist -> files' !! f = (∅ : gmap fname (list ascii)) !! f) /\
    MergeFileIterator_init filelist (Some files') = Ok it /\
    collect (S (heap_size (_heap it))) it = Ok (compute_hashmap (concat chunks)).
Proof.
  cbv zeta.
  assert (H1 : NoDup [dump_ 0; dump_ 1]).
  { apply NoDup_cons. split; [| apply NoDup_singleton].
    rewrite list_elem_of_singleton. discriminate. }
  assert (H3 : Forall (fun C : list (Z * Z) => C <> []) [[(2, 5); (1, 7)]; [(2, 6)]]).
  { repeat constructor; discriminate. }
  assert (H4 : Forall (Forall (fun kv : Z * Z => py_str kv.2 <> [] /\ no_space (py_str kv.2)))
                 [[(2, 5); (1, 7)]; [(2, 6)]]).
  { repeat constructor; try discriminate; apply str_int_no_space. }
  split; [done |].
  exact (merge_of_written_runs [[(2, 5); (1, 7)]; [(2, 6)]] [dump_ 0; dump_ 1]
           sample_statement ∅ H1 eq_refl H3 H4).
Defined.

(** X20 on the sample input, spilled by the sample statement and kept in
    memory by the constructor's defaults. *)
Lemma result_independent_of_configuration_witness :
  let run1 := GroupByStatement_groupBy sample_input
                {| self := sample_statement; disk := None |} in
  let run2 := GroupByStatement_groupBy sample_input
                {| self := GroupByStatement_init None None None; disk := None |} in
  let it_of (run : outcome result_iterator * world) :=
    match run.1 with
    | Ok it => it
    | _ => FromMemory (KeyListIteratorFromMemory_init ∅)
    end in
  (Forall (fun kv : Z * Z => py_str kv.2 <> [] /\ no_space (py_str kv.2)) sample_input /\
   run1 = (Ok (it_of run1), run1.2) /\ run2 = (Ok (it_of run2), run2.2)) /\
  exists out it1' w1' it2' w2',
    drain (it_of run1) run1.2 = (Ok (out, it1'), w1') /\
    drain (it_of run2) run2.2 = (Ok (out, it2'), w2').
Proof.
  cbv zeta. split.
  - split; [exact sample_input_rendered |]. split; vm_compute; reflexivity.
  - apply (result_independent_of_configuration sample_statement None
             (GroupByStatement_init None None None) None sample_input);
      [exact sample_input_rendered | vm_compute; reflexivity | vm_compute; reflexivity].
Defined.
